(** * aiomongodel.document

    A shallow embedding of [src/aiomongodel/document.py]: the options
    record [Meta], the metaclasses that assemble a document class
    ([BaseDocumentMeta], [DocumentMeta], [EmbeddedDocumentMeta]) and
    [BaseDocument] with its validated constructor and its wire codec.

    Python objects become records, [OrderedDict] and [SON] become
    association lists updated in place, plain [dict]s used as maps become
    [gmap]s, exceptions become the left summand of a sum, and the one piece
    of ambient state the module reaches (the generator behind [ObjectId()])
    is passed explicitly. *)

From stdpp Require Import gmap strings list.

Set Warnings "-register-all,-clear-no-such-hyp".

(** ** Python values *)

(** The values that travel through documents: user data, normalised field
    values and wire (SON) values.  [VRef] stands for an object the module
    only hands around (a class such as [MotorQuerySet], an index model). *)
Inductive value : Type :=
| VNone
| VBool (b : bool)
| VInt (z : Z)
| VStr (s : string)
| VObjectId (n : nat)
| VList (items : list value)
| VDict (items : list (string * value))
| VRef (qualname : string).

(** Python truthiness, as [if _empty:] tests it. *)
Definition truthy (v : value) : bool :=
  match v with
  | VNone => false
  | VBool b => b
  | VInt z => negb (Z.eqb z 0)
  | VStr s => negb (String.eqb s "")
  | VObjectId _ => true
  | VList items => match items with [] => false | _ => true end
  | VDict items => match items with [] => false | _ => true end
  | VRef _ => true
  end.

(** ** Ordered dictionaries

    [collections.OrderedDict] and [bson.SON]: keys are kept in insertion
    order, and assigning to a key that is already present replaces the
    value where the key stands. *)
Abbreviation odict K V := (list (K * V)) (only parsing).

Section OrderedDict.
Context {K V : Type} `{EqDecision K}.

(** [d[k]], [None] standing for [KeyError]. *)
Fixpoint od_get (k : K) (d : odict K V) : option V :=
  match d with
  | [] => None
  | (k', v) :: rest => if decide (k = k') then Some v else od_get k rest
  end.

(** [d[k] = v]. *)
Fixpoint od_set (k : K) (v : V) (d : odict K V) : odict K V :=
  match d with
  | [] => [(k, v)]
  | (k', v') :: rest =>
      if decide (k = k') then (k, v) :: rest else (k', v') :: od_set k v rest
  end.

(** [list(d.keys())]. *)
Definition od_keys (d : odict K V) : list K := d.*1.

(** Position of a key in the iteration order. *)
Fixpoint od_index (k : K) (d : odict K V) : option nat :=
  match d with
  | [] => None
  | (k', _) :: rest =>
      if decide (k = k') then Some 0 else S <$> od_index k rest
  end.
End OrderedDict.

(** ** Errors *)

(** Modelled from the spec: [aiomongodel.errors.ValidationError] is not
    part of the sources at hand.  It is raised either with a message
    ([ValidationError('field is required')]) or with the mapping from field
    names to per-field errors ([ValidationError(error=errors)]), the
    aggregated error of the spec. *)
Inductive ValidationError : Type :=
| VError (msg : string)
| VErrors (error : odict string ValidationError).

(** The exceptions the module raises or handles. *)
Inductive exn : Type :=
| TypeError (msg : string)
| ValueError (msg : string)
| ValidationErr (e : ValidationError).

(** ** The generator of object identifiers *)

(** Modelled from the spec: [bson.ObjectId] is an external collaborator;
    "a freshly generated unique value" is drawn from a counter, which is the
    state a default factory may advance. *)
Definition world : Type := nat.

Definition ObjectId (w : world) : value * world := (VObjectId w, S w).

(** ** Field descriptors *)

(** The declared default of a field: none (the sentinel [_Empty]), a static
    value, or a factory invoked when the default is read. *)
Inductive default_spec : Type :=
| NoDefault
| Static (v : value)
| Factory (g : world -> value * world).

Module Field.
(** Modelled from the spec: class [Field] of [aiomongodel.fields] is not
    part of the sources at hand.  The record holds what [document.py]
    reads from it, with the contract of the spec's external interfaces:
    [from_data] validates and normalises or fails with a validation
    error, [to_son] and [from_son] are the two wire conversions. *)
Record t : Type := mk {
  name : option string;
  mongo_name : string;
  required : bool;
  _default : default_spec;
  from_data : value -> ValidationError + value;
  to_son : value -> value;
  from_son : value -> value
}.

(** The property [field.default]: [None] is the sentinel [_Empty]. *)
Definition default (f : t) (w : world) : option value * world :=
  match _default f with
  | NoDefault => (None, w)
  | Static v => (Some v, w)
  | Factory g => let '(v, w') := g w in (Some v, w')
  end.

(** Truthiness of [item.name]: neither [None] nor the empty string. *)
Definition named (f : t) : bool :=
  match name f with
  | Some s => negb (String.eqb s "")
  | None => false
  end.

(** [if not item.name: item.name = name]. *)
Definition with_name (n : string) (f : t) : t :=
  if named f then f
  else mk (Some n) (mongo_name f) (required f) (_default f)
          (from_data f) (to_son f) (from_son f).
End Field.

(** Modelled from the spec: class [SynonymField] of [aiomongodel.fields] is
    not part of the sources at hand.  A synonym is an object (it serves as a
    dictionary key, so its identity is kept) that knows the name of the
    field it aliases. *)
Record SynonymField : Type := {
  synonym_id : nat;
  origin_field_name : string
}.

(** ** Meta: the options record of a document class *)

Module Meta.
Definition OPTIONS : gset string :=
  {[ "query_class"; "collection_name";
     "default_query"; "default_sort";
     "fields"; "fields_synonyms"; "indexes";
     "codec_options"; "read_preference"; "read_concern";
     "write_concern" ]}.

Record t : Type := mk {
  query_class : value;
  collection_name : value;
  default_query : value;
  default_sort : value;
  fields : odict string Field.t;
  fields_synonyms : gmap string string;
  _trafaret : value;
  indexes : value;
  codec_options : value;
  read_preference : value;
  read_concern : value;
  write_concern : value
}.

(** [', '.join(diff)]. *)
Definition join (sep : string) (l : list string) : string :=
  String.concat sep l.

(** [_validate_options]: [keys] is [set(kwargs.keys())].  A set is
    iterated in an order Python does not fix; [elements] picks one. *)
Definition _validate_options (keys : gset string) : exn + unit :=
  let diff := keys ∖ OPTIONS in
  if decide (diff = ∅) then inr tt
  else inl (ValueError
              ("Unrecognized Meta options: " +:+ join ", " (elements diff) +:+ ".")).

(** [kwargs.get(key, default)]. *)
Definition get (kwargs : gmap string value) (key : string) (dflt : value) : value :=
  default dflt (kwargs !! key).

(** [Meta.__init__], with [kwargs] as the interpreter bound it.  The two
    entries the metaclass always writes into the options, [fields] and
    [fields_synonyms], are passed with their own types; their keys belong
    to the key set that is validated. *)
Definition __init__ (kwargs : gmap string value)
    (fields' : odict string Field.t) (fields_synonyms' : gmap string string)
    : exn + t :=
  match _validate_options (dom kwargs ∪ {[ "fields"; "fields_synonyms" ]}) with
  | inl e => inl e
  | inr _ =>
      inr (mk (get kwargs "query_class" VNone)
              (get kwargs "collection_name" VNone)
              (get kwargs "default_query" (VDict []))
              (get kwargs "default_sort" VNone)
              fields'
              fields_synonyms'
              VNone
              (get kwargs "indexes" VNone)
              (get kwargs "codec_options" VNone)
              (get kwargs "read_preference" VNone)
              (get kwargs "read_concern" VNone)
              (get kwargs "write_concern" VNone))
  end.

(** Calling [Meta] with the entries of [options] as keyword arguments: an
    entry named [self] collides with the first parameter of [__init__] and
    the call raises [TypeError]. *)
Definition call (options : gmap string value)
    (fields' : odict string Field.t) (fields_synonyms' : gmap string string)
    : exn + t :=
  if decide ("self" ∈ dom options)
  then inl (TypeError "__init__() got multiple values for argument 'self'")
  else __init__ options fields' fields_synonyms'.
End Meta.

(** ** Classes as the metaclass sees them *)

(** What a class body binds a name to. *)
Inductive member : Type :=
| MField (item : Field.t)
| MSynonym (item : SynonymField)
| MOther (v : value).

(** A class: its [__name__], its inner class [Meta] when the body declares
    one (given by that class's [__dict__]) and the rest of its own
    [__dict__], in definition order. *)
Record pyclass : Type := {
  __name__ : string;
  Meta_class : option (odict string value);
  __dict__ : odict string member
}.

(** The class being created, with the rest of its [__mro__] as Python
    resolved it (nearest ancestor first). *)
Record new_class : Type := {
  this : pyclass;
  ancestors : list pyclass
}.

Definition __mro__ (cls : new_class) : list pyclass := this cls :: ancestors cls.

(** What the module imports from the rest of the package and does not
    define: [aiomongodel.utils.snake_case], the class [MotorQuerySet] and
    the conversions of [ObjectIdField]. *)
Record externals : Type := {
  snake_case : string -> string;
  MotorQuerySet : value;
  ObjectIdField_from_data : value -> ValidationError + value;
  ObjectIdField_to_son : value -> value;
  ObjectIdField_from_son : value -> value
}.

Inductive metaclass : Type := DocumentMeta_ | EmbeddedDocumentMeta_.

(** [setattr(cls, name, v)] on a class: the attribute goes into the
    class's own [__dict__], where an attribute of that name keeps its
    place and a new one comes last. *)
Definition setattr (cls : new_class) (name : string) (v : member) : new_class :=
  {| this := {| __name__ := __name__ (this cls);
                Meta_class := Meta_class (this cls);
                __dict__ := od_set name v (__dict__ (this cls)) |};
     ancestors := ancestors cls |}.

Module BaseDocumentMeta.
Definition ignore_bases : list string :=
  ["object"; "BaseDocument"; "Document"; "EmbeddedDocument"].

(** [mro_ns_gen]: the namespaces of the classes of the reversed
    [__mro__] whose name is not ignored. *)
Definition mro_ns_gen (cls : new_class) : list (odict string member) :=
  __dict__ <$>
    filter (fun c => __name__ c ∉ ignore_bases) (reverse (__mro__ cls)).

(** One iteration of the inner loop of [_get_fields]. *)
Definition scan (st : odict string Field.t * odict nat (SynonymField * string))
    (entry : string * member)
    : odict string Field.t * odict nat (SynonymField * string) :=
  let '(fields, synonyms) := st in
  let '(name, item) := entry in
  match item with
  | MField item => (od_set name (Field.with_name name item) fields, synonyms)
  | MSynonym item => (fields, od_set (synonym_id item) (item, name) synonyms)
  | MOther _ => (fields, synonyms)
  end.

(** The dictionary comprehension that closes [_get_fields]. *)
Definition resolve_synonyms (synonyms : odict nat (SynonymField * string))
    : gmap string string :=
  foldl (fun m '(_, (item, name)) => <[origin_field_name item := name]> m)
        ∅ synonyms.

Definition _get_fields (cls : new_class)
    : odict string Field.t * gmap string string :=
  let '(fields, synonyms) :=
    foldl (fun st ns => foldl scan st ns) ([], []) (mro_ns_gen cls) in
  (fields, resolve_synonyms synonyms).

(** [str.startswith('__')]. *)
Definition startswith_dunder (key : string) : bool :=
  String.prefix "__" key.

Definition _get_meta_options (cls : new_class) : gmap string value :=
  match Meta_class (this cls) with
  | Some doc_meta =>
      foldl (fun m '(key, v) => <[key := v]> m) ∅
            (filter (fun kv => negb (startswith_dunder kv.1)) doc_meta)
  | None => ∅
  end.
End BaseDocumentMeta.

Module DocumentMeta.
Section with_externals.
Variable ext : externals.

Definition query_class : value := MotorQuerySet ext.

(** [ObjectIdField(name='_id', required=True, default=lambda: ObjectId())]. *)
Definition default_id_field : Field.t :=
  Field.mk (Some "_id") "_id" true (Factory ObjectId)
           (ObjectIdField_from_data ext)
           (ObjectIdField_to_son ext)
           (ObjectIdField_from_son ext).

(** [_get_fields] returns the schema and the synonyms, or raises, and
    sets [_id] on the class when it adds the default identifier: the
    result comes with the class as the call leaves it. *)
Definition _get_fields (cls : new_class)
    : (exn + (odict string Field.t * gmap string string)) * new_class :=
  let '(fields, synonyms) := BaseDocumentMeta._get_fields cls in
  match od_get "_id" fields with
  | None =>
      (* add _id field if needed *)
      (inr (od_set "_id" default_id_field fields, synonyms),
       setattr cls "_id" (MField default_id_field))
  | Some id_field =>
      if Field.required id_field then (inr (fields, synonyms), cls)
      else (inl (ValueError
                   ("'" +:+ __name__ (this cls) +:+ "._id' field should be required.")),
            cls)
  end.

Definition _get_meta_options (cls : new_class) : gmap string value :=
  let meta_options := BaseDocumentMeta._get_meta_options cls in
  let meta_options :=
    if decide (is_Some (meta_options !! "collection_name")) then meta_options
    else <["collection_name" := VStr (snake_case ext (__name__ (this cls)))]> meta_options in
  let meta_options :=
    if decide (is_Some (meta_options !! "query_class")) then meta_options
    else <["query_class" := query_class]> meta_options in
  meta_options.
End with_externals.
End DocumentMeta.

(** The metaclass method that is in force: [EmbeddedDocumentMeta] inherits
    both methods from [BaseDocumentMeta] unchanged.  [_get_fields] gives
    its result and the class as it leaves it. *)
Definition _get_fields (ext : externals) (mcls : metaclass) (cls : new_class)
    : (exn + (odict string Field.t * gmap string string)) * new_class :=
  match mcls with
  | DocumentMeta_ => DocumentMeta._get_fields ext cls
  | EmbeddedDocumentMeta_ => (inr (BaseDocumentMeta._get_fields cls), cls)
  end.

Definition _get_meta_options (ext : externals) (mcls : metaclass) (cls : new_class)
    : gmap string value :=
  match mcls with
  | DocumentMeta_ => DocumentMeta._get_meta_options ext cls
  | EmbeddedDocumentMeta_ => BaseDocumentMeta._get_meta_options cls
  end.

(** [BaseDocumentMeta.__new__], for the class [cls] that
    [super().__new__] has created: the [meta] attribute set on it ([None]
    for the two root classes, which get none), or the exception raised,
    and the class with what the metaclass has set on it besides, which is
    the class its subclasses inherit from. *)
Definition __new__ (ext : externals) (mcls : metaclass) (cls : new_class)
    : (exn + option Meta.t) * new_class :=
  if decide (__name__ (this cls) ∈ ["Document"; "EmbeddedDocument"])
  then (inr None, cls)
  else
    let options := _get_meta_options ext mcls cls in
    match _get_fields ext mcls cls with
    | (inl e, cls') => (inl e, cls')
    | (inr (fields, fields_synonyms), cls') =>
        match Meta.call options fields fields_synonyms with
        | inl e => (inl e, cls')
        | inr meta => (inr (Some meta), cls')
        end
    end.

(** ** BaseDocument *)

(** What [from_data] may be handed: a mapping with string keys, which
    [cls] can be called with as keyword arguments, or anything else, for
    which that call raises [TypeError]. *)
Inductive user_data : Type :=
| Mapping (kw : gmap string value)
| NotMapping (v : value).

Module BaseDocument.
(** An instance: its [_data].  The class it belongs to is given by the
    [meta] the methods take. *)
Record t : Type := mk { _data : odict string value }.

Definition _get_field_value_from_data (meta : Meta.t)
    (data : gmap string value) (field_name : string) : option value :=
  match data !! field_name with
  | Some v => Some v
  | None =>
      (* try synonym name *)
      match Meta.fields_synonyms meta !! field_name with
      | Some synonym => data !! synonym
      | None => None
      end
  end.

(** Modelled from the spec: [setattr(self, field_name, value)] reaches
    [Field.__set__], which is not part of the sources at hand.  It invokes
    the field's validate-and-normalise operation and, on success, stores
    the normalised value under the canonical name. *)
Definition __setattr__ (self : t) (field_name : string) (field : Field.t)
    (v : value) : ValidationError + t :=
  match Field.from_data field v with
  | inl e => inl e
  | inr v' => inr (mk (od_set field_name v' (_data self)))
  end.

(** The state of the loop of [__init__]: the generator, [self] and
    [errors]. *)
Definition init_state : Type := world * t * odict string ValidationError.

(** The [try]/[except KeyError] that opens the loop body of [__init__]:
    the value found in the data or else the field's default, [None]
    being the sentinel [_Empty]. *)
Definition value_or_default (meta : Meta.t) (kwargs : gmap string value)
    (field_name : string) (field : Field.t) (w : world) : option value * world :=
  match _get_field_value_from_data meta kwargs field_name with
  | Some v => (Some v, w)
  | None => Field.default field w
  end.

(** One iteration of the loop of [__init__]. *)
Definition init_step (meta : Meta.t) (kwargs : gmap string value)
    (st : init_state) (entry : string * Field.t) : init_state :=
  let '(w, self, errors) := st in
  let '(field_name, field) := entry in
  let '(v, w) := value_or_default meta kwargs field_name field w in
  match v with
  | None =>
      if Field.required field
      then (w, self, od_set field_name (VError "field is required") errors)
      else (w, self, errors)
  | Some v =>
      match __setattr__ self field_name field v with
      | inr self' => (w, self', errors)
      | inl e => (w, self, od_set field_name e errors)
      end
  end.

Definition __init__ (meta : Meta.t) (_empty : bool)
    (kwargs : gmap string value) (w : world) : (exn + t) * world :=
  let self := mk [] in
  if _empty then (inr self, w)
  else
    let '(w', self, errors) :=
      foldl (init_step meta kwargs) (w, self, []) (Meta.fields meta) in
    match errors with
    | [] => (inr self, w')
    | _ :: _ => (inl (ValidationErr (VErrors errors)), w')
    end.

(** [_set_son]: [data[field.mongo_name]] raising [KeyError] leaves the
    field out. *)
Definition _set_son (meta : Meta.t) (self : t) (data : odict string value) : t :=
  mk (foldl (fun _data '(field_name, field) =>
               match od_get (Field.mongo_name field) data with
               | Some wire => od_set field_name (Field.from_son field wire) _data
               | None => _data
               end)
            [] (Meta.fields meta)).

Definition to_son (meta : Meta.t) (self : t) : odict string value :=
  foldl (fun son '(field_name, field) =>
           match od_get field_name (_data self) with
           | Some v => od_set (Field.mongo_name field) (Field.to_son field v) son
           | None => son
           end)
        [] (Meta.fields meta).

Definition from_son (meta : Meta.t) (data : odict string value) (w : world)
    : (exn + t) * world :=
  match __init__ meta true ∅ w with
  | (inr inst, w') => (inr (_set_son meta inst data), w')
  | (inl e, w') => (inl e, w')
  end.

(** Calling the class with the entries of [data] as keyword arguments.
    What is no mapping cannot be unpacked; an entry named [self] collides
    with the first parameter of [__init__]; both raise [TypeError].
    Otherwise the keyword-only parameter [_empty] takes the entry of that
    name and the other entries make up [kwargs]. *)
Definition call (meta : Meta.t) (data : user_data) (w : world)
    : (exn + t) * world :=
  match data with
  | NotMapping _ => (inl (TypeError "argument after ** must be a mapping"), w)
  | Mapping kw =>
      if decide ("self" ∈ dom kw)
      then (inl (TypeError "__init__() got multiple values for argument 'self'"), w)
      else __init__ meta (truthy (default (VBool false) (kw !! "_empty")))
                    (delete "_empty" kw) w
  end.

Definition from_data (cls__name__ : string) (meta : Meta.t)
    (data : user_data) (w : world) : (exn + t) * world :=
  match call meta data w with
  | (inl (TypeError _), w') =>
      (inl (ValidationErr
              (VError ("value can't be converted to " +:+ cls__name__))), w')
  | r => r
  end.

(** Reading a field of an instance. *)
Definition get (self : t) (field_name : string) : option value :=
  od_get field_name (_data self).
End BaseDocument.

(** ** Document *)

(** What [Document.save] may raise besides the exceptions of [exn]:
    [data['_id']] on a record without that key. *)
Inductive failure : Type :=
| Raised (e : exn)
| KeyError (key : string).

(** A request made to the query set of the class.  The query set
    ([aiomongodel.queryset]) and the database behind it are collaborators
    of the module: the model records the request made and takes it to
    complete. *)
Inductive request : Type :=
| insert_one (document : odict string value)
| replace_one (query replacement : odict string value) (upsert : bool).

Module Document.
Definition save (meta : Meta.t) (self : BaseDocument.t) (do_insert : bool)
    : failure + (request * BaseDocument.t) :=
  let data := BaseDocument.to_son meta self in
  if do_insert then inr (insert_one data, self)
  else
    match od_get "_id" data with
    | Some id => inr (replace_one [("_id", id)] data true, self)
    | None => inl (KeyError "_id")
    end.

(** [create], with [kwargs] as the interpreter bound it. *)
Definition create (cls__name__ : string) (meta : Meta.t)
    (kwargs : gmap string value) (w : world)
    : (failure + (request * BaseDocument.t)) * world :=
  match BaseDocument.from_data cls__name__ meta (Mapping kwargs) w with
  | (inl e, w') => (inl (Raised e), w')
  | (inr inst, w') => (save meta inst true, w')
  end.
End Document.

(** ** A sample of the field library and of the externals, for examples *)

Module Sample.
Definition any_ok (v : value) : ValidationError + value := inr v.

Definition int_only (v : value) : ValidationError + value :=
  match v with
  | VInt _ => inr v
  | _ => inl (VError "value is not int")
  end.

Definition str_only (v : value) : ValidationError + value :=
  match v with
  | VStr _ => inr v
  | _ => inl (VError "value is not str")
  end.

Definition IntField (required : bool) (dflt : default_spec) (mongo_name : string)
    : Field.t :=
  Field.mk None mongo_name required dflt int_only id id.

Definition StrField (required : bool) (dflt : default_spec) (mongo_name : string)
    : Field.t :=
  Field.mk None mongo_name required dflt str_only id id.

(** A stand-in for [snake_case], enough for the sample class names: an
    underscore goes before every capital but the first, and capitals are
    lowered. *)
Fixpoint snake_case_from (first : bool) (s : string) : string :=
  match s with
  | EmptyString => EmptyString
  | String c rest =>
      let n := Ascii.nat_of_ascii c in
      if (65 <=? n) && (n <=? 90)
      then (if first then "" else "_")
           +:+ String (Ascii.ascii_of_nat (n + 32)) (snake_case_from false rest)
      else String c (snake_case_from false rest)
  end.

Definition ext : externals :=
  {| snake_case := snake_case_from true;
     MotorQuerySet := VRef "MotorQuerySet";
     ObjectIdField_from_data := any_ok;
     ObjectIdField_to_son := id;
     ObjectIdField_from_son := id |}.

(** [class User(Document): name = StrField(); age = IntField(required=False, default=0)] *)
Definition User : new_class :=
  {| this := {| __name__ := "User"; Meta_class := None;
                __dict__ := [("name", MField (StrField true NoDefault "name"));
                             ("age", MField (IntField false (Static (VInt 0)) "age"))] |};
     ancestors := [ {| __name__ := "Document"; Meta_class := None; __dict__ := [] |};
                    {| __name__ := "BaseDocument"; Meta_class := None; __dict__ := [] |};
                    {| __name__ := "object"; Meta_class := None; __dict__ := [] |} ] |}.

Definition User_meta : Meta.t :=
  match (__new__ ext DocumentMeta_ User).1 with
  | inr (Some meta) => meta
  | _ => Meta.mk VNone VNone VNone VNone [] ∅ VNone VNone VNone VNone VNone VNone
  end.
End Sample.

(** * Vocabulary of the properties *)

(** ** Schemas *)

Definition field_names (meta : Meta.t) : list string := od_keys (Meta.fields meta).

Definition wire_names (meta : Meta.t) : list string :=
  (fun e : string * Field.t => Field.mongo_name e.2) <$> Meta.fields meta.

(** What the trusted load path reads of a schema: the names, the wire
    names and the from-wire conversions, and neither the [required] flags,
    nor the defaults, nor the validators. *)
Definition wire_view (meta : Meta.t) : list (string * string * (value -> value)) :=
  (fun e : string * Field.t => (e.1, Field.mongo_name e.2, Field.from_son e.2))
    <$> Meta.fields meta.

(** The effect of one class-body entry on the fields alone. *)
Definition scan_field (fields : odict string Field.t) (entry : string * member)
    : odict string Field.t :=
  match entry.2 with
  | MField item => od_set entry.1 (Field.with_name entry.1 item) fields
  | _ => fields
  end.

(** The error [DocumentMeta._get_fields] raises for an [_id] field that is
    not required. *)
Definition id_not_required (cls : new_class) : exn :=
  ValueError ("'" +:+ __name__ (this cls) +:+ "._id' field should be required.").

(** No [_id] of the hierarchy is declared by the user: every field named
    [_id] that a class of the hierarchy holds is the default identifier,
    which the metaclass sets on the class it adds it to. *)
Definition injected_only (ext : externals) (cls : new_class) : Prop :=
  forall c item,
    c ∈ __mro__ cls -> ("_id", MField item) ∈ __dict__ c ->
    item = DocumentMeta.default_id_field ext.

(** ** Validated construction *)

(** The input holds a value for the field, under its canonical name or
    under its registered synonym. *)
Definition in_input (meta : Meta.t) (kwargs : gmap string value)
    (field_name : string) : bool :=
  bool_decide (is_Some (kwargs !! field_name))
  || match Meta.fields_synonyms meta !! field_name with
     | Some synonym => bool_decide (is_Some (kwargs !! synonym))
     | None => false
     end.

Definition has_default (field : Field.t) : bool :=
  match Field._default field with
  | NoDefault => false
  | Static _ | Factory _ => true
  end.

(** A required field that has no value: not in the input under either
    name, and no default. *)
Definition omitted_required (meta : Meta.t) (kwargs : gmap string value)
    (entry : string * Field.t) : bool :=
  Field.required entry.2 && negb (in_input meta kwargs entry.1)
  && negb (has_default entry.2).

(** Every value resolved for a field of [fs], from the input or from the
    field's default, passes the field's validation. *)
Definition values_validate (meta : Meta.t) (kwargs : gmap string value)
    (fs : odict string Field.t) : Prop :=
  forall field_name field w v,
    (field_name, field) ∈ fs ->
    (BaseDocument.value_or_default meta kwargs field_name field w).1 = Some v ->
    is_Some (match Field.from_data field v with inr v' => Some v' | inl _ => None end).

Definition required_error (entry : string * Field.t) : string * ValidationError :=
  (entry.1, VError "field is required").

(** The required fields the input leaves without value, in schema
    order. *)
Definition omitted_required_fields (meta : Meta.t) (kwargs : gmap string value)
    : list (string * Field.t) :=
  filter (fun e => omitted_required meta kwargs e) (Meta.fields meta).

(** The outcome of a construction reports exactly the fields of [missing]:
    it is an instance if there is none, and otherwise the aggregated error
    with one entry ['field is required'] for each of them, in order, and
    no other entry. *)
Definition reports_exactly (missing : list (string * Field.t))
    (r : exn + BaseDocument.t) : Prop :=
  match r with
  | inl (ValidationErr (VErrors errors)) =>
      missing <> [] /\ errors = required_error <$> missing
  | inl _ => False
  | inr _ => missing = []
  end.

(** The keyword arguments [__init__] is left with when the class is called
    with the entries of [data]: the entry [_empty] goes to the parameter of
    that name. *)
Definition bound_kwargs (data : gmap string value) : gmap string value :=
  delete "_empty" data.

(** The values the input supplies for fields, under canonical or synonym
    names, pass validation. *)
Definition supplied_values_validate (meta : Meta.t) (data : gmap string value) : Prop :=
  forall field_name field v,
    (field_name, field) ∈ Meta.fields meta ->
    BaseDocument._get_field_value_from_data meta data field_name = Some v ->
    is_Some (match Field.from_data field v with inr v' => Some v' | inl _ => None end).

(** The claim of C1 as it is written, for [from_data]: when the supplied
    values validate and some required field has no value, construction
    from the data fails with an aggregated error whose keys are the
    omitted required fields. *)
Definition omitted_required_fields_are_reported (cls__name__ : string) (meta : Meta.t)
    (data : gmap string value) (w : world) : Prop :=
  supplied_values_validate meta data ->
  omitted_required_fields meta data <> [] ->
  exists errors,
    (BaseDocument.from_data cls__name__ meta (Mapping data) w).1
    = inl (ValidationErr (VErrors errors))
    /\ od_keys errors = od_keys (omitted_required_fields meta data).

(** The value the spec resolves for a field, by precedence: the entry of
    the input under the canonical name; if absent, the entry under the
    registered synonym; if still absent, the field's default ([None] when
    it has none). *)
Inductive resolves (meta : Meta.t) (kwargs : gmap string value)
    (field_name : string) (field : Field.t) : option value -> Prop :=
| resolves_canonical v :
    kwargs !! field_name = Some v ->
    resolves meta kwargs field_name field (Some v)
| resolves_synonym synonym v :
    kwargs !! field_name = None ->
    Meta.fields_synonyms meta !! field_name = Some synonym ->
    kwargs !! synonym = Some v ->
    resolves meta kwargs field_name field (Some v)
| resolves_default w0 :
    kwargs !! field_name = None ->
    (forall synonym, Meta.fields_synonyms meta !! field_name = Some synonym ->
                     kwargs !! synonym = None) ->
    resolves meta kwargs field_name field (Field.default field w0).1.

(** The instance holds, for the field, the normalised form of [v]. *)
Definition stores (inst : BaseDocument.t) (field_name : string) (field : Field.t)
    (v : value) : Prop :=
  exists v', Field.from_data field v = inr v' /\ BaseDocument.get inst field_name = Some v'.

(** A key of the input that validated construction may read: the canonical
    name of a schema field or the synonym registered for one. *)
Definition known_key (meta : Meta.t) (k : string) : Prop :=
  k ∈ field_names meta
  \/ Exists (fun n => Meta.fields_synonyms meta !! n = Some k) (field_names meta).

#[global] Instance known_key_dec meta k : Decision (known_key meta k).
Proof. unfold known_key. apply _. Defined.

(** The input without the keys the schema does not know. *)
Definition known_only (meta : Meta.t) (kwargs : gmap string value) : gmap string value :=
  filter (fun kv : string * value => known_key meta kv.1) kwargs.

(** [r] is a returned instance rather than a raised exception. *)
Definition succeeds {A} (r : (exn + A) * world) : Prop :=
  match r.1 with inr _ => True | inl _ => False end.

(** The claim of C10 as it is written, for [from_data]: the keys the schema
    does not know cause no error (construction succeeds whenever it
    succeeds without them) and leave no entry in the instance. *)
Definition unknown_keys_are_ignored (cls__name__ : string) (meta : Meta.t)
    (kwargs : gmap string value) (w : world) : Prop :=
  (succeeds (BaseDocument.from_data cls__name__ meta (Mapping (known_only meta kwargs)) w) ->
   succeeds (BaseDocument.from_data cls__name__ meta (Mapping kwargs) w))
  /\ forall inst w',
       BaseDocument.from_data cls__name__ meta (Mapping kwargs) w = (inr inst, w') ->
       forall k, ~ known_key meta k -> BaseDocument.get inst k = None.

(** ** The wire codec *)

(** What [to_son] emits for one schema entry, if anything. *)
Definition emit (self : BaseDocument.t) (entry : string * Field.t)
    : option (string * value) :=
  match od_get entry.1 (BaseDocument._data self) with
  | Some v => Some (Field.mongo_name entry.2, Field.to_son entry.2 v)
  | None => None
  end.

(** What [_set_son] stores for one schema entry, if anything. *)
Definition load (data : odict string value) (entry : string * Field.t)
    : option (string * value) :=
  match od_get (Field.mongo_name entry.2) data with
  | Some wire => Some (entry.1, Field.from_son entry.2 wire)
  | None => None
  end.

(** The claim of C7 as it is written: the record holds one entry for each
    schema field present in the instance, in schema order, under the
    field's wire name and with the wire-converted value, and the wire name
    of a field without value is not a key of the record. *)
Definition to_son_emits_exactly_set_fields (meta : Meta.t) (self : BaseDocument.t) : Prop :=
  BaseDocument.to_son meta self = omap (emit self) (Meta.fields meta)
  /\ forall n f, (n, f) ∈ Meta.fields meta ->
       BaseDocument.get self n = None ->
       od_get (Field.mongo_name f) (BaseDocument.to_son meta self) = None.

(** The claim of C2 as it is written: every instance built by validated
    construction whose fields' wire conversions are exact on the values it
    holds is given back by loading its wire record. *)
Definition round_trip_law (meta : Meta.t) : Prop :=
  forall kwargs w inst w',
    BaseDocument.__init__ meta false kwargs w = (inr inst, w') ->
    (forall n f v, (n, f) ∈ Meta.fields meta ->
       BaseDocument.get inst n = Some v ->
       Field.from_son f (Field.to_son f v) = v) ->
    forall w2,
      BaseDocument.from_son meta (BaseDocument.to_son meta inst) w2 = (inr inst, w2).

(** ** Options *)

(** The message [msg] contains the key [k]. *)
Definition names_key (msg k : string) : Prop :=
  exists before after, msg = before +:+ k +:+ after.

(** The options of a class apart from its schema. *)
Definition options_of (m : Meta.t) : list value :=
  [Meta.query_class m; Meta.collection_name m; Meta.default_query m;
   Meta.default_sort m; Meta.indexes m; Meta.codec_options m;
   Meta.read_preference m; Meta.read_concern m; Meta.write_concern m].

(** The default the metaclass computes for the collection name and for the
    query class: only [DocumentMeta] has one. *)
Definition default_collection_name (ext : externals) (mcls : metaclass)
    (cls : new_class) : value :=
  match mcls with
  | DocumentMeta_ => VStr (snake_case ext (__name__ (this cls)))
  | EmbeddedDocumentMeta_ => VNone
  end.

Definition default_query_class (ext : externals) (mcls : metaclass) : value :=
  match mcls with
  | DocumentMeta_ => MotorQuerySet ext
  | EmbeddedDocumentMeta_ => VNone
  end.

(** The claim of C9 on the collection name as it is written: a class that
    declares none gets the snake case of its name. *)
Definition collection_name_defaults_to_snake_case (ext : externals)
    (mcls : metaclass) (cls : new_class) : Prop :=
  forall m,
    (__new__ ext mcls cls).1 = inr (Some m) ->
    BaseDocumentMeta._get_meta_options cls !! "collection_name" = None ->
    Meta.collection_name m = VStr (snake_case ext (__name__ (this cls))).

(** * Sample classes and inputs *)

(** [class Reading(EmbeddedDocument): value = IntField(); val = SynonymField(value)] *)
Definition Reading : new_class :=
  {| this := {| __name__ := "Reading"; Meta_class := None;
                __dict__ := [("value", MField (Sample.IntField true NoDefault "value"));
                             ("val", MSynonym {| synonym_id := 0;
                                                 origin_field_name := "value" |})] |};
     ancestors := [] |}.

Definition Reading_meta : Meta.t :=
  match (__new__ Sample.ext EmbeddedDocumentMeta_ Reading).1 with
  | inr (Some meta) => meta
  | _ => Meta.mk VNone VNone VNone VNone [] ∅ VNone VNone VNone VNone VNone VNone
  end.

Definition Reading_kwargs : gmap string value := {[ "val" := VInt 5 ]}.

(** [class Pair(EmbeddedDocument): a = StrField(); b = StrField();
    c = IntField(required=False)] *)
Definition Pair : new_class :=
  {| this := {| __name__ := "Pair"; Meta_class := None;
                __dict__ := [("a", MField (Sample.StrField true NoDefault "a"));
                             ("b", MField (Sample.StrField true NoDefault "b"));
                             ("c", MField (Sample.IntField false NoDefault "c"))] |};
     ancestors := [] |}.

Definition Pair_meta : Meta.t :=
  match (__new__ Sample.ext EmbeddedDocumentMeta_ Pair).1 with
  | inr (Some meta) => meta
  | _ => Meta.mk VNone VNone VNone VNone [] ∅ VNone VNone VNone VNone VNone VNone
  end.

Definition Pair_kwargs : gmap string value := {[ "c" := VInt 1 ]}.

Definition Ann_kwargs : gmap string value := {[ "name" := VStr "Ann" ]}.

Definition Ann : BaseDocument.t :=
  BaseDocument.mk [("name", VStr "Ann"); ("age", VInt 0); ("_id", VObjectId 7)].

Definition Ann_record : odict string value :=
  [("junk", VInt 3); ("name", VStr "Ann"); ("_id", VObjectId 7)].

Definition Extra_kwargs : gmap string value :=
  {[ "name" := VStr "Ann"; "nickname" := VStr "A" ]}.

Definition Self_kwargs : gmap string value :=
  {[ "name" := VStr "Ann"; "self" := VInt 1 ]}.

(** [class Clash(EmbeddedDocument): a = IntField(required=False, mongo_name='x');
    b = IntField(required=False, mongo_name='x')] *)
Definition Clash : new_class :=
  {| this := {| __name__ := "Clash"; Meta_class := None;
                __dict__ := [("a", MField (Sample.IntField false NoDefault "x"));
                             ("b", MField (Sample.IntField false NoDefault "x"))] |};
     ancestors := [] |}.

Definition Clash_meta : Meta.t :=
  match (__new__ Sample.ext EmbeddedDocumentMeta_ Clash).1 with
  | inr (Some meta) => meta
  | _ => Meta.mk VNone VNone VNone VNone [] ∅ VNone VNone VNone VNone VNone VNone
  end.

Definition Clash_kwargs : gmap string value := {[ "a" := VInt 1; "b" := VInt 2 ]}.

Definition Clash_inst : BaseDocument.t :=
  BaseDocument.mk [("a", VInt 1); ("b", VInt 2)].

(** [class Base(Document): x = IntField(default=1); y = StrField()], as
    [super().__new__] creates it ([Base]) and as the metaclass leaves it,
    with the default identifier set on it ([Base_defined]), and
    [class Derived(Base): z = StrField(); x = IntField(default=2)], whose
    ancestors are the classes as they have been defined. *)
Definition Base_x : Field.t := Sample.IntField true (Static (VInt 1)) "x".
Definition Derived_x : Field.t := Sample.IntField true (Static (VInt 2)) "x".

Definition Base : new_class :=
  {| this := {| __name__ := "Base"; Meta_class := None;
                __dict__ := [("x", MField Base_x);
                             ("y", MField (Sample.StrField true NoDefault "y"))] |};
     ancestors := [ {| __name__ := "Document"; Meta_class := None; __dict__ := [] |};
                    {| __name__ := "BaseDocument"; Meta_class := None; __dict__ := [] |};
                    {| __name__ := "object"; Meta_class := None; __dict__ := [] |} ] |}.

Definition Base_defined : new_class := (__new__ Sample.ext DocumentMeta_ Base).2.

Definition Derived : new_class :=
  {| this := {| __name__ := "Derived"; Meta_class := None;
                __dict__ := [("z", MField (Sample.StrField true NoDefault "z"));
                             ("x", MField Derived_x)] |};
     ancestors := __mro__ Base_defined |}.

(** [class Loose(Document): _id = StrField(required=False)] *)
Definition Loose_id : Field.t := Sample.StrField false NoDefault "_id".

Definition Loose : new_class :=
  {| this := {| __name__ := "Loose"; Meta_class := None;
                __dict__ := [("_id", MField Loose_id)] |};
     ancestors := ancestors Sample.User |}.

(** [class Misconfigured(Document): class Meta: collection_name = 'c'; colour = 1;
    shape = 2] *)
Definition Misconfigured : new_class :=
  {| this := {| __name__ := "Misconfigured";
                Meta_class := Some [("__module__", VStr "app");
                                    ("collection_name", VStr "c");
                                    ("colour", VInt 1); ("shape", VInt 2)];
                __dict__ := [] |};
     ancestors := ancestors Sample.User |}.

Definition Misconfigured_block : gmap string value :=
  BaseDocumentMeta._get_meta_options Misconfigured.

(** * Further samples *)

(** A user class that happens to bear the name of a library base:
    [class BaseDocument(Base): x = IntField(default=2); t = StrField()] *)
Definition Shadow : new_class :=
  {| this := {| __name__ := "BaseDocument"; Meta_class := None;
                __dict__ := [("x", MField Derived_x);
                             ("t", MField (Sample.StrField true NoDefault "t"))] |};
     ancestors := __mro__ Base_defined |}.

(** [class Reading2(Reading): v = SynonymField(value)] *)
Definition Reading2 : new_class :=
  {| this := {| __name__ := "Reading2"; Meta_class := None;
                __dict__ := [("v", MSynonym {| synonym_id := 1;
                                               origin_field_name := "value" |})] |};
     ancestors := __mro__ Reading |}.

(** * Vocabulary of the further properties *)

(** The class-body entries [_get_fields] walks, in the order it walks
    them, and those it walks before the body of the class itself. *)
Definition walked (cls : new_class) : list (string * member) :=
  concat (BaseDocumentMeta.mro_ns_gen cls).

Definition inherited (cls : new_class) : list (string * member) :=
  concat (__dict__ <$>
            filter (fun c => __name__ c ∉ BaseDocumentMeta.ignore_bases)
                   (reverse (ancestors cls))).

(** The effect of one class-body entry on the synonyms alone. *)
Definition scan_synonym (synonyms : odict nat (SynonymField * string))
    (entry : string * member) : odict nat (SynonymField * string) :=
  match entry.2 with
  | MSynonym item => od_set (synonym_id item) (item, entry.1) synonyms
  | _ => synonyms
  end.

(** Synonym objects are told apart by their identity: two walked entries
    with the same identity are the same object. *)
Definition synonyms_identified (cls : new_class) : Prop :=
  forall n n' i i',
    (n, MSynonym i) ∈ walked cls -> (n', MSynonym i') ∈ walked cls ->
    synonym_id i = synonym_id i' -> i = i'.

(** What one iteration of the loop of [__init__] records in [errors] for a
    field, the generator being in state [w0]: the error of the field's
    validation, ['field is required'] for a required field without value,
    or nothing. *)
Definition verdict (meta : Meta.t) (kwargs : gmap string value)
    (field_name : string) (field : Field.t) (w0 : world) : option ValidationError :=
  match (BaseDocument.value_or_default meta kwargs field_name field w0).1 with
  | Some v =>
      match Field.from_data field v with
      | inl e => Some e
      | inr _ => None
      end
  | None =>
      if Field.required field then Some (VError "field is required") else None
  end.

(** The default of the field is a factory. *)
Definition has_factory (field : Field.t) : bool :=
  match Field._default field with
  | Factory _ => true
  | NoDefault | Static _ => false
  end.

(** [class Strict(EmbeddedDocument): a = IntField(); b = StrField();
    c = IntField(required=False)] and an input that breaks two of its
    fields. *)
Definition Strict : new_class :=
  {| this := {| __name__ := "Strict"; Meta_class := None;
                __dict__ := [("a", MField (Sample.IntField true NoDefault "a"));
                             ("b", MField (Sample.StrField true NoDefault "b"));
                             ("c", MField (Sample.IntField false NoDefault "c"))] |};
     ancestors := [] |}.

Definition Strict_meta : Meta.t :=
  match (__new__ Sample.ext EmbeddedDocumentMeta_ Strict).1 with
  | inr (Some meta) => meta
  | _ => Meta.mk VNone VNone VNone VNone [] ∅ VNone VNone VNone VNone VNone VNone
  end.

Definition Strict_kwargs : gmap string value :=
  {[ "a" := VStr "one"; "c" := VInt 3 ]}.

Definition Ann_with_id_kwargs : gmap string value :=
  {[ "name" := VStr "Ann"; "_id" := VObjectId 3 ]}.

(** What [to_son] finds of a wire record loaded by [_set_son]: for one
    schema entry, the record's own entry under the field's wire name. *)
Definition wire_entry (data : odict string value) (entry : string * Field.t)
    : option (string * value) :=
  pair (Field.mongo_name entry.2) <$> od_get (Field.mongo_name entry.2) data.

(** Data the class cannot be called with: what is no mapping, and a
    mapping with the key [self]. *)
Definition unbindable (data : user_data) : Prop :=
  match data with
  | NotMapping _ => True
  | Mapping kw => "self" ∈ dom kw
  end.

(** The error [from_data] raises for such data. *)
Definition cannot_convert (cls__name__ : string) : exn :=
  ValidationErr (VError ("value can't be converted to " +:+ cls__name__)).

(** The instance has a value for a field whose wire name is [k]. *)
Definition sets_wire_name (meta : Meta.t) (self : BaseDocument.t) (k : string) : Prop :=
  exists n f, (n, f) ∈ Meta.fields meta
              /\ is_Some (BaseDocument.get self n) /\ Field.mongo_name f = k.

Definition Empty_flag_kwargs : gmap string value := {[ "_empty" := VBool true ]}.

(** The instance [User.from_son] gives for a record without identifier. *)
Definition Anonymous : BaseDocument.t := BaseDocument.mk [("name", VStr "Ann")].

(** A wire record of [User] with its keys in schema order. *)
Definition Ann_wire : odict string value :=
  [("name", VStr "Ann"); ("_id", VObjectId 7)].

(** * Proof automation *)

(** Closes a decidable goal about concrete data by evaluation. *)
Ltac by_evaluation := apply (bool_decide_unpack _); vm_compute; exact I.

(** * Properties *)

(** ** Sanity checks of the embedding *)

Example od_set_replaces_in_place :
  od_set "a" 9 [("a", 1); ("b", 2)] = [("a", 9); ("b", 2)]
  /\ od_set "c" 9 [("a", 1); ("b", 2)] = [("a", 1); ("b", 2); ("c", 9)].
Proof. split; reflexivity. Qed.

Example User_schema :
  od_keys (Meta.fields Sample.User_meta) = ["name"; "age"; "_id"]
  /\ Meta.collection_name Sample.User_meta = VStr "user".
Proof. vm_compute. split; reflexivity. Qed.

Example User_round_trip :
  let '(r, w) := BaseDocument.__init__ Sample.User_meta false {[ "name" := VStr "Ann" ]} 7 in
  match r with
  | inr inst =>
      BaseDocument._data inst = [("name", VStr "Ann"); ("age", VInt 0); ("_id", VObjectId 7)]
      /\ w = 8
      /\ BaseDocument.to_son Sample.User_meta inst
         = [("name", VStr "Ann"); ("age", VInt 0); ("_id", VObjectId 7)]
      /\ BaseDocument.from_son Sample.User_meta
           (BaseDocument.to_son Sample.User_meta inst) w = (inr inst, w)
  | inl _ => False
  end.
Proof. vm_compute. repeat split; reflexivity. Qed.

(** Two constructions in a row draw two identifiers. *)
Example User_fresh_identifiers :
  let '(r1, w1) := BaseDocument.__init__ Sample.User_meta false {[ "name" := VStr "Ann" ]} 7 in
  let '(r2, w2) := BaseDocument.__init__ Sample.User_meta false {[ "name" := VStr "Bob" ]} w1 in
  match r1, r2 with
  | inr inst1, inr inst2 =>
      BaseDocument.get inst1 "_id" = Some (VObjectId 7)
      /\ BaseDocument.get inst2 "_id" = Some (VObjectId 8)
  | _, _ => False
  end.
Proof. vm_compute. split; reflexivity. Qed.

Example User_missing_name :
  fst (BaseDocument.__init__ Sample.User_meta false ∅ 0)
  = inl (ValidationErr (VErrors [("name", VError "field is required")])).
Proof. vm_compute. reflexivity. Qed.

(** ** Ordered dictionaries *)

Section OrderedDict_facts.
Context {K V : Type} `{EqDecision K}.
Implicit Types (k : K) (v : V) (d : odict K V).

Lemma od_get_None k d : od_get k d = None <-> k ∉ od_keys d.
Proof.
  induction d as [|[k' v'] d IH]; simpl.
  - split; [intros _; apply not_elem_of_nil | done].
  - rewrite not_elem_of_cons. destruct (decide (k = k')) as [->|Hne].
    + split; [done|]. intros [Hk _]. by destruct Hk.
    + rewrite IH. split; [by split|by intros [_ ?]].
Qed.

Lemma od_get_is_Some k d : is_Some (od_get k d) <-> k ∈ od_keys d.
Proof.
  rewrite <- not_eq_None_Some, od_get_None.
  destruct (decide (k ∈ od_keys d)); naive_solver.
Qed.

Lemma od_get_elem_of k v d : od_get k d = Some v -> (k, v) ∈ d.
Proof.
  induction d as [|[k' v'] d IH]; simpl; [done|].
  destruct (decide (k = k')) as [->|]; intros Hg.
  - injection Hg as ->. apply elem_of_cons; by left.
  - apply elem_of_cons; right; auto.
Qed.

Lemma od_get_NoDup k v d : NoDup (od_keys d) -> (k, v) ∈ d -> od_get k d = Some v.
Proof.
  induction d as [|[k' v'] d IH]; simpl.
  - intros _ Hin. by apply elem_of_nil in Hin.
  - rewrite NoDup_cons. intros [Hk' Hnd] Hin.
    apply elem_of_cons in Hin as [Heq|Hin].
    + injection Heq as -> ->. by rewrite decide_True.
    + rewrite decide_False; [auto|].
      intros ->. apply Hk'. unfold od_keys.
      apply list_elem_of_fmap. by exists (k', v).
Qed.

Lemma od_set_fresh k v d : k ∉ od_keys d -> od_set k v d = d ++ [(k, v)].
Proof.
  induction d as [|[k' v'] d IH]; simpl; [done|].
  rewrite not_elem_of_cons. intros [Hne Hnin].
  rewrite decide_False by done. by rewrite IH.
Qed.

(** Assigning to a key already there changes no key and moves none. *)
Lemma od_keys_set_present k v d : k ∈ od_keys d -> od_keys (od_set k v d) = od_keys d.
Proof.
  induction d as [|[k' v'] d IH]; simpl.
  - intros Hin. by apply elem_of_nil in Hin.
  - intros Hin. destruct (decide (k = k')) as [->|Hne]; simpl; [done|].
    f_equal. apply IH. apply elem_of_cons in Hin as [?|?]; [done|done].
Qed.

Lemma od_keys_set k v d :
  od_keys (od_set k v d)
  = if decide (k ∈ od_keys d) then od_keys d else od_keys d ++ [k].
Proof.
  destruct (decide (k ∈ od_keys d)) as [Hin|Hnin].
  - by apply od_keys_set_present.
  - rewrite od_set_fresh by done. unfold od_keys. by rewrite fmap_app.
Qed.

Lemma od_keys_set_prefix k v d : od_keys d `prefix_of` od_keys (od_set k v d).
Proof.
  rewrite od_keys_set. destruct (decide (k ∈ od_keys d)); [done|].
  by apply prefix_app_r.
Qed.

Lemma od_set_NoDup k v d : NoDup (od_keys d) -> NoDup (od_keys (od_set k v d)).
Proof.
  intros Hnd. rewrite od_keys_set. destruct (decide (k ∈ od_keys d)); [done|].
  apply NoDup_app. split_and!; [done| |apply NoDup_singleton].
  intros x Hx Hx'. apply list_elem_of_singleton in Hx' as ->. done.
Qed.

Lemma od_get_set k k' v d :
  od_get k (od_set k' v d) = if decide (k = k') then Some v else od_get k d.
Proof.
  induction d as [|[k0 v0] d IH]; simpl.
  - destruct (decide (k = k')); done.
  - destruct (decide (k' = k0)) as [->|Hne]; simpl.
    + destruct (decide (k = k0)); done.
    + rewrite IH. destruct (decide (k = k0)) as [->|]; [|done].
      by rewrite decide_False.
Qed.

Lemma od_index_set_present k k' v d :
  k ∈ od_keys d -> od_index k (od_set k' v d) = od_index k d.
Proof.
  induction d as [|[k0 v0] d IH]; simpl.
  - intros Hin. by apply elem_of_nil in Hin.
  - intros Hin. destruct (decide (k' = k0)) as [->|Hne]; simpl; [done|].
    destruct (decide (k = k0)); [done|].
    rewrite IH; [done|]. apply elem_of_cons in Hin as [?|?]; done.
Qed.

Lemma od_get_app k d1 d2 :
  od_get k (d1 ++ d2) = match od_get k d1 with Some v => Some v | None => od_get k d2 end.
Proof.
  induction d1 as [|[k0 v0] d1 IH]; simpl; [done|].
  destruct (decide (k = k0)); done.
Qed.
End OrderedDict_facts.

(** ** Validated construction *)

Section construct.
Variable meta : Meta.t.
Variable kwargs : gmap string value.

Lemma in_input_lookup field_name :
  in_input meta kwargs field_name
  = bool_decide (is_Some (BaseDocument._get_field_value_from_data meta kwargs field_name)).
Proof.
  unfold in_input, BaseDocument._get_field_value_from_data.
  destruct (kwargs !! field_name) as [v|] eqn:Hk; simpl.
  - done.
  - destruct (Meta.fields_synonyms meta !! field_name) as [syn|]; done.
Qed.

Lemma value_or_default_None field_name field w :
  (BaseDocument.value_or_default meta kwargs field_name field w).1 = None
  <-> in_input meta kwargs field_name = false /\ has_default field = false.
Proof.
  rewrite in_input_lookup.
  unfold BaseDocument.value_or_default, has_default, Field.default.
  destruct (BaseDocument._get_field_value_from_data meta kwargs field_name) as [v|]; simpl.
  - split; [done|]. intros [? _]; done.
  - destruct (Field._default field) as [|v|g]; simpl.
    + done.
    + split; [done|]. intros [_ ?]; done.
    + destruct (g w). simpl. split; [done|]. intros [_ ?]; done.
Qed.

(** The loop of [__init__] adds to [errors] exactly the omitted required
    fields of the part of the schema it walks, in schema order. *)
Lemma init_loop_errors fs : forall w self errors,
  values_validate meta kwargs fs ->
  NoDup (od_keys errors ++ od_keys fs) ->
  (foldl (BaseDocument.init_step meta kwargs) (w, self, errors) fs).2
  = errors ++ (required_error <$> filter (fun e => omitted_required meta kwargs e) fs).
Proof.
  induction fs as [|[n f] fs IH]; intros w self errors Hval Hnd; simpl.
  - by rewrite app_nil_r.
  - assert (Hval' : values_validate meta kwargs fs).
    { intros n' f' w' v' Hin. apply Hval. apply elem_of_cons. by right. }
    assert (Hfresh : n ∉ od_keys errors).
    { apply NoDup_app in Hnd as (_ & Hdisj & _). intros Hin.
      apply (Hdisj n Hin). simpl. apply elem_of_cons. by left. }
    assert (Hnd' : forall e, NoDup (od_keys (errors ++ [(n, e)]) ++ od_keys fs)).
    { intros e. unfold od_keys in *. rewrite fmap_app. simpl.
      rewrite <- app_assoc. simpl. done. }
    assert (Hnd'' : NoDup (od_keys errors ++ od_keys fs)).
    { unfold od_keys in *. simpl in Hnd.
      apply NoDup_app in Hnd as (H1 & H2 & H3). apply NoDup_cons in H3 as [H3 H4].
      apply NoDup_app. split_and!; [done| |done].
      intros x Hx Hx'. apply (H2 x Hx). apply elem_of_cons. by right. }
    rewrite filter_cons.
    pose proof (value_or_default_None n f w) as Hnone.
    pose proof (Hval n f w) as Hv.
    destruct (BaseDocument.value_or_default meta kwargs n f w) as [[v|] w1] eqn:Hres;
      simpl in *.
    + (* a value was resolved: it validates, nothing is recorded *)
      destruct (Hv v) as [v' Hv']; [apply elem_of_cons; by left|done|].
      unfold BaseDocument.__setattr__.
      destruct (Field.from_data f v) as [e|v'']; [done|].
      rewrite IH by done.
      rewrite decide_False; [done|].
      intros Hom. apply Is_true_true in Hom. unfold omitted_required in Hom.
      apply andb_true_iff in Hom as [Hom Hd]. apply andb_true_iff in Hom as [_ Hi].
      apply negb_true_iff in Hi, Hd.
      destruct Hnone as [_ Hn]. by specialize (Hn (conj Hi Hd)).
    + destruct Hnone as [Hnone _]. destruct (Hnone eq_refl) as [Hi Hd].
      assert (Hom : omitted_required meta kwargs (n, f) = Field.required f).
      { unfold omitted_required. simpl. rewrite Hi, Hd. simpl.
        by rewrite !andb_true_r. }
      destruct (Field.required f) eqn:Hreq; simpl.
      * rewrite decide_True by (apply Is_true_true; exact Hom).
        rewrite od_set_fresh by done. rewrite IH by done.
        rewrite fmap_cons. by rewrite <- app_assoc.
      * rewrite decide_False by (rewrite Hom; intros []). by rewrite IH.
Qed.
Lemma init_step_errors w self errors n f :
  (BaseDocument.init_step meta kwargs (w, self, errors) (n, f)).2
  = match verdict meta kwargs n f w with
    | Some e => od_set n e errors
    | None => errors
    end.
Proof.
  unfold BaseDocument.init_step, verdict, BaseDocument.__setattr__.
  destruct (BaseDocument.value_or_default meta kwargs n f w) as [[v|] w1]; simpl.
  - by destruct (Field.from_data f v).
  - by destruct (Field.required f).
Qed.

(** The loop of [__init__] appends to [errors] the verdict on every field
    it walks that has one, in schema order, and stops at none. *)
Lemma init_loop_report fs : forall w self errors,
  NoDup (od_keys errors ++ od_keys fs) ->
  exists report,
    (foldl (BaseDocument.init_step meta kwargs) (w, self, errors) fs).2 = errors ++ report
    /\ od_keys report `sublist_of` od_keys fs
    /\ forall n f, (n, f) ∈ fs -> exists w0, od_get n report = verdict meta kwargs n f w0.
Proof.
  induction fs as [|[n f] fs IH]; intros w self errors Hnd; cbn [foldl].
  - exists []. rewrite app_nil_r. split_and!; [done|done|].
    intros n f Hin. by apply elem_of_nil in Hin.
  - simpl in Hnd.
    assert (Hfresh : n ∉ od_keys errors).
    { apply NoDup_app in Hnd as (_ & Hdisj & _). intros Hin.
      apply (Hdisj n Hin). apply elem_of_cons. by left. }
    assert (Hn : (n ∉ od_keys fs) /\ NoDup (od_keys fs)).
    { apply NoDup_app in Hnd as (_ & _ & Hfs). simpl in Hfs.
      by apply NoDup_cons in Hfs. }
    destruct Hn as [Hn Hfs].
    assert (Hnd' : NoDup (od_keys errors ++ od_keys fs)).
    { simpl in Hnd. apply NoDup_app in Hnd as (H1 & H2 & H3).
      apply NoDup_app. split_and!; [done| |done].
      intros x Hx Hx'. apply (H2 x Hx). apply elem_of_cons. by right. }
    pose proof (init_step_errors w self errors n f) as Hstep.
    destruct (BaseDocument.init_step meta kwargs (w, self, errors) (n, f))
      as [[w1 self1] errors1]. simpl in Hstep. subst errors1.
    destruct (verdict meta kwargs n f w) as [e|] eqn:Hv.
    + rewrite od_set_fresh by done.
      destruct (IH w1 self1 (errors ++ [(n, e)])) as (report & Heq & Hsub & Hall).
      { unfold od_keys in *. rewrite fmap_app. simpl. by rewrite <- app_assoc. }
      exists ((n, e) :: report). split_and!.
      * rewrite Heq. by rewrite <- app_assoc.
      * simpl. by apply sublist_skip.
      * intros n' f' Hin. apply elem_of_cons in Hin as [[= -> ->]|Hin].
        -- exists w. simpl. by rewrite decide_True.
        -- destruct (Hall n' f' Hin) as [w0 Hw0]. exists w0. simpl.
           rewrite decide_False; [done|]. intros ->. apply Hn.
           apply list_elem_of_fmap. by exists (n, f').
    + destruct (IH w1 self1 errors Hnd') as (report & Heq & Hsub & Hall).
      exists report. split_and!; [done|by apply sublist_cons|].
      intros n' f' Hin. apply elem_of_cons in Hin as [[= -> ->]|Hin]; [|by apply Hall].
      exists w. rewrite Hv. apply od_get_None. intros Hin. apply Hn.
      by eapply elem_of_sublist.
Qed.
End construct.

(** C1, amended.  Validated construction walks the whole schema before it
    fails.  On the keyword arguments [__init__] is given, and through
    [from_data] for data without the key [self] and without a true
    [_empty] (which the call binds to the constructor's own parameters):
    provided every value resolved for a field (supplied in the input or
    produced by the field's default) passes validation, construction fails
    exactly when some required field has no value (absent from the input
    under its canonical and its synonym name, and without default), and
    the aggregated error it raises then has one entry ['field is required']
    for each such field and no other entry, in schema order.  Without that
    proviso every such field still has its entry: however many fields are
    missing or fail, none is left out. *)
Theorem construct_reports_all_omitted_required_fields (meta : Meta.t) (w : world) :
  NoDup (od_keys (Meta.fields meta)) ->
  (forall kwargs,
     values_validate meta kwargs (Meta.fields meta) ->
     reports_exactly (omitted_required_fields meta kwargs)
       (BaseDocument.__init__ meta false kwargs w).1)
  /\ (forall cls__name__ data,
        "self" ∉ dom data ->
        truthy (default (VBool false) (data !! "_empty")) = false ->
        values_validate meta (bound_kwargs data) (Meta.fields meta) ->
        reports_exactly (omitted_required_fields meta (bound_kwargs data))
          (BaseDocument.from_data cls__name__ meta (Mapping data) w).1)
  /\ (forall kwargs n f,
        (n, f) ∈ omitted_required_fields meta kwargs ->
        exists errors,
          (BaseDocument.__init__ meta false kwargs w).1
          = inl (ValidationErr (VErrors errors))
          /\ od_get n errors = Some (VError "field is required")).
Proof.
  intros Hnd.
  assert (Hinit : forall kwargs,
            values_validate meta kwargs (Meta.fields meta) ->
            reports_exactly (omitted_required_fields meta kwargs)
              (BaseDocument.__init__ meta false kwargs w).1).
  { intros kwargs Hval. unfold BaseDocument.__init__, omitted_required_fields.
    pose proof (init_loop_errors meta kwargs (Meta.fields meta) w (BaseDocument.mk []) []
                  Hval Hnd) as Hloop.
    destruct (foldl _ _ _) as [[w' self] errors]. simpl in Hloop. subst errors.
    destruct (filter _ _) as [|m ms]; simpl; [done|]. split; [done|done]. }
  split_and!.
  - exact Hinit.
  - intros cls__name__ data Hself Hflag Hval.
    specialize (Hinit (bound_kwargs data) Hval).
    unfold BaseDocument.from_data, BaseDocument.call.
    rewrite decide_False by done. rewrite Hflag. fold (bound_kwargs data).
    destruct (BaseDocument.__init__ meta false (bound_kwargs data) w) as [[e|inst] w'];
      [|done].
    by destruct e.
  - intros kwargs n f Hin. unfold omitted_required_fields in Hin.
    apply list_elem_of_filter in Hin as [Hom Hin].
    apply Is_true_true in Hom. unfold omitted_required in Hom. simpl in Hom.
    apply andb_true_iff in Hom as [Hom Hd]. apply andb_true_iff in Hom as [Hreq Hi].
    apply negb_true_iff in Hi, Hd.
    unfold BaseDocument.__init__.
    destruct (init_loop_report meta kwargs (Meta.fields meta) w (BaseDocument.mk []) [] Hnd)
      as (report & Heq & _ & Hall).
    destruct (foldl _ _ _) as [[w' self] errors]. simpl in Heq. subst errors.
    destruct (Hall n f Hin) as [w0 Hw0].
    assert (Hv : verdict meta kwargs n f w0 = Some (VError "field is required")).
    { unfold verdict.
      rewrite (proj2 (value_or_default_None meta kwargs n f w0) (conj Hi Hd)).
      by rewrite Hreq. }
    rewrite Hv in Hw0. destruct report as [|r report]; [done|].
    by exists (r :: report).
Qed.

(** ** Loops that only assign fresh keys *)

Section fresh_folds.
Context {A V : Type}.
Variable step : odict string V -> A -> odict string V.
Variable h : A -> option (string * V).
Hypothesis step_spec : forall acc x,
  step acc x = match h x with Some (k, v) => od_set k v acc | None => acc end.

(** A loop whose iterations assign pairwise distinct keys, none of them
    in the dictionary yet, appends its assignments in order. *)
Lemma foldl_od_set_fresh l : forall acc,
  NoDup (od_keys acc ++ (omap h l).*1) ->
  foldl step acc l = acc ++ omap h l.
Proof.
  induction l as [|x l IH]; intros acc Hnd; simpl.
  - by rewrite app_nil_r.
  - rewrite step_spec. simpl in Hnd. destruct (h x) as [[k v]|] eqn:Hx.
    + simpl in Hnd.
      assert (Hk : k ∉ od_keys acc).
      { apply NoDup_app in Hnd as (_ & Hdisj & _). intros Hin.
        apply (Hdisj k Hin). apply elem_of_cons. by left. }
      rewrite od_set_fresh by done. rewrite IH.
      * by rewrite <- app_assoc.
      * unfold od_keys in *. rewrite fmap_app. simpl. by rewrite <- app_assoc.
    + by apply IH.
Qed.
End fresh_folds.

Lemma omap_keys_sublist {A V} (h : A -> option (string * V)) (key : A -> string) l :
  (forall x k v, h x = Some (k, v) -> k = key x) ->
  (omap h l).*1 `sublist_of` (key <$> l).
Proof.
  intros Hkey. induction l as [|x l IH]; simpl; [done|].
  destruct (h x) as [[k v]|] eqn:Hx; simpl.
  - rewrite (Hkey _ _ _ Hx). by apply sublist_skip.
  - by apply sublist_cons.
Qed.

Lemma od_get_omap {A V} (h : A -> option (string * V)) (key : A -> string) l x :
  (forall y k v, h y = Some (k, v) -> k = key y) ->
  NoDup (key <$> l) -> x ∈ l ->
  od_get (key x) (omap h l) = snd <$> h x.
Proof.
  intros Hkey. induction l as [|y l IH]; intros Hnd Hin.
  - by apply elem_of_nil in Hin.
  - simpl in Hnd. apply NoDup_cons in Hnd as [Hy Hnd].
    apply elem_of_cons in Hin as [->|Hin]; simpl.
    + destruct (h y) as [[k v]|] eqn:Hh; simpl.
      * rewrite (Hkey _ _ _ Hh). by rewrite decide_True.
      * apply od_get_None. intros Hin. apply Hy.
        eapply elem_of_sublist; [exact Hin|].
        by apply omap_keys_sublist.
    + destruct (h y) as [[k v]|] eqn:Hh; simpl; [|by apply IH].
      rewrite (Hkey _ _ _ Hh). rewrite decide_False; [by apply IH|].
      intros Heq. apply Hy. rewrite <- Heq. apply list_elem_of_fmap. by exists x.
Qed.

(** ** The wire codec *)

Section codec.
Variable meta : Meta.t.

Lemma to_son_emits (self : BaseDocument.t) :
  NoDup (wire_names meta) ->
  BaseDocument.to_son meta self = omap (emit self) (Meta.fields meta).
Proof.
  intros Hnd. unfold BaseDocument.to_son.
  rewrite (foldl_od_set_fresh _ (emit self)); [done| |].
  - intros acc [n f]. unfold emit. simpl. by destruct (od_get n _).
  - simpl. apply (sublist_NoDup _ (wire_names meta)); [exact Hnd|].
    apply omap_keys_sublist. intros [n f] k v. unfold emit. simpl.
    destruct (od_get n _); [|done]. by intros [= <- _].
Qed.

Lemma set_son_loads (self : BaseDocument.t) (data : odict string value) :
  NoDup (field_names meta) ->
  BaseDocument._data (BaseDocument._set_son meta self data)
  = omap (load data) (Meta.fields meta).
Proof.
  intros Hnd. unfold BaseDocument._set_son. simpl.
  rewrite (foldl_od_set_fresh _ (load data)); [done| |].
  - intros acc [n f]. unfold load. simpl. by destruct (od_get _ data).
  - simpl. apply (sublist_NoDup _ (field_names meta)); [exact Hnd|].
    apply (omap_keys_sublist _ fst). intros [n f] k v. unfold load. simpl.
    destruct (od_get _ data); [|done]. by intros [= <- _].
Qed.
End codec.

Lemma omap_ext_elem_of {A B} (h1 h2 : A -> option B) (l : list A) :
  (forall x, x ∈ l -> h1 x = h2 x) -> omap h1 l = omap h2 l.
Proof.
  induction l as [|x l IH]; intros Hext; csimpl; [done|].
  rewrite (Hext x) by (apply elem_of_cons; by left).
  rewrite IH; [done|]. intros y Hy. apply Hext. apply elem_of_cons. by right.
Qed.

(** Reading a dictionary back key by key along a list of keys that holds
    its own keys in the same order gives the dictionary itself. *)
Lemma od_restrict_sublist {F V} (fs : odict string F) : forall (d : odict string V),
  NoDup (od_keys fs) ->
  od_keys d `sublist_of` od_keys fs ->
  omap (fun e : string * F => pair e.1 <$> od_get e.1 d) fs = d.
Proof.
  induction fs as [|[n f] fs IH]; intros d Hnd Hsub.
  - apply sublist_nil_r in Hsub. by destruct d.
  - simpl in Hnd, Hsub. apply NoDup_cons in Hnd as [Hn Hnd].
    apply sublist_cons_r in Hsub as [Hsub|(l' & Hd & Hsub)]; csimpl.
    + assert (Hnone : od_get n d = None).
      { apply od_get_None. intros Hin. apply Hn. by eapply elem_of_sublist. }
      rewrite Hnone. csimpl. by apply IH.
    + destruct d as [|[k v] d]; [done|]. simpl in Hd. injection Hd as -> <-.
      assert (Hg : od_get n ((n, v) :: d) = Some v) by (simpl; by rewrite decide_True).
      rewrite Hg. csimpl. f_equal.
      etrans; [|exact (IH d Hnd Hsub)].
      apply omap_ext_elem_of. intros [n' f'] Hin. simpl.
      rewrite decide_False; [done|]. intros ->. apply Hn.
      apply list_elem_of_fmap. by exists (n, f').
Qed.

Section construct_data.
Variable meta : Meta.t.
Variable kwargs : gmap string value.

(** The loop of [__init__] only appends to [_data], and only names of the
    part of the schema it walks, in schema order. *)
Lemma init_loop_keys fs : forall w self errors,
  NoDup (od_keys (BaseDocument._data self) ++ od_keys fs) ->
  exists sub,
    od_keys (BaseDocument._data
               (foldl (BaseDocument.init_step meta kwargs) (w, self, errors) fs).1.2)
    = od_keys (BaseDocument._data self) ++ sub
    /\ sub `sublist_of` od_keys fs.
Proof.
  induction fs as [|[n f] fs IH]; intros w self errors Hnd; simpl.
  - exists []. by rewrite app_nil_r.
  - assert (Hfresh : n ∉ od_keys (BaseDocument._data self)).
    { apply NoDup_app in Hnd as (_ & Hdisj & _). intros Hin.
      apply (Hdisj n Hin). apply elem_of_cons. by left. }
    assert (Hnd' : NoDup (od_keys (BaseDocument._data self) ++ od_keys fs)).
    { simpl in Hnd. apply NoDup_app in Hnd as (H1 & H2 & H3).
      apply NoDup_cons in H3 as [H3 H4].
      apply NoDup_app. split_and!; [done| |done].
      intros x Hx Hx'. apply (H2 x Hx). apply elem_of_cons. by right. }
    assert (Hskip : forall w0 errors0,
      exists sub,
        od_keys (BaseDocument._data
                   (foldl (BaseDocument.init_step meta kwargs) (w0, self, errors0) fs).1.2)
        = od_keys (BaseDocument._data self) ++ sub
        /\ sub `sublist_of` n :: od_keys fs).
    { intros w0 errors0. destruct (IH w0 self errors0 Hnd') as (sub & Hk & Hs).
      exists sub. split; [done|]. by apply sublist_cons. }
    destruct (BaseDocument.value_or_default meta kwargs n f w) as [[v|] w1].
    + unfold BaseDocument.__setattr__.
      destruct (Field.from_data f v) as [e|v']; [apply Hskip|].
      destruct (IH w1 (BaseDocument.mk (od_set n v' (BaseDocument._data self))) errors)
        as (sub & Hk & Hs).
      { simpl. rewrite od_set_fresh by done. unfold od_keys in *.
        rewrite fmap_app. simpl. by rewrite <- app_assoc. }
      exists (n :: sub). split; [|by apply sublist_skip].
      rewrite Hk. simpl. rewrite od_set_fresh by done. unfold od_keys.
      rewrite fmap_app. simpl. by rewrite <- app_assoc.
    + destruct (Field.required f); apply Hskip.
Qed.

(** The instance built by [__init__] holds names of the schema only, in
    schema order. *)
Lemma init_keys_sublist _empty w inst w' :
  NoDup (od_keys (Meta.fields meta)) ->
  BaseDocument.__init__ meta _empty kwargs w = (inr inst, w') ->
  od_keys (BaseDocument._data inst) `sublist_of` od_keys (Meta.fields meta).
Proof.
  intros Hnd. unfold BaseDocument.__init__. destruct _empty.
  - intros [= <- _]. apply sublist_nil_l.
  - destruct (init_loop_keys (Meta.fields meta) w (BaseDocument.mk []) [] Hnd)
      as (sub & Hk & Hs).
    destruct (foldl _ _ _) as [[w1 self] errors]. simpl in Hk.
    destruct errors; [|done]. intros [= <- _]. by rewrite Hk.
Qed.
End construct_data.

Lemma od_get_filter {V} (Q : string * V -> Prop) `{!forall kv, Decision (Q kv)}
    (k : string) (d : odict string V) :
  (forall v, Q (k, v)) -> od_get k (filter Q d) = od_get k d.
Proof.
  intros Hk. induction d as [|[k' v'] d IH]; [done|].
  rewrite filter_cons. simpl. destruct (decide (k = k')) as [->|Hne].
  - rewrite decide_True by done. simpl. by rewrite decide_True.
  - destruct (decide (Q (k', v'))); simpl; [by rewrite decide_False|done].
Qed.

Section codec_laws.
Variable meta : Meta.t.

Lemma to_son_lookup (self : BaseDocument.t) n f :
  NoDup (wire_names meta) ->
  (n, f) ∈ Meta.fields meta ->
  od_get (Field.mongo_name f) (BaseDocument.to_son meta self)
  = Field.to_son f <$> BaseDocument.get self n.
Proof.
  intros Hnd Hin. rewrite to_son_emits by done.
  rewrite (od_get_omap (emit self)
             (fun e : string * Field.t => Field.mongo_name e.2) _ (n, f)); try done.
  - unfold emit, BaseDocument.get. simpl. by destruct (od_get n _).
  - intros [n' f'] k v. unfold emit. simpl.
    destruct (od_get n' _); [|done]. by intros [= <- _].
Qed.

Lemma set_son_lookup (self : BaseDocument.t) (data : odict string value) n f :
  NoDup (field_names meta) ->
  (n, f) ∈ Meta.fields meta ->
  BaseDocument.get (BaseDocument._set_son meta self data) n
  = Field.from_son f <$> od_get (Field.mongo_name f) data.
Proof.
  intros Hnd Hin. unfold BaseDocument.get. rewrite set_son_loads by done.
  rewrite (od_get_omap (load data) fst _ (n, f)); try done.
  - unfold load. simpl. by destruct (od_get _ data).
  - intros [n' f'] k v. unfold load. simpl.
    destruct (od_get _ data); [|done]. by intros [= <- _].
Qed.

Lemma set_son_keys (self : BaseDocument.t) (data : odict string value) :
  NoDup (field_names meta) ->
  od_keys (BaseDocument._data (BaseDocument._set_son meta self data))
    `sublist_of` field_names meta.
Proof.
  intros Hnd. rewrite set_son_loads by done.
  apply (omap_keys_sublist _ fst). intros [n' f'] k v. unfold load. simpl.
  destruct (od_get _ data); [|done]. by intros [= <- _].
Qed.

(** [_set_son] looks the record up under wire names only. *)
Lemma set_son_filter (self : BaseDocument.t) (data : odict string value) :
  BaseDocument._set_son meta self
    (filter (fun kv : string * value => kv.1 ∈ wire_names meta) data)
  = BaseDocument._set_son meta self data.
Proof.
  unfold BaseDocument._set_son. f_equal.
  assert (Hgen : forall fs acc,
    (forall e, e ∈ fs -> e ∈ Meta.fields meta) ->
    foldl (fun _data '(field_name, field) =>
             match od_get (Field.mongo_name field)
                     (filter (fun kv : string * value => kv.1 ∈ wire_names meta) data) with
             | Some wire => od_set field_name (Field.from_son field wire) _data
             | None => _data
             end) acc fs
    = foldl (fun _data '(field_name, field) =>
               match od_get (Field.mongo_name field) data with
               | Some wire => od_set field_name (Field.from_son field wire) _data
               | None => _data
               end) acc fs).
  { induction fs as [|[n f] fs IH]; intros acc Hsub; simpl; [done|].
    rewrite od_get_filter.
    - apply IH. intros e He. apply Hsub. apply elem_of_cons. by right.
    - intros v. simpl. unfold wire_names. apply list_elem_of_fmap. exists (n, f). split; [done|].
      apply Hsub. apply elem_of_cons. by left. }
  by apply Hgen.
Qed.
End codec_laws.

(** [_set_son] depends on the schema through its wire view only. *)
Lemma set_son_wire_view (meta meta' : Meta.t) self self' (data : odict string value) :
  wire_view meta' = wire_view meta ->
  BaseDocument._set_son meta' self' data = BaseDocument._set_son meta self data.
Proof.
  unfold wire_view, BaseDocument._set_son. intros Hview. f_equal.
  generalize (@nil (string * value)).
  revert Hview. generalize (Meta.fields meta) (Meta.fields meta').
  induction l as [|[n f] fs IH]; intros [|[n' f'] fs'] Hview acc; try done.
  injection Hview as -> Hmongo Hson Hview. simpl.
  rewrite Hmongo, Hson. by apply IH.
Qed.

(** C5.  The trusted load path never raises, whatever the record holds and
    whatever the fields would say of the values: [from_son] returns an
    instance in which a schema field holds the from-wire conversion of the
    entry under its wire name when the record has one and is left unset
    when it has none; nothing but schema fields is set; the entries whose
    key is no field's wire name can be dropped from the record without
    changing the result; and so can the [required] flags, the defaults and
    the validators of the fields be changed (no validation takes place). *)
Theorem from_son_never_fails (meta : Meta.t) (data : odict string value) (w : world) :
  NoDup (field_names meta) ->
  exists inst,
    BaseDocument.from_son meta data w = (inr inst, w)
    /\ (forall n f, (n, f) ∈ Meta.fields meta ->
          BaseDocument.get inst n = Field.from_son f <$> od_get (Field.mongo_name f) data)
    /\ (forall k, k ∉ field_names meta -> BaseDocument.get inst k = None)
    /\ BaseDocument.from_son meta
         (filter (fun kv : string * value => kv.1 ∈ wire_names meta) data) w
       = (inr inst, w)
    /\ (forall meta', wire_view meta' = wire_view meta ->
          BaseDocument.from_son meta' data w = (inr inst, w)).
Proof.
  intros Hnd. exists (BaseDocument._set_son meta (BaseDocument.mk []) data).
  unfold BaseDocument.from_son. simpl. split_and!.
  - done.
  - intros n f Hin. by apply set_son_lookup.
  - intros k Hk. apply od_get_None. intros Hin. apply Hk.
    eapply elem_of_sublist; [exact Hin|]. by apply set_son_keys.
  - by rewrite set_son_filter.
  - intros meta' Hview.
    by rewrite (set_son_wire_view meta meta' (BaseDocument.mk []) (BaseDocument.mk [])).
Qed.

(** C7, amended.  When the wire names of the schema are pairwise distinct,
    [to_son] emits exactly the schema fields present in [_data], in schema
    order, each under its wire name with its wire-converted value, and the
    wire name of a field without value is absent from the record. *)
Theorem to_son_sparse_in_schema_order (meta : Meta.t) (self : BaseDocument.t) :
  NoDup (wire_names meta) ->
  to_son_emits_exactly_set_fields meta self.
Proof.
  intros Hnd. split.
  - by apply to_son_emits.
  - intros n f Hin Hnone. rewrite (to_son_lookup meta self n f) by done.
    by rewrite Hnone.
Qed.

(** C2, amended.  When the wire names of the schema are pairwise distinct
    and, for every value the instance holds, the field's [from_son] inverts
    its [to_son], loading the wire record of an instance built by validated
    construction gives the instance back. *)
Theorem from_son_to_son_round_trip
    (meta : Meta.t) (kwargs : gmap string value) (w w' : world) (inst : BaseDocument.t) :
  NoDup (field_names meta) ->
  NoDup (wire_names meta) ->
  BaseDocument.__init__ meta false kwargs w = (inr inst, w') ->
  (forall n f v, (n, f) ∈ Meta.fields meta ->
     BaseDocument.get inst n = Some v ->
     Field.from_son f (Field.to_son f v) = v) ->
  forall w2,
    BaseDocument.from_son meta (BaseDocument.to_son meta inst) w2 = (inr inst, w2).
Proof.
  intros Hnd Hwire Hinit Hinv w2. unfold BaseDocument.from_son. simpl. do 2 f_equal.
  destruct inst as [d].
  assert (Hd : BaseDocument._data
                 (BaseDocument._set_son meta (BaseDocument.mk [])
                    (BaseDocument.to_son meta (BaseDocument.mk d))) = d);
    [|by destruct (BaseDocument._set_son _ _ _); simpl in Hd; subst].
  rewrite set_son_loads by done.
  etrans; [|apply (od_restrict_sublist (Meta.fields meta) d Hnd)].
  - apply omap_ext_elem_of. intros [n f] Hin. unfold load. simpl.
    rewrite (to_son_lookup meta _ n f) by done. unfold BaseDocument.get. simpl.
    destruct (od_get n d) as [v|] eqn:Hv; simpl; [|done].
    by rewrite (Hinv n f v Hin).
  - by apply (init_keys_sublist meta kwargs false w (BaseDocument.mk d) w').
Qed.

(** ** What validated construction stores *)

Section construct_values.
Variable meta : Meta.t.
Variable kwargs : gmap string value.

Lemma value_or_default_resolves field_name field w :
  resolves meta kwargs field_name field
    (BaseDocument.value_or_default meta kwargs field_name field w).1.
Proof.
  unfold BaseDocument.value_or_default, BaseDocument._get_field_value_from_data.
  destruct (kwargs !! field_name) as [v|] eqn:Hk; simpl.
  - by apply resolves_canonical.
  - destruct (Meta.fields_synonyms meta !! field_name) as [syn|] eqn:Hs.
    + destruct (kwargs !! syn) as [v|] eqn:Hv; simpl.
      * by eapply resolves_synonym.
      * apply resolves_default; [done|]. intros syn' Hs'.
        rewrite Hs in Hs'. by injection Hs' as <-.
    + apply resolves_default; [done|]. intros syn' Hs'. by rewrite Hs in Hs'.
Qed.

(** Once an error is recorded the loop ends with errors. *)
Lemma init_loop_errors_stay fs : forall w self errors,
  errors <> [] ->
  (foldl (BaseDocument.init_step meta kwargs) (w, self, errors) fs).2 <> [].
Proof.
  assert (Hset : forall n e (errors : odict string ValidationError),
            od_set n e errors <> []).
  { intros n e [|[k v] errors]; simpl; [done|]. by destruct (decide (n = k)). }
  induction fs as [|[n f] fs IH]; intros w self errors Hne; simpl; [done|].
  destruct (BaseDocument.value_or_default meta kwargs n f w) as [[v|] w1].
  - destruct (BaseDocument.__setattr__ self n f v); apply IH; [apply Hset|done].
  - destruct (Field.required f); apply IH; [apply Hset|done].
Qed.

(** The loop leaves alone the names it does not walk. *)
Lemma init_loop_other fs k : forall w self errors,
  k ∉ od_keys fs ->
  od_get k (BaseDocument._data
              (foldl (BaseDocument.init_step meta kwargs) (w, self, errors) fs).1.2)
  = od_get k (BaseDocument._data self).
Proof.
  induction fs as [|[n f] fs IH]; intros w self errors Hk; simpl; [done|].
  simpl in Hk. apply not_elem_of_cons in Hk as [Hne Hk].
  destruct (BaseDocument.value_or_default meta kwargs n f w) as [[v|] w1].
  - unfold BaseDocument.__setattr__.
    destruct (Field.from_data f v) as [e|v']; rewrite IH by done; [done|].
    simpl. rewrite od_get_set. by rewrite decide_False.
  - destruct (Field.required f); by rewrite IH.
Qed.

(** A loop that ends without errors has stored, for each field it
    walked, the normalised form of the value resolved for it. *)
Lemma init_loop_stores fs n f : forall w self errors,
  NoDup (od_keys fs) ->
  (n, f) ∈ fs ->
  let st := foldl (BaseDocument.init_step meta kwargs) (w, self, errors) fs in
  st.2 = [] ->
  exists w0,
    match (BaseDocument.value_or_default meta kwargs n f w0).1 with
    | Some v => stores st.1.2 n f v
    | None => BaseDocument.get st.1.2 n = BaseDocument.get self n
    end.
Proof.
  induction fs as [|[n0 f0] fs IH]; intros w self errors Hnd Hin; simpl.
  - by apply elem_of_nil in Hin.
  - simpl in Hnd. apply NoDup_cons in Hnd as [Hn0 Hnd].
    apply elem_of_cons in Hin as [[= -> ->]|Hin].
    + intros Hok. exists w. unfold stores, BaseDocument.get.
      destruct (BaseDocument.value_or_default meta kwargs n0 f0 w) as [[v|] w1];
        simpl in *.
      * unfold BaseDocument.__setattr__ in *.
        destruct (Field.from_data f0 v) as [e|v'].
        -- exfalso. revert Hok. apply init_loop_errors_stay.
           destruct errors as [|[k e'] errors]; simpl; [done|].
           by destruct (decide (n0 = k)).
        -- exists v'. split; [done|]. rewrite init_loop_other by done.
           simpl. rewrite od_get_set. by rewrite decide_True.
      * destruct (Field.required f0).
        -- exfalso. revert Hok. apply init_loop_errors_stay.
           destruct errors as [|[k e'] errors]; simpl; [done|].
           by destruct (decide (n0 = k)).
        -- by rewrite init_loop_other.
    + assert (Hne : n <> n0).
      { intros ->. apply Hn0. apply list_elem_of_fmap. by exists (n0, f). }
      intros Hok.
      destruct (BaseDocument.value_or_default meta kwargs n0 f0 w) as [[v|] w1].
      * unfold BaseDocument.__setattr__ in *.
        destruct (Field.from_data f0 v) as [e|v'].
        -- by apply IH.
        -- destruct (IH w1 (BaseDocument.mk (od_set n0 v' (BaseDocument._data self)))
                      errors Hnd Hin Hok) as [w0 Hw0].
           exists w0. destruct (BaseDocument.value_or_default meta kwargs n f w0).1;
             [done|].
           rewrite Hw0. unfold BaseDocument.get. simpl. rewrite od_get_set.
           by rewrite decide_False.
      * destruct (Field.required f0); by apply IH.
Qed.
End construct_values.

(** C6.  In an instance built by validated construction every schema field
    holds the normalised form of the value resolved for it by precedence
    (canonical name, else registered synonym, else default) and is unset
    when nothing is resolved.  In particular, with [val] a synonym of
    [value], constructing from [{val: 5}] gives an instance whose field
    [value] reads 5. *)
Theorem construct_resolves_by_precedence :
  (forall (meta : Meta.t) (kwargs : gmap string value) (w w' : world)
          (inst : BaseDocument.t),
     NoDup (field_names meta) ->
     BaseDocument.__init__ meta false kwargs w = (inr inst, w') ->
     forall n f, (n, f) ∈ Meta.fields meta ->
       exists resolved,
         resolves meta kwargs n f resolved
         /\ match resolved with
            | Some v => stores inst n f v
            | None => BaseDocument.get inst n = None
            end)
  /\ (Meta.fields_synonyms Reading_meta !! "value" = Some "val"
      /\ exists inst w',
           BaseDocument.__init__ Reading_meta false {[ "val" := VInt 5 ]} 0 = (inr inst, w')
           /\ BaseDocument.get inst "value" = Some (VInt 5)).
Proof.
  split.
  - intros meta kwargs w w' inst Hnd Hinit n f Hin.
    unfold BaseDocument.__init__ in Hinit.
    pose proof (init_loop_stores meta kwargs (Meta.fields meta) n f w
                  (BaseDocument.mk []) [] Hnd Hin) as Hst.
    simpl in Hst.
    destruct (foldl _ _ _) as [[w1 self] errors]. simpl in Hst.
    destruct errors; [|done]. injection Hinit as <- <-.
    destruct (Hst eq_refl) as [w0 Hw0].
    exists (BaseDocument.value_or_default meta kwargs n f w0).1. split.
    + apply value_or_default_resolves.
    + by destruct (BaseDocument.value_or_default meta kwargs n f w0).1.
  - split; [by vm_compute|].
    exists (BaseDocument.mk [("value", VInt 5)]), 0. split; by vm_compute.
Qed.

(** ** Keys of the input that the schema does not know *)

Lemma foldl_ext_elem_of {A B} (f g : A -> B -> A) (l : list B) : forall a,
  (forall a x, x ∈ l -> f a x = g a x) -> foldl f a l = foldl g a l.
Proof.
  induction l as [|x l IH]; intros a Hext; simpl; [done|].
  rewrite (Hext a x) by (apply elem_of_cons; by left).
  apply IH. intros a' y Hy. apply Hext. apply elem_of_cons. by right.
Qed.

Section unknown_keys.
Variable meta : Meta.t.

Lemma known_only_lookup kwargs k :
  known_key meta k -> known_only meta kwargs !! k = kwargs !! k.
Proof.
  intros Hk. unfold known_only. rewrite map_lookup_filter.
  destruct (kwargs !! k) as [v|]; simpl; [|done].
  by rewrite option_guard_True.
Qed.

(** Validated construction reads the input under known keys only. *)
Lemma init_agree _empty (kw1 kw2 : gmap string value) w :
  (forall k, known_key meta k -> kw1 !! k = kw2 !! k) ->
  BaseDocument.__init__ meta _empty kw1 w = BaseDocument.__init__ meta _empty kw2 w.
Proof.
  intros Hagree. unfold BaseDocument.__init__. destruct _empty; [done|].
  rewrite (foldl_ext_elem_of (BaseDocument.init_step meta kw1)
             (BaseDocument.init_step meta kw2)); [done|].
  intros [[w0 self] errors] [n f] Hin. unfold BaseDocument.init_step.
  assert (Hn : n ∈ field_names meta).
  { apply list_elem_of_fmap. by exists (n, f). }
  assert (Hv : BaseDocument.value_or_default meta kw1 n f w0
               = BaseDocument.value_or_default meta kw2 n f w0);
    [|by rewrite Hv].
  unfold BaseDocument.value_or_default, BaseDocument._get_field_value_from_data.
  rewrite (Hagree n) by (by left).
  destruct (kw2 !! n); [done|].
  destruct (Meta.fields_synonyms meta !! n) as [syn|] eqn:Hs; [|done].
  rewrite (Hagree syn); [done|]. right. apply Exists_exists. by exists n.
Qed.

Lemma known_only_dom kwargs k : k ∉ dom kwargs -> k ∉ dom (known_only meta kwargs).
Proof.
  intros Hk. apply not_elem_of_dom. apply not_elem_of_dom in Hk.
  unfold known_only. rewrite map_lookup_filter. by rewrite Hk.
Qed.

Lemma call_known_only (kw : gmap string value) w :
  "self" ∉ dom kw ->
  truthy (default (VBool false) (kw !! "_empty")) = false ->
  BaseDocument.call meta (Mapping kw) w
  = BaseDocument.call meta (Mapping (known_only meta kw)) w.
Proof.
  intros Hself Hflag. unfold BaseDocument.call.
  rewrite !decide_False by (by try apply known_only_dom). rewrite Hflag.
  assert (Hflag' : truthy (default (VBool false) (known_only meta kw !! "_empty")) = false).
  { unfold known_only. rewrite map_lookup_filter.
    destruct (kw !! "_empty") as [v|]; simpl; [|done].
    destruct (decide (known_key meta "_empty")).
    - by rewrite option_guard_True.
    - by rewrite option_guard_False. }
  rewrite Hflag'. apply init_agree. intros k Hk.
  destruct (decide (k = "_empty")) as [->|Hne].
  - by rewrite !lookup_delete_eq.
  - rewrite !lookup_delete_ne by done. by rewrite known_only_lookup.
Qed.

(** What [from_data] returns is what the call returns. *)
Lemma from_data_returns cls__name__ data w inst w' :
  BaseDocument.from_data cls__name__ meta data w = (inr inst, w') ->
  BaseDocument.call meta data w = (inr inst, w').
Proof.
  unfold BaseDocument.from_data.
  destruct (BaseDocument.call meta data w) as [[e|inst0] w0]; [by destruct e|done].
Qed.

Lemma call_no_unknown_entry (kw : gmap string value) w inst w' k :
  BaseDocument.call meta (Mapping kw) w = (inr inst, w') ->
  ~ known_key meta k ->
  BaseDocument.get inst k = None.
Proof.
  unfold BaseDocument.call, BaseDocument.__init__.
  destruct (decide ("self" ∈ dom kw)); [done|].
  destruct (truthy _).
  - by intros [= <- _] _.
  - pose proof (init_loop_other meta (delete "_empty" kw) (Meta.fields meta)) as Hother.
    destruct (foldl _ _ _) as [[w1 self] errors] eqn:Hloop.
    destruct errors; [|done]. intros [= <- _] Hk.
    specialize (Hother k w (BaseDocument.mk []) []). rewrite Hloop in Hother.
    apply Hother. intros Hin. apply Hk. by left.
Qed.
End unknown_keys.

(** C10, amended.  Keys of the input that are neither the canonical name
    nor the registered synonym of a schema field are ignored by validated
    construction: [__init__] gives the same result, instance or error, when
    they are removed from its keyword arguments.  Through [from_data] the
    same holds for an input without the key [self] (which the call binds to
    the instance): such keys cause no error (construction succeeds
    whenever it succeeds without them) and leave no entry in the instance,
    and the result is the same unless the input sets the constructor's own
    flag [_empty]. *)
Theorem construct_ignores_unknown_keys
    (cls__name__ : string) (meta : Meta.t) (kwargs : gmap string value) (w : world) :
  BaseDocument.__init__ meta false kwargs w
  = BaseDocument.__init__ meta false (known_only meta kwargs) w
  /\ ("self" ∉ dom kwargs -> unknown_keys_are_ignored cls__name__ meta kwargs w)
  /\ ("self" ∉ dom kwargs ->
      truthy (default (VBool false) (kwargs !! "_empty")) = false ->
      BaseDocument.from_data cls__name__ meta (Mapping kwargs) w
      = BaseDocument.from_data cls__name__ meta (Mapping (known_only meta kwargs)) w).
Proof.
  split_and!.
  - apply init_agree. intros k Hk. by rewrite known_only_lookup.
  - intros Hself. split.
    + destruct (truthy (default (VBool false) (kwargs !! "_empty"))) eqn:Hflag.
      * intros _. unfold succeeds, BaseDocument.from_data, BaseDocument.call.
        rewrite decide_False by done. by rewrite Hflag.
      * unfold BaseDocument.from_data. by rewrite <- call_known_only.
    + intros inst w' Hres k Hk.
      eapply call_no_unknown_entry; [|exact Hk].
      eapply from_data_returns. exact Hres.
  - intros Hself Hflag. unfold BaseDocument.from_data. by rewrite <- call_known_only.
Qed.

(** ** Schema assembly *)

Section schema_assembly.
Lemma scan_fields_fst ns : forall fields synonyms,
  (foldl BaseDocumentMeta.scan (fields, synonyms) ns).1 = foldl scan_field fields ns.
Proof.
  induction ns as [|[n m] ns IH]; intros fields synonyms; simpl; [done|].
  destruct m; unfold scan_field; simpl; apply IH.
Qed.

Lemma scan_namespaces_fst nss : forall fields synonyms,
  (foldl (fun st ns => foldl BaseDocumentMeta.scan st ns) (fields, synonyms) nss).1
  = foldl (fun fs ns => foldl scan_field fs ns) fields nss.
Proof.
  induction nss as [|ns nss IH]; intros fields synonyms; simpl; [done|].
  rewrite <- (scan_fields_fst ns fields synonyms).
  destruct (foldl BaseDocumentMeta.scan (fields, synonyms) ns) as [fs ss].
  apply IH.
Qed.

Lemma get_fields_fst cls :
  (BaseDocumentMeta._get_fields cls).1
  = foldl (fun fs ns => foldl scan_field fs ns) [] (BaseDocumentMeta.mro_ns_gen cls).
Proof.
  unfold BaseDocumentMeta._get_fields.
  rewrite <- (scan_namespaces_fst _ [] []).
  by destruct (foldl _ _ _).
Qed.

(** The walk of a subclass is the walk of its ancestors followed by its
    own namespace, unless its name is one of the ignored ones. *)
Lemma mro_ns_gen_sub (sub base : new_class) :
  ancestors sub = __mro__ base ->
  BaseDocumentMeta.mro_ns_gen sub
  = BaseDocumentMeta.mro_ns_gen base
    ++ (if decide (__name__ (this sub) ∈ BaseDocumentMeta.ignore_bases)
        then [] else [__dict__ (this sub)]).
Proof.
  intros Hanc. unfold BaseDocumentMeta.mro_ns_gen, __mro__ at 1. rewrite Hanc.
  rewrite reverse_cons, filter_app, fmap_app. f_equal.
  rewrite filter_cons, filter_nil.
  destruct (decide (__name__ (this sub) ∈ BaseDocumentMeta.ignore_bases)).
  - by rewrite decide_False by (intros Hn; by apply Hn).
  - by rewrite decide_True.
Qed.

Lemma scan_field_keys_prefix fields entry :
  od_keys fields `prefix_of` od_keys (scan_field fields entry).
Proof.
  unfold scan_field. destruct entry.2; [apply od_keys_set_prefix|done|done].
Qed.

Lemma scan_fields_keys_prefix ns : forall fields,
  od_keys fields `prefix_of` od_keys (foldl scan_field fields ns).
Proof.
  induction ns as [|e ns IH]; intros fields; simpl; [done|].
  destruct (scan_field_keys_prefix fields e) as [k1 Hk1].
  destruct (IH (scan_field fields e)) as [k2 Hk2].
  exists (k1 ++ k2). rewrite Hk2, Hk1. by rewrite <- app_assoc.
Qed.

Lemma scan_fields_NoDup ns : forall fields,
  NoDup (od_keys fields) -> NoDup (od_keys (foldl scan_field fields ns)).
Proof.
  induction ns as [|[n m] ns IH]; intros fields Hnd; simpl; [done|].
  apply IH. unfold scan_field. simpl. destruct m; [by apply od_set_NoDup|done|done].
Qed.

Lemma scan_fields_index ns x : forall fields,
  x ∈ od_keys fields ->
  od_index x (foldl scan_field fields ns) = od_index x fields.
Proof.
  induction ns as [|[n m] ns IH]; intros fields Hx; simpl; [done|].
  assert (Hx' : x ∈ od_keys (scan_field fields (n, m))).
  { destruct (scan_field_keys_prefix fields (n, m)) as [k Hk]. rewrite Hk.
    apply elem_of_app. by left. }
  rewrite IH by done. unfold scan_field. simpl.
  destruct m; [by apply od_index_set_present|done|done].
Qed.

Lemma scan_fields_other ns x : forall fields,
  x ∉ od_keys ns -> od_get x (foldl scan_field fields ns) = od_get x fields.
Proof.
  induction ns as [|[n m] ns IH]; intros fields Hx; simpl; [done|].
  simpl in Hx. apply not_elem_of_cons in Hx as [Hne Hx].
  rewrite IH by done. unfold scan_field. simpl.
  destruct m; [|done|done]. rewrite od_get_set. by rewrite decide_False.
Qed.

(** The declaration of a name in a class body decides the entry of that
    name after the body has been scanned. *)
Lemma scan_fields_declared ns x item : forall fields,
  NoDup (od_keys ns) ->
  (x, MField item) ∈ ns ->
  od_get x (foldl scan_field fields ns) = Some (Field.with_name x item).
Proof.
  induction ns as [|[n m] ns IH]; intros fields Hnd Hin; simpl.
  - by apply elem_of_nil in Hin.
  - simpl in Hnd. apply NoDup_cons in Hnd as [Hn Hnd].
    apply elem_of_cons in Hin as [[= <- <-]|Hin].
    + rewrite scan_fields_other by done. unfold scan_field. simpl.
      rewrite od_get_set. by rewrite decide_True.
    + by apply IH.
Qed.

(** A name enters the schema only through a field declaration. *)
Lemma scan_fields_keys_declared ns k : forall fields,
  k ∈ od_keys (foldl scan_field fields ns) ->
  k ∈ od_keys fields \/ exists item, (k, MField item) ∈ ns.
Proof.
  induction ns as [|[n m] ns IH]; intros fields Hk; simpl in *; [by left|].
  destruct (IH _ Hk) as [Hin|[item Hin]].
  - unfold scan_field in Hin. simpl in Hin. destruct m as [item| |]; try by left.
    rewrite od_keys_set in Hin. destruct (decide (n ∈ od_keys fields)); [by left|].
    apply elem_of_app in Hin as [Hin|Hin]; [by left|].
    apply list_elem_of_singleton in Hin as ->. right. exists item.
    apply elem_of_cons. by left.
  - right. exists item. apply elem_of_cons. by right.
Qed.

Lemma get_fields_NoDup cls : NoDup (od_keys (BaseDocumentMeta._get_fields cls).1).
Proof.
  rewrite get_fields_fst.
  assert (Hgen : forall nss fields, NoDup (od_keys fields) ->
            NoDup (od_keys (foldl (fun fs ns => foldl scan_field fs ns) fields nss))).
  { induction nss as [|ns nss IH]; intros fields Hnd; simpl; [done|].
    apply IH. by apply scan_fields_NoDup. }
  apply Hgen. apply NoDup_nil_2.
Qed.
End schema_assembly.

(** What [DocumentMeta._get_fields] returns is the schema gathered by
    [BaseDocumentMeta._get_fields], with the default identifier field
    appended when it has no [_id]. *)
Lemma DocumentMeta_fields_extend ext cls fields synonyms :
  (DocumentMeta._get_fields ext cls).1 = inr (fields, synonyms) ->
  let base := (BaseDocumentMeta._get_fields cls).1 in
  (is_Some (od_get "_id" base) /\ fields = base)
  \/ (od_get "_id" base = None
      /\ fields = od_set "_id" (DocumentMeta.default_id_field ext) base).
Proof.
  unfold DocumentMeta._get_fields.
  destruct (BaseDocumentMeta._get_fields cls) as [fs ss]. simpl.
  destruct (od_get "_id" fs) as [id_field|] eqn:Hid.
  - destruct (Field.required id_field); [|done]. intros [= <- _]. left. eauto.
  - intros [= <- _]. by right.
Qed.

(** Every schema a metaclass gathers has one entry per name. *)
Lemma gathered_fields_NoDup ext mcls cls fields synonyms :
  (_get_fields ext mcls cls).1 = inr (fields, synonyms) -> NoDup (od_keys fields).
Proof.
  destruct mcls; simpl.
  - intros Hf. apply DocumentMeta_fields_extend in Hf as [[_ ->]|[_ ->]].
    + apply get_fields_NoDup.
    + apply od_set_NoDup, get_fields_NoDup.
  - intros [= Heq]. change fields with (fields, synonyms).1. rewrite <- Heq.
    apply get_fields_NoDup.
Qed.

(** ... and so has the schema of every class that has been defined. *)
Lemma defined_class_fields_NoDup ext mcls cls meta :
  (__new__ ext mcls cls).1 = inr (Some meta) -> NoDup (field_names meta).
Proof.
  unfold __new__.
  destruct (decide (__name__ (this cls) ∈ ["Document"; "EmbeddedDocument"])); [done|].
  destruct (_get_fields ext mcls cls) as [[e|[fs ss]] cls'] eqn:Hfields; [done|].
  unfold Meta.call, Meta.__init__. destruct (decide ("self" ∈ _)); [done|].
  destruct (Meta._validate_options _); [done|].
  simpl. intros [= <-]. unfold field_names. simpl.
  eapply gathered_fields_NoDup. by rewrite Hfields.
Qed.

(** C3.  The schema of a subclass is the schema of its ancestors, walked
    from the oldest to the most derived, on which the subclass's own body
    is then scanned.  For a subclass that takes part in the walk (its name
    is none of the ignored base names) and redeclares a field name the
    ancestors' schema already has: the names of that schema keep their
    places, so the name stands where it first appeared; every name has one
    entry; and the entry of the redeclared name is the subclass's field
    descriptor.  The same holds of the schemas the metaclass in force hands
    to the two classes. *)
Theorem override_keeps_position (sub base : new_class) (x : string) (item : Field.t) :
  ancestors sub = __mro__ base ->
  __name__ (this sub) ∉ BaseDocumentMeta.ignore_bases ->
  NoDup (od_keys (__dict__ (this sub))) ->
  (x, MField item) ∈ __dict__ (this sub) ->
  x ∈ od_keys (BaseDocumentMeta._get_fields base).1 ->
  let fields := (BaseDocumentMeta._get_fields sub).1 in
  let base_fields := (BaseDocumentMeta._get_fields base).1 in
  (fields = foldl scan_field base_fields (__dict__ (this sub))
   /\ od_get x fields = Some (Field.with_name x item)
   /\ NoDup (od_keys fields)
   /\ od_index x fields = od_index x base_fields
   /\ od_keys base_fields `prefix_of` od_keys fields)
  /\ (forall ext mcls schema synonyms base_schema base_synonyms,
        (_get_fields ext mcls sub).1 = inr (schema, synonyms) ->
        (_get_fields ext mcls base).1 = inr (base_schema, base_synonyms) ->
        od_get x schema = Some (Field.with_name x item)
        /\ NoDup (od_keys schema)
        /\ od_index x schema = od_index x base_schema).
Proof.
  intros Hanc Hname Hdict Hdecl Hbase fields base_fields.
  assert (Hfields : fields = foldl scan_field base_fields (__dict__ (this sub))).
  { unfold fields, base_fields. rewrite !get_fields_fst.
    rewrite (mro_ns_gen_sub sub base Hanc). rewrite decide_False by done.
    by rewrite foldl_app. }
  assert (Hget : od_get x fields = Some (Field.with_name x item)).
  { rewrite Hfields. by apply scan_fields_declared. }
  assert (Hidx : od_index x fields = od_index x base_fields).
  { rewrite Hfields. by apply scan_fields_index. }
  assert (Hx : x ∈ od_keys fields).
  { apply od_get_is_Some. rewrite Hget. eauto. }
  split.
  - split_and!; [done|done|apply get_fields_NoDup|done|].
    rewrite Hfields. apply scan_fields_keys_prefix.
  - intros ext mcls schema synonyms base_schema base_synonyms Hs Hb.
    split_and!; [|by eapply gathered_fields_NoDup|].
    + destruct mcls; simpl in Hs;
        [|injection Hs as Hs; change schema with (schema, synonyms).1; by rewrite <- Hs].
      apply DocumentMeta_fields_extend in Hs as [[_ ->]|[Hno ->]]; [done|].
      rewrite od_get_set. rewrite decide_False; [done|].
      intros ->. fold fields in Hno. by rewrite Hno in Hget.
    + destruct mcls; simpl in Hs, Hb;
        [|injection Hs as Hs; injection Hb as Hb;
          change schema with (schema, synonyms).1;
          change base_schema with (base_schema, base_synonyms).1;
          by rewrite <- Hs, <- Hb].
      apply DocumentMeta_fields_extend in Hs as [[_ ->]|[_ ->]];
        apply DocumentMeta_fields_extend in Hb as [[_ ->]|[_ ->]];
        rewrite ?od_index_set_present by done; done.
Qed.

(** ** Entries of a gathered schema *)

Lemma od_set_elem_of {K V} `{EqDecision K} (k k' : K) (v v' : V) (d : odict K V) :
  (k', v') ∈ od_set k v d -> (k', v') = (k, v) \/ (k', v') ∈ d.
Proof.
  induction d as [|[k0 v0] d IH]; simpl.
  - intros Hin. apply list_elem_of_singleton in Hin. by left.
  - destruct (decide (k = k0)) as [->|Hne]; intros Hin.
    + apply elem_of_cons in Hin as [Hin|Hin]; [by left|].
      right. apply elem_of_cons. by right.
    + apply elem_of_cons in Hin as [Hin|Hin].
      * right. apply elem_of_cons. by left.
      * destruct (IH Hin) as [?|?]; [by left|]. right. apply elem_of_cons. by right.
Qed.

Lemma od_set_elem_of_new {K V} `{EqDecision K} (k : K) (v : V) (d : odict K V) :
  (k, v) ∈ od_set k v d.
Proof.
  induction d as [|[k0 v0] d IH]; simpl.
  - apply elem_of_cons. by left.
  - destruct (decide (k = k0)); apply elem_of_cons; [by left|by right].
Qed.

Lemma od_keys_set_elem_of {K V} `{EqDecision K} (k : K) (v : V) (d : odict K V) :
  k ∈ od_keys (od_set k v d).
Proof.
  rewrite od_keys_set. destruct (decide (k ∈ od_keys d)); [done|].
  apply elem_of_app. right. by apply list_elem_of_singleton.
Qed.

Lemma scan_fields_sound ns n f : forall fields,
  (n, f) ∈ foldl scan_field fields ns ->
  (n, f) ∈ fields \/ exists item, (n, MField item) ∈ ns /\ f = Field.with_name n item.
Proof.
  induction ns as [|[k m] ns IH]; intros fields Hin; simpl in *; [by left|].
  destruct (IH _ Hin) as [Hin'|(item & Hdecl & ->)].
  - unfold scan_field in Hin'. simpl in Hin'. destruct m as [item| |]; try by left.
    apply od_set_elem_of in Hin' as [[= -> ->]|Hin']; [|by left].
    right. exists item. split; [apply elem_of_cons; by left|done].
  - right. exists item. split; [apply elem_of_cons; by right|done].
Qed.

Lemma scan_namespaces_sound nss n f : forall fields,
  (n, f) ∈ foldl (fun fs ns => foldl scan_field fs ns) fields nss ->
  (n, f) ∈ fields
  \/ exists ns item, ns ∈ nss /\ (n, MField item) ∈ ns /\ f = Field.with_name n item.
Proof.
  induction nss as [|ns nss IH]; intros fields Hin; simpl in *; [by left|].
  destruct (IH _ Hin) as [Hin'|(ns' & item & Hns & Hdecl & ->)].
  - apply scan_fields_sound in Hin' as [Hin'|(item & Hdecl & ->)]; [by left|].
    right. exists ns, item. split_and!; [apply elem_of_cons; by left|done|done].
  - right. exists ns', item. split_and!; [apply elem_of_cons; by right|done|done].
Qed.

Lemma scan_fields_complete ns n item : forall fields,
  (n, MField item) ∈ ns -> n ∈ od_keys (foldl scan_field fields ns).
Proof.
  induction ns as [|[k m] ns IH]; intros fields Hin; simpl.
  - by apply elem_of_nil in Hin.
  - apply elem_of_cons in Hin as [[= <- <-]|Hin]; [|by apply IH].
    destruct (scan_fields_keys_prefix ns (scan_field fields (n, MField item))) as [k' ->].
    apply elem_of_app. left. unfold scan_field. simpl. apply od_keys_set_elem_of.
Qed.

Lemma scan_namespaces_keys_prefix nss : forall fields,
  od_keys fields `prefix_of` od_keys (foldl (fun fs ns => foldl scan_field fs ns) fields nss).
Proof.
  induction nss as [|ns nss IH]; intros fields; simpl; [done|].
  destruct (scan_fields_keys_prefix ns fields) as [k1 Hk1].
  destruct (IH (foldl scan_field fields ns)) as [k2 Hk2].
  exists (k1 ++ k2). rewrite Hk2, Hk1. by rewrite <- app_assoc.
Qed.

Lemma scan_namespaces_complete nss ns n item : forall fields,
  ns ∈ nss -> (n, MField item) ∈ ns ->
  n ∈ od_keys (foldl (fun fs ns => foldl scan_field fs ns) fields nss).
Proof.
  induction nss as [|ns0 nss IH]; intros fields Hns Hin; simpl.
  - by apply elem_of_nil in Hns.
  - apply elem_of_cons in Hns as [<-|Hns]; [|by apply IH].
    destruct (scan_namespaces_keys_prefix nss (foldl scan_field fields ns)) as [k' ->].
    apply elem_of_app. left. by eapply scan_fields_complete.
Qed.

Lemma walked_namespace cls ns :
  ns ∈ BaseDocumentMeta.mro_ns_gen cls
  <-> exists c, c ∈ __mro__ cls /\ (__name__ c ∉ BaseDocumentMeta.ignore_bases)
               /\ ns = __dict__ c.
Proof.
  unfold BaseDocumentMeta.mro_ns_gen. rewrite list_elem_of_fmap. split.
  - intros (c & -> & Hc). apply list_elem_of_filter in Hc as [Hname Hc].
    rewrite elem_of_reverse in Hc. by exists c.
  - intros (c & Hc & Hname & ->). exists c. split; [done|].
    apply list_elem_of_filter. split; [done|]. by rewrite elem_of_reverse.
Qed.

(** An entry of the gathered schema is a field some walked class binds to
    the name ... *)
Lemma get_fields_sound cls n f :
  (n, f) ∈ (BaseDocumentMeta._get_fields cls).1 ->
  exists c item,
    c ∈ __mro__ cls /\ (__name__ c ∉ BaseDocumentMeta.ignore_bases)
    /\ (n, MField item) ∈ __dict__ c /\ f = Field.with_name n item.
Proof.
  intros Hin. rewrite get_fields_fst in Hin.
  apply scan_namespaces_sound in Hin as [Hin|(ns & item & Hns & Hdecl & ->)].
  - by apply elem_of_nil in Hin.
  - apply walked_namespace in Hns as (c & Hc & Hname & ->). by exists c, item.
Qed.

(** ... and every name a walked class binds to a field has an entry. *)
Lemma get_fields_complete cls c n item :
  c ∈ __mro__ cls -> __name__ c ∉ BaseDocumentMeta.ignore_bases ->
  (n, MField item) ∈ __dict__ c ->
  n ∈ od_keys (BaseDocumentMeta._get_fields cls).1.
Proof.
  intros Hc Hname Hdecl. rewrite get_fields_fst.
  eapply scan_namespaces_complete; [|exact Hdecl].
  apply walked_namespace. by exists c.
Qed.

(** The schema of a class that takes part in the walk is the schema of
    its ancestors with its own body scanned on top. *)
Lemma get_fields_sub (sub base : new_class) :
  ancestors sub = __mro__ base ->
  __name__ (this sub) ∉ BaseDocumentMeta.ignore_bases ->
  (BaseDocumentMeta._get_fields sub).1
  = foldl scan_field (BaseDocumentMeta._get_fields base).1 (__dict__ (this sub)).
Proof.
  intros Hanc Hname. rewrite !get_fields_fst.
  rewrite (mro_ns_gen_sub sub base Hanc). rewrite decide_False by done.
  by rewrite foldl_app.
Qed.

(** ** The class a definition leaves *)

(** Besides [meta], [__new__] sets on the class what [_get_fields] sets. *)
Lemma new_class_left_by_get_fields ext mcls cls :
  (__new__ ext mcls cls).2
  = if decide (__name__ (this cls) ∈ ["Document"; "EmbeddedDocument"]) then cls
    else (_get_fields ext mcls cls).2.
Proof.
  unfold __new__.
  destruct (decide (__name__ (this cls) ∈ ["Document"; "EmbeddedDocument"])); [done|].
  destruct (_get_fields ext mcls cls) as [[e|[fs ss]] cls']; [done|].
  simpl. by destruct (Meta.call _ fs ss).
Qed.

(** An embedded document class is left as it was created. *)
Lemma embedded_class_left_as_created ext cls :
  (__new__ ext EmbeddedDocumentMeta_ cls).2 = cls.
Proof.
  rewrite new_class_left_by_get_fields. by destruct (decide _).
Qed.

(** ** The identifier field *)

Section identifier.
Variable ext : externals.

Lemma scan_namespaces_keys_declared nss k : forall fields,
  k ∈ od_keys (foldl (fun fs ns => foldl scan_field fs ns) fields nss) ->
  k ∈ od_keys fields \/ exists ns item, ns ∈ nss /\ (k, MField item) ∈ ns.
Proof.
  induction nss as [|ns nss IH]; intros fields Hk; simpl in *; [by left|].
  destruct (IH _ Hk) as [Hin|(ns' & item & Hns & Hin)].
  - apply scan_fields_keys_declared in Hin as [Hin|[item Hin]]; [by left|].
    right. exists ns, item. split; [apply elem_of_cons; by left|done].
  - right. exists ns', item. split; [apply elem_of_cons; by right|done].
Qed.

Lemma undeclared_not_in_schema cls k :
  (forall c item, c ∈ __mro__ cls -> (k, MField item) ∉ __dict__ c) ->
  k ∉ od_keys (BaseDocumentMeta._get_fields cls).1.
Proof.
  intros Hno Hk. rewrite get_fields_fst in Hk.
  apply scan_namespaces_keys_declared in Hk as [Hk|(ns & item & Hns & Hin)].
  - by apply elem_of_nil in Hk.
  - unfold BaseDocumentMeta.mro_ns_gen in Hns.
    apply list_elem_of_fmap in Hns as (c & -> & Hc).
    apply list_elem_of_filter in Hc as [_ Hc]. rewrite elem_of_reverse in Hc.
    exact (Hno c item Hc Hin).
Qed.

Lemma DocumentMeta_fields_have_required_id cls fields synonyms :
  (DocumentMeta._get_fields ext cls).1 = inr (fields, synonyms) ->
  exists id_field, od_get "_id" fields = Some id_field /\ Field.required id_field = true.
Proof.
  unfold DocumentMeta._get_fields.
  destruct (BaseDocumentMeta._get_fields cls) as [fs ss].
  destruct (od_get "_id" fs) as [id_field|] eqn:Hid.
  - destruct (Field.required id_field) eqn:Hreq; [|done].
    simpl. intros [= <- <-]. by exists id_field.
  - simpl. intros [= <- <-]. exists (DocumentMeta.default_id_field ext).
    rewrite od_get_set. by rewrite decide_True.
Qed.

(** [_get_fields] sets nothing on a class whose gathered schema has an
    [_id]. *)
Lemma DocumentMeta_get_fields_class cls :
  is_Some (od_get "_id" (BaseDocumentMeta._get_fields cls).1) ->
  (DocumentMeta._get_fields ext cls).2 = cls.
Proof.
  unfold DocumentMeta._get_fields.
  destruct (BaseDocumentMeta._get_fields cls) as [fs ss]. simpl.
  intros [id_field ->]. by destruct (Field.required id_field).
Qed.

(** What [_get_fields] sets on a class adds no other [_id] field to the
    hierarchy than the default identifier. *)
Lemma injected_only_preserved cls :
  injected_only ext cls -> injected_only ext (DocumentMeta._get_fields ext cls).2.
Proof.
  intros Hcls. unfold DocumentMeta._get_fields.
  destruct (BaseDocumentMeta._get_fields cls) as [fs ss].
  destruct (od_get "_id" fs) as [id_field|]; [by destruct (Field.required id_field)|].
  simpl. intros c item Hc Hin. unfold __mro__ in Hc. simpl in Hc.
  apply elem_of_cons in Hc as [->|Hc].
  - simpl in Hin. apply od_set_elem_of in Hin as [[= ->]|Hin]; [done|].
    apply (Hcls (this cls)); [apply elem_of_cons; by left|done].
  - apply (Hcls c); [apply elem_of_cons; by right|done].
Qed.

(** In a hierarchy without a user-declared [_id] the schema's [_id], if it
    has one, is the default identifier. *)
Lemma injected_only_schema cls id_field :
  injected_only ext cls ->
  od_get "_id" (BaseDocumentMeta._get_fields cls).1 = Some id_field ->
  id_field = DocumentMeta.default_id_field ext.
Proof.
  intros Hcls Hid. apply od_get_elem_of in Hid.
  apply get_fields_sound in Hid as (c & item & Hc & _ & Hdecl & ->).
  by rewrite (Hcls c item Hc Hdecl).
Qed.

(** The class [_get_fields] leaves hands its identifier on to whoever
    walks it. *)
Lemma injected_only_handed_on cls :
  injected_only ext cls ->
  __name__ (this cls) ∉ BaseDocumentMeta.ignore_bases ->
  od_get "_id" (BaseDocumentMeta._get_fields (DocumentMeta._get_fields ext cls).2).1
  = Some (DocumentMeta.default_id_field ext).
Proof.
  intros Hcls Hname.
  pose proof (injected_only_preserved cls Hcls) as Hcls'.
  assert (Hkey : "_id" ∈ od_keys
            (BaseDocumentMeta._get_fields (DocumentMeta._get_fields ext cls).2).1).
  { unfold DocumentMeta._get_fields.
    destruct (BaseDocumentMeta._get_fields cls) as [fs ss] eqn:Hbase.
    destruct (od_get "_id" fs) as [id_field|] eqn:Hid.
    - assert (Hsame : (if Field.required id_field
                       then (inr (fs, ss), cls)
                       else (inl (ValueError
                                    ("'" +:+ __name__ (this cls)
                                     +:+ "._id' field should be required.")), cls)).2
                      = cls) by (by destruct (Field.required id_field)).
      rewrite Hsame, Hbase. simpl. apply od_get_is_Some. by eexists.
    - simpl.
      apply (get_fields_complete _
               (this (setattr cls "_id" (MField (DocumentMeta.default_id_field ext))))
               "_id" (DocumentMeta.default_id_field ext)).
      + apply elem_of_cons. by left.
      + done.
      + simpl. apply od_set_elem_of_new. }
  apply od_get_is_Some in Hkey as [id_field Hid]. rewrite Hid. f_equal.
  by apply (injected_only_schema _ _ Hcls').
Qed.
End identifier.

(** C4.  For a top-level document class.  When no class of its hierarchy
    has a field named [_id], [DocumentMeta._get_fields] appends the
    default identifier field to the schema and sets it on the class, which
    is how the classes derived from it come to it.  When no [_id] of the
    hierarchy is declared by the user (each one is the default identifier
    the metaclass has set on an ancestor), the class gets the default
    identifier whether it is the first of its line or derived: the schema
    maps [_id] to it, the class as it is left hands it on to the classes
    that walk it, and a class derived from it that declares no [_id] takes
    it over at the place it has in the schema walked for the parent, with
    nothing being set on the derived class.  That field is required and its
    default is a factory that draws a fresh object identifier each time it
    is read (a later draw never repeats an earlier one).  When the schema
    has a user-declared [_id] that is not required, [_get_fields], and with
    it the definition of the class, fails with the error that says so.
    All of this is settled when the class is defined: a class that has
    been defined has a required [_id] in its schema, and constructing an
    instance never raises that error. *)
Theorem identifier_field_rule (ext : externals) (cls : new_class) :
  let base := BaseDocumentMeta._get_fields cls in
  let default_id := DocumentMeta.default_id_field ext in
  ((forall c item, c ∈ __mro__ cls -> ("_id", MField item) ∉ __dict__ c) ->
     DocumentMeta._get_fields ext cls
     = (inr (base.1 ++ [("_id", default_id)], base.2),
        setattr cls "_id" (MField default_id)))
  /\ (injected_only ext cls ->
      let cls' := (DocumentMeta._get_fields ext cls).2 in
      (exists fields,
         (DocumentMeta._get_fields ext cls).1 = inr (fields, base.2)
         /\ od_get "_id" fields = Some default_id)
      /\ injected_only ext cls'
      /\ (__name__ (this cls) ∉ BaseDocumentMeta.ignore_bases ->
          od_get "_id" (BaseDocumentMeta._get_fields cls').1 = Some default_id
          /\ forall sub,
               ancestors sub = __mro__ cls' ->
               __name__ (this sub) ∉ BaseDocumentMeta.ignore_bases ->
               (forall item, ("_id", MField item) ∉ __dict__ (this sub)) ->
               DocumentMeta._get_fields ext sub
               = (inr (BaseDocumentMeta._get_fields sub), sub)
               /\ od_get "_id" (BaseDocumentMeta._get_fields sub).1 = Some default_id
               /\ od_index "_id" (BaseDocumentMeta._get_fields sub).1
                  = od_index "_id" (BaseDocumentMeta._get_fields cls').1
               /\ od_keys (BaseDocumentMeta._get_fields cls').1
                    `prefix_of` od_keys (BaseDocumentMeta._get_fields sub).1))
  /\ (Field.required default_id = true
      /\ Field._default default_id = Factory ObjectId
      /\ forall w, exists v,
           Field.default default_id w = (Some v, S w)
           /\ forall w2, w < w2 -> (Field.default default_id w2).1 <> Some v)
  /\ (forall id_field,
        od_get "_id" base.1 = Some id_field ->
        Field.required id_field = false ->
        DocumentMeta._get_fields ext cls = (inl (id_not_required cls), cls)
        /\ (__name__ (this cls) ∉ ["Document"; "EmbeddedDocument"] ->
            (__new__ ext DocumentMeta_ cls).1 = inl (id_not_required cls)))
  /\ (forall meta,
        (__new__ ext DocumentMeta_ cls).1 = inr (Some meta) ->
        exists id_field,
          od_get "_id" (Meta.fields meta) = Some id_field
          /\ Field.required id_field = true)
  /\ (forall meta _empty kwargs w msg,
        (BaseDocument.__init__ meta _empty kwargs w).1 <> inl (ValueError msg)).
Proof.
  intros base default_id. split_and!.
  - intros Hno. unfold DocumentMeta._get_fields, base.
    pose proof (undeclared_not_in_schema cls "_id" Hno) as Hid.
    destruct (BaseDocumentMeta._get_fields cls) as [fs ss]. simpl in *.
    apply od_get_None in Hid. rewrite Hid. by rewrite od_set_fresh by (by apply od_get_None).
  - intros Hcls cls'. split_and!.
    + pose proof (injected_only_schema ext cls) as Hschema.
      unfold DocumentMeta._get_fields, base.
      destruct (BaseDocumentMeta._get_fields cls) as [fs ss]. simpl in *.
      destruct (od_get "_id" fs) as [id_field|] eqn:Hid.
      * pose proof (Hschema id_field Hcls eq_refl) as ->. simpl. by exists fs.
      * simpl. exists (od_set "_id" (DocumentMeta.default_id_field ext) fs).
        split; [done|]. rewrite od_get_set. by rewrite decide_True.
    + by apply injected_only_preserved.
    + intros Hname.
      pose proof (injected_only_handed_on ext cls Hcls Hname) as Hhanded.
      fold cls' in Hhanded. split; [done|].
      intros sub Hanc Hsub Hown.
      pose proof (get_fields_sub sub cls' Hanc Hsub) as Hfields.
      assert (Hkey : "_id" ∈ od_keys (BaseDocumentMeta._get_fields cls').1).
      { apply od_get_is_Some. by eexists. }
      assert (Hprefix : od_keys (BaseDocumentMeta._get_fields cls').1
                          `prefix_of` od_keys (BaseDocumentMeta._get_fields sub).1).
      { rewrite Hfields. apply scan_fields_keys_prefix. }
      assert (Hsubcls : injected_only ext sub).
      { intros c item Hc Hin. unfold __mro__ in Hc. rewrite Hanc in Hc.
        apply elem_of_cons in Hc as [->|Hc]; [by apply Hown in Hin|].
        by apply (injected_only_preserved ext cls Hcls c item). }
      assert (Hsubkey : "_id" ∈ od_keys (BaseDocumentMeta._get_fields sub).1).
      { destruct Hprefix as [k ->]. apply elem_of_app. by left. }
      apply od_get_is_Some in Hsubkey as [id_field Hid].
      pose proof (injected_only_schema ext sub id_field Hsubcls Hid) as ->.
      split_and!.
      * unfold DocumentMeta._get_fields.
        destruct (BaseDocumentMeta._get_fields sub) as [fs ss]. simpl in Hid.
        by rewrite Hid.
      * done.
      * rewrite Hfields. by apply scan_fields_index.
      * done.
  - done.
  - done.
  - intros w. exists (VObjectId w). split; [done|].
    intros w2 Hlt. unfold Field.default. simpl. intros [= ->]. lia.
  - intros id_field Hid Hreq.
    assert (Hfields : DocumentMeta._get_fields ext cls = (inl (id_not_required cls), cls)).
    { unfold DocumentMeta._get_fields. fold base. destruct base as [fs ss]. simpl in Hid.
      by rewrite Hid, Hreq. }
    split; [done|]. intros Hname. unfold __new__. rewrite decide_False by done.
    simpl. by rewrite Hfields.
  - intros meta. unfold __new__.
    destruct (decide (__name__ (this cls) ∈ ["Document"; "EmbeddedDocument"])); [done|].
    simpl. destruct (DocumentMeta._get_fields ext cls) as [[e|[fs ss]] cls'] eqn:Hfields;
      [done|].
    unfold Meta.call, Meta.__init__. destruct (decide ("self" ∈ _)); [done|].
    destruct (Meta._validate_options _); [done|].
    simpl. intros [= <-]. simpl.
    eapply DocumentMeta_fields_have_required_id. by rewrite Hfields.
  - intros meta _empty kwargs w msg. unfold BaseDocument.__init__.
    destruct _empty; [done|].
    destruct (foldl _ _ _) as [[w1 self] errors]. by destruct errors.
Qed.

(** ** Configuration rejection *)

Section options.
Lemma string_app_assoc (a b c : string) : (a +:+ b) +:+ c = a +:+ b +:+ c.
Proof.
  induction a as [|ch a IH]; [done|].
  change (String ch ((a +:+ b) +:+ c) = String ch (a +:+ b +:+ c)).
  by rewrite IH.
Qed.

Lemma string_app_nil_r (a : string) : a +:+ "" = a.
Proof.
  induction a as [|ch a IH]; [done|].
  change (String ch (a +:+ "") = String ch a). by rewrite IH.
Qed.

Lemma names_key_app a msg b k : names_key msg k -> names_key (a +:+ msg +:+ b) k.
Proof.
  intros (before & after & ->). exists (a +:+ before), (after +:+ b).
  by rewrite !string_app_assoc.
Qed.

Lemma join_names_key sep l k : k ∈ l -> names_key (Meta.join sep l) k.
Proof.
  unfold Meta.join. induction l as [|x l IH]; intros Hin.
  - by apply elem_of_nil in Hin.
  - destruct l as [|y l].
    + apply list_elem_of_singleton in Hin as ->. exists "", "". simpl.
      by rewrite string_app_nil_r.
    + apply elem_of_cons in Hin as [->|Hin].
      * exists "", (sep +:+ String.concat sep (y :: l)). done.
      * destruct (IH Hin) as (before & after & Heq).
        exists (x +:+ sep +:+ before), after.
        change (String.concat sep (x :: y :: l))
          with (x +:+ sep +:+ String.concat sep (y :: l)).
        rewrite Heq. by rewrite !string_app_assoc.
Qed.

Lemma validate_options_spec (keys : gset string) :
  (keys ⊆ Meta.OPTIONS -> Meta._validate_options keys = inr tt)
  /\ (~ keys ⊆ Meta.OPTIONS ->
      exists msg, Meta._validate_options keys = inl (ValueError msg)
                  /\ forall k, k ∈ keys -> k ∉ Meta.OPTIONS -> names_key msg k).
Proof.
  unfold Meta._validate_options. split.
  - intros Hsub. rewrite decide_True; [done|]. set_solver.
  - intros Hnsub. rewrite decide_False.
    + eexists. split; [done|]. intros k Hk Hno.
      apply names_key_app. apply join_names_key.
      apply elem_of_elements. set_solver.
    + intros Hempty. apply Hnsub. intros k Hk.
      destruct (decide (k ∈ Meta.OPTIONS)) as [|Hno]; [done|].
      exfalso. assert (k ∈ keys ∖ Meta.OPTIONS) as Hd by set_solver.
      rewrite Hempty in Hd. set_solver.
Qed.

Lemma schema_keys_recognized (keys : gset string) :
  keys ∪ {[ "fields"; "fields_synonyms" ]} ⊆ Meta.OPTIONS <-> keys ⊆ Meta.OPTIONS.
Proof. unfold Meta.OPTIONS. set_solver. Qed.

Lemma meta_options_recognized ext mcls cls :
  dom (_get_meta_options ext mcls cls) ⊆ Meta.OPTIONS
  <-> dom (BaseDocumentMeta._get_meta_options cls) ⊆ Meta.OPTIONS.
Proof.
  destruct mcls; simpl; [|done]. unfold DocumentMeta._get_meta_options.
  assert (Hc : "collection_name" ∈ Meta.OPTIONS) by (unfold Meta.OPTIONS; set_solver).
  assert (Hq : "query_class" ∈ Meta.OPTIONS) by (unfold Meta.OPTIONS; set_solver).
  repeat case_decide; rewrite ?dom_insert_L; set_solver.
Qed.

Lemma meta_options_no_self ext mcls cls :
  "self" ∉ dom (BaseDocumentMeta._get_meta_options cls) ->
  "self" ∉ dom (_get_meta_options ext mcls cls).
Proof.
  destruct mcls; simpl; [|done]. unfold DocumentMeta._get_meta_options.
  repeat case_decide; rewrite ?dom_insert_L; set_solver.
Qed.

Lemma meta_options_keep ext mcls cls k :
  k ∈ dom (BaseDocumentMeta._get_meta_options cls) ->
  k ∈ dom (_get_meta_options ext mcls cls).
Proof.
  destruct mcls; simpl; [|done]. unfold DocumentMeta._get_meta_options.
  repeat case_decide; rewrite ?dom_insert_L; set_solver.
Qed.
End options.

(** C8.  [Meta] accepts a configuration block exactly when all its keys
    are recognized options; otherwise it raises an error whose message
    names every key of the block that is not.  The definition of a class
    hands [Meta] the declared block (with what the metaclass adds, which is
    recognized), so that, once the schema has been gathered and the block
    has been bound to the keyword arguments of [Meta], it fails in that way
    exactly when the declared block has an unrecognized key. *)
Theorem unrecognized_options_rejected :
  (forall (kwargs : gmap string value) fields synonyms,
     (dom kwargs ⊆ Meta.OPTIONS ->
      exists meta, Meta.__init__ kwargs fields synonyms = inr meta)
     /\ (~ dom kwargs ⊆ Meta.OPTIONS ->
         exists msg,
           Meta.__init__ kwargs fields synonyms = inl (ValueError msg)
           /\ forall k, k ∈ dom kwargs -> k ∉ Meta.OPTIONS -> names_key msg k))
  /\ (forall ext mcls cls fields synonyms,
        __name__ (this cls) ∉ ["Document"; "EmbeddedDocument"] ->
        (_get_fields ext mcls cls).1 = inr (fields, synonyms) ->
        let block := BaseDocumentMeta._get_meta_options cls in
        "self" ∉ dom block ->
        (dom block ⊆ Meta.OPTIONS ->
         exists meta, (__new__ ext mcls cls).1 = inr (Some meta))
        /\ (~ dom block ⊆ Meta.OPTIONS ->
            exists msg,
              (__new__ ext mcls cls).1 = inl (ValueError msg)
              /\ forall k, k ∈ dom block -> k ∉ Meta.OPTIONS -> names_key msg k)).
Proof.
  assert (Hmeta : forall (kwargs : gmap string value) fields synonyms,
     (dom kwargs ⊆ Meta.OPTIONS ->
      exists meta, Meta.__init__ kwargs fields synonyms = inr meta)
     /\ (~ dom kwargs ⊆ Meta.OPTIONS ->
         exists msg,
           Meta.__init__ kwargs fields synonyms = inl (ValueError msg)
           /\ forall k, k ∈ dom kwargs -> k ∉ Meta.OPTIONS -> names_key msg k)).
  { intros kwargs fields synonyms. unfold Meta.__init__.
    destruct (validate_options_spec (dom kwargs ∪ {[ "fields"; "fields_synonyms" ]}))
      as [Hok Hbad].
    split.
    - intros Hsub. rewrite Hok by (by apply schema_keys_recognized). by eexists.
    - intros Hnsub. destruct Hbad as (msg & -> & Hnames).
      + intros Hsub. apply Hnsub. by apply schema_keys_recognized.
      + exists msg. split; [done|]. intros k Hk Hno. apply Hnames; [set_solver|done]. }
  split; [exact Hmeta|].
  intros ext mcls cls fields synonyms Hname Hfields block Hself.
  unfold __new__. rewrite decide_False by done. simpl.
  destruct (_get_fields ext mcls cls) as [r cls']. simpl in Hfields. subst r.
  unfold Meta.call. rewrite decide_False by (by apply meta_options_no_self).
  destruct (Hmeta (_get_meta_options ext mcls cls) fields synonyms) as [Hok Hbad].
  split.
  - intros Hsub. destruct Hok as [meta ->]; [by apply meta_options_recognized|].
    by eexists.
  - intros Hnsub. destruct Hbad as (msg & -> & Hnames).
    + intros Hsub. apply Hnsub. by apply (meta_options_recognized ext mcls cls).
    + exists msg. split; [done|]. intros k Hk Hno.
      apply Hnames; [by apply meta_options_keep|done].
Qed.

(** ** Options resolution *)

Lemma new_class_options ext mcls cls m :
  (__new__ ext mcls cls).1 = inr (Some m) ->
  let options := _get_meta_options ext mcls cls in
  options_of m
  = [Meta.get options "query_class" VNone; Meta.get options "collection_name" VNone;
     Meta.get options "default_query" (VDict []); Meta.get options "default_sort" VNone;
     Meta.get options "indexes" VNone; Meta.get options "codec_options" VNone;
     Meta.get options "read_preference" VNone; Meta.get options "read_concern" VNone;
     Meta.get options "write_concern" VNone].
Proof.
  unfold __new__.
  destruct (decide (__name__ (this cls) ∈ ["Document"; "EmbeddedDocument"])); [done|].
  destruct (_get_fields ext mcls cls) as [[e|[fs ss]] cls']; [done|].
  unfold Meta.call, Meta.__init__. destruct (decide ("self" ∈ _)); [done|].
  destruct (Meta._validate_options _); [done|].
  simpl. by intros [= <-].
Qed.

Lemma meta_options_lookup ext mcls cls key :
  _get_meta_options ext mcls cls !! key
  = match BaseDocumentMeta._get_meta_options cls !! key with
    | Some v => Some v
    | None =>
        match mcls with
        | DocumentMeta_ =>
            if decide (key = "collection_name")
            then Some (VStr (snake_case ext (__name__ (this cls))))
            else if decide (key = "query_class") then Some (MotorQuerySet ext)
            else None
        | EmbeddedDocumentMeta_ => None
        end
    end.
Proof.
  destruct mcls; simpl; [|by destruct (_ !! key)].
  unfold DocumentMeta._get_meta_options, DocumentMeta.query_class.
  set (block := BaseDocumentMeta._get_meta_options cls).
  destruct (decide (key = "collection_name")) as [->|Hc].
  - destruct (block !! "collection_name") as [v|] eqn:Hb.
    + rewrite (decide_True (P := is_Some (Some v))) by eauto.
      case_decide; [done|]. by rewrite lookup_insert_ne.
    + rewrite (decide_False (P := is_Some None)) by (by intros [? ?]).
      case_decide; [by rewrite lookup_insert_eq|].
      rewrite lookup_insert_ne by done. by rewrite lookup_insert_eq.
  - destruct (decide (key = "query_class")) as [->|Hq].
    + destruct (decide (is_Some (block !! "collection_name"))) as [Hs|Hs].
      * destruct (block !! "query_class") as [v|] eqn:Hb.
        -- by rewrite (decide_True (P := is_Some (Some v))) by eauto.
        -- rewrite (decide_False (P := is_Some None)) by (by intros [? ?]).
           by rewrite lookup_insert_eq.
      * rewrite lookup_insert_ne by done.
        destruct (block !! "query_class") as [v|] eqn:Hb.
        -- rewrite (decide_True (P := is_Some (Some v))) by eauto.
           rewrite lookup_insert_ne by done. by rewrite Hb.
        -- rewrite (decide_False (P := is_Some None)) by (by intros [? ?]).
           by rewrite lookup_insert_eq.
    + repeat case_decide; rewrite ?lookup_insert_ne by done; by destruct (block !! key).
Qed.

(** C9, amended.  The options of a class are computed from its own [Meta]
    block alone, whatever its ancestors declare: each option is the value
    the block declares for it or else a computed default.  The default of
    the collection name is the snake case of the class name, and that of
    the query class is [MotorQuerySet], for a top-level document class;
    an embedded document class has neither (both stay [None]).  The default
    of the default query is the empty query and the other defaults are
    [None]. *)
Theorem options_from_own_block_only
    (ext : externals) (mcls : metaclass) (c : pyclass) (anc1 anc2 : list pyclass) :
  let cls1 := {| this := c; ancestors := anc1 |} in
  let cls2 := {| this := c; ancestors := anc2 |} in
  let block := BaseDocumentMeta._get_meta_options cls1 in
  _get_meta_options ext mcls cls1 = _get_meta_options ext mcls cls2
  /\ (forall m1 m2,
        (__new__ ext mcls cls1).1 = inr (Some m1) ->
        (__new__ ext mcls cls2).1 = inr (Some m2) ->
        options_of m1 = options_of m2)
  /\ (forall m,
        (__new__ ext mcls cls1).1 = inr (Some m) ->
        options_of m
        = [default (default_query_class ext mcls) (block !! "query_class");
           default (default_collection_name ext mcls cls1) (block !! "collection_name");
           default (VDict []) (block !! "default_query");
           default VNone (block !! "default_sort");
           default VNone (block !! "indexes");
           default VNone (block !! "codec_options");
           default VNone (block !! "read_preference");
           default VNone (block !! "read_concern");
           default VNone (block !! "write_concern")]).
Proof.
  intros cls1 cls2 block. split_and!.
  - by destruct mcls.
  - intros m1 m2 H1 H2.
    rewrite (new_class_options _ _ _ _ H1), (new_class_options _ _ _ _ H2).
    by destruct mcls.
  - intros m Hm. rewrite (new_class_options _ _ _ _ Hm). unfold Meta.get.
    rewrite !meta_options_lookup. fold block.
    destruct mcls; simpl;
      destruct (block !! "query_class"), (block !! "collection_name"),
               (block !! "default_query"), (block !! "default_sort"),
               (block !! "indexes"), (block !! "codec_options"),
               (block !! "read_preference"), (block !! "read_concern"),
               (block !! "write_concern"); reflexivity.
Qed.

(** C9 as it is written fails for an embedded document class: [Reading]
    declares no collection name and gets none. *)
Lemma embedded_class_has_no_collection_name :
  ~ collection_name_defaults_to_snake_case Sample.ext EmbeddedDocumentMeta_ Reading.
Proof.
  intros Hclaim. specialize (Hclaim Reading_meta).
  assert (Meta.collection_name Reading_meta = VNone) as Hnone by (by vm_compute).
  rewrite Hnone in Hclaim. by discriminate Hclaim; vm_compute.
Qed.

(** ** Two fields under one wire name *)

Lemma Clash_construct :
  BaseDocument.__init__ Clash_meta false Clash_kwargs 0 = (inr Clash_inst, 0).
Proof. by vm_compute. Qed.

Lemma Clash_fields_exact n f v :
  (n, f) ∈ Meta.fields Clash_meta -> Field.from_son f (Field.to_son f v) = v.
Proof.
  intros Hin. change (Meta.fields Clash_meta)
    with [("a", Field.with_name "a" (Sample.IntField false NoDefault "x"));
          ("b", Field.with_name "b" (Sample.IntField false NoDefault "x"))] in Hin.
  apply elem_of_cons in Hin as [[= -> ->]|Hin]; [done|].
  apply elem_of_cons in Hin as [[= -> ->]|Hin]; [done|].
  by apply elem_of_nil in Hin.
Qed.

(** C2 as it is written fails when two fields share a wire name: the record
    of [Clash_inst] has the single entry [x = 2], and loading it sets both
    fields to 2. *)
Lemma round_trip_fails_on_shared_wire_name : ~ round_trip_law Clash_meta.
Proof.
  intros Hlaw.
  specialize (Hlaw Clash_kwargs 0 Clash_inst 0 Clash_construct
                (fun n f v Hin _ => Clash_fields_exact n f v Hin) 0).
  vm_compute in Hlaw. discriminate Hlaw.
Qed.

(** C7 as it is written fails when two fields share a wire name: both
    fields of [Clash_inst] have a value and the record has one entry. *)
Lemma to_son_merges_shared_wire_name :
  ~ to_son_emits_exactly_set_fields Clash_meta Clash_inst.
Proof. intros [Hexact _]. vm_compute in Hexact. discriminate Hexact. Qed.

(** ** The theorems at work on sample classes *)

Lemma construct_reports_all_omitted_required_fields_witness :
  NoDup (od_keys (Meta.fields Pair_meta))
  /\ values_validate Pair_meta Pair_kwargs (Meta.fields Pair_meta)
  /\ reports_exactly (omitted_required_fields Pair_meta Pair_kwargs)
       (BaseDocument.__init__ Pair_meta false Pair_kwargs 0).1
  /\ ("self" ∉ dom Pair_kwargs)
  /\ truthy (default (VBool false) (Pair_kwargs !! "_empty")) = false
  /\ values_validate Pair_meta (bound_kwargs Pair_kwargs) (Meta.fields Pair_meta)
  /\ reports_exactly (omitted_required_fields Pair_meta (bound_kwargs Pair_kwargs))
       (BaseDocument.from_data "Pair" Pair_meta (Mapping Pair_kwargs) 0).1
  /\ ("b", Field.with_name "b" (Sample.StrField true NoDefault "b"))
       ∈ omitted_required_fields Pair_meta Pair_kwargs
  /\ exists errors,
       (BaseDocument.__init__ Pair_meta false Pair_kwargs 0).1
       = inl (ValidationErr (VErrors errors))
       /\ od_get "b" errors = Some (VError "field is required").
Proof.
  assert (Hnd : NoDup (od_keys (Meta.fields Pair_meta))) by by_evaluation.
  assert (Hval : values_validate Pair_meta Pair_kwargs (Meta.fields Pair_meta)).
  { intros n f w v Hin Hres. vm_compute in Hin.
    apply elem_of_cons in Hin as [[= -> ->]|Hin]; [vm_compute in Hres; discriminate Hres|].
    apply elem_of_cons in Hin as [[= -> ->]|Hin]; [vm_compute in Hres; discriminate Hres|].
    apply elem_of_cons in Hin as [[= -> ->]|Hin]; [|by apply elem_of_nil in Hin].
    vm_compute in Hres. injection Hres as <-. vm_compute. by eexists. }
  assert (Hself : "self" ∉ dom Pair_kwargs) by by_evaluation.
  assert (Hflag : truthy (default (VBool false) (Pair_kwargs !! "_empty")) = false)
    by reflexivity.
  assert (Hbound : bound_kwargs Pair_kwargs = Pair_kwargs).
  { unfold bound_kwargs. by apply delete_id. }
  assert (Hval' : values_validate Pair_meta (bound_kwargs Pair_kwargs)
                    (Meta.fields Pair_meta)) by (by rewrite Hbound).
  assert (Hb : ("b", Field.with_name "b" (Sample.StrField true NoDefault "b"))
               ∈ omitted_required_fields Pair_meta Pair_kwargs).
  { apply list_elem_of_filter. split; [by vm_compute|].
    apply od_get_elem_of. vm_compute. reflexivity. }
  destruct (construct_reports_all_omitted_required_fields Pair_meta 0 Hnd)
    as (Hinit & Hdata & Hall).
  split_and!; [exact Hnd|exact Hval|exact (Hinit Pair_kwargs Hval)|exact Hself|exact Hflag|
               exact Hval'|exact (Hdata "Pair" Pair_kwargs Hself Hflag Hval')|exact Hb|
               exact (Hall Pair_kwargs _ _ Hb)].
Defined.

(** C1 as it is written fails for data that sets the constructor's own
    flag: [{_empty: True}] supplies no value at all, the required field
    [name] of [User] is omitted, and [from_data] returns an empty instance
    instead of reporting it. *)
Lemma empty_flag_hides_omitted_required_fields :
  ~ omitted_required_fields_are_reported "User" Sample.User_meta Empty_flag_kwargs 0.
Proof.
  intros Hclaim.
  assert (Hnone : forallb (fun e : string * Field.t =>
                             negb (in_input Sample.User_meta Empty_flag_kwargs e.1))
                          (Meta.fields Sample.User_meta) = true)
    by (vm_compute; reflexivity).
  destruct Hclaim as (errors & Hres & _).
  - intros n f v Hin Hv. exfalso. apply list_elem_of_In in Hin.
    pose proof (proj1 (forallb_forall _ _) Hnone _ Hin) as Hn. simpl in Hn.
    apply negb_true_iff in Hn. rewrite in_input_lookup, Hv in Hn.
    apply bool_decide_eq_false in Hn. apply Hn. by eexists.
  - intros Hnil.
    assert (Hin : ("name", Field.with_name "name" (Sample.StrField true NoDefault "name"))
                  ∈ omitted_required_fields Sample.User_meta Empty_flag_kwargs).
    { apply list_elem_of_filter. split; [by vm_compute|].
      apply od_get_elem_of. vm_compute. reflexivity. }
    rewrite Hnil in Hin. by apply elem_of_nil in Hin.
  - vm_compute in Hres. discriminate Hres.
Qed.

Example Empty_flag_construct :
  BaseDocument.from_data "User" Sample.User_meta (Mapping Empty_flag_kwargs) 0
  = (inr (BaseDocument.mk []), 0)
  /\ od_keys (omitted_required_fields Sample.User_meta Empty_flag_kwargs) = ["name"].
Proof. by vm_compute. Qed.

Example Pair_errors :
  (BaseDocument.__init__ Pair_meta false Pair_kwargs 0).1
  = inl (ValidationErr (VErrors [("a", VError "field is required");
                                  ("b", VError "field is required")])).
Proof. by vm_compute. Qed.

Lemma User_fields_exact n f v :
  (n, f) ∈ Meta.fields Sample.User_meta -> Field.from_son f (Field.to_son f v) = v.
Proof.
  intros Hin. vm_compute in Hin.
  apply elem_of_cons in Hin as [[= -> ->]|Hin]; [done|].
  apply elem_of_cons in Hin as [[= -> ->]|Hin]; [done|].
  apply elem_of_cons in Hin as [[= -> ->]|Hin]; [done|].
  by apply elem_of_nil in Hin.
Qed.

Lemma from_son_to_son_round_trip_witness :
  NoDup (field_names Sample.User_meta)
  /\ NoDup (wire_names Sample.User_meta)
  /\ BaseDocument.__init__ Sample.User_meta false Ann_kwargs 7 = (inr Ann, 8)
  /\ forall w2,
       BaseDocument.from_son Sample.User_meta (BaseDocument.to_son Sample.User_meta Ann) w2
       = (inr Ann, w2).
Proof.
  assert (Hnd : NoDup (field_names Sample.User_meta)) by by_evaluation.
  assert (Hwire : NoDup (wire_names Sample.User_meta)) by by_evaluation.
  assert (Hinit : BaseDocument.__init__ Sample.User_meta false Ann_kwargs 7 = (inr Ann, 8))
    by (vm_compute; reflexivity).
  split_and!; [exact Hnd|exact Hwire|exact Hinit|].
  exact (from_son_to_son_round_trip Sample.User_meta Ann_kwargs 7 8 Ann Hnd Hwire Hinit
           (fun n f v Hin _ => User_fields_exact n f v Hin)).
Defined.

Lemma to_son_sparse_in_schema_order_witness :
  NoDup (wire_names Pair_meta)
  /\ to_son_emits_exactly_set_fields Pair_meta (BaseDocument.mk [("a", VStr "u"); ("c", VInt 1)]).
Proof.
  assert (Hwire : NoDup (wire_names Pair_meta)) by by_evaluation.
  split; [exact Hwire|].
  exact (to_son_sparse_in_schema_order Pair_meta _ Hwire).
Defined.

Example Pair_to_son :
  BaseDocument.to_son Pair_meta (BaseDocument.mk [("a", VStr "u"); ("c", VInt 1)])
  = [("a", VStr "u"); ("c", VInt 1)].
Proof. by vm_compute. Qed.

Lemma from_son_never_fails_witness :
  NoDup (field_names Sample.User_meta)
  /\ exists inst,
       BaseDocument.from_son Sample.User_meta Ann_record 0 = (inr inst, 0)
       /\ (forall n f, (n, f) ∈ Meta.fields Sample.User_meta ->
             BaseDocument.get inst n
             = Field.from_son f <$> od_get (Field.mongo_name f) Ann_record)
       /\ (forall k, k ∉ field_names Sample.User_meta -> BaseDocument.get inst k = None)
       /\ BaseDocument.from_son Sample.User_meta
            (filter (fun kv : string * value => kv.1 ∈ wire_names Sample.User_meta)
                    Ann_record) 0
          = (inr inst, 0)
       /\ (forall meta', wire_view meta' = wire_view Sample.User_meta ->
             BaseDocument.from_son meta' Ann_record 0 = (inr inst, 0)).
Proof.
  assert (Hnd : NoDup (field_names Sample.User_meta)) by by_evaluation.
  split; [exact Hnd|].
  exact (from_son_never_fails Sample.User_meta Ann_record 0 Hnd).
Defined.

Example Ann_record_loaded :
  BaseDocument.from_son Sample.User_meta Ann_record 0
  = (inr (BaseDocument.mk [("name", VStr "Ann"); ("_id", VObjectId 7)]), 0).
Proof. by vm_compute. Qed.

Lemma construct_resolves_by_precedence_witness :
  NoDup (field_names Reading_meta)
  /\ BaseDocument.__init__ Reading_meta false Reading_kwargs 0
     = (inr (BaseDocument.mk [("value", VInt 5)]), 0)
  /\ ("value", Field.with_name "value" (Sample.IntField true NoDefault "value"))
       ∈ Meta.fields Reading_meta
  /\ exists resolved,
       resolves Reading_meta Reading_kwargs "value"
         (Field.with_name "value" (Sample.IntField true NoDefault "value")) resolved
       /\ match resolved with
          | Some v =>
              stores (BaseDocument.mk [("value", VInt 5)]) "value"
                (Field.with_name "value" (Sample.IntField true NoDefault "value")) v
          | None => BaseDocument.get (BaseDocument.mk [("value", VInt 5)]) "value" = None
          end.
Proof.
  assert (Hnd : NoDup (field_names Reading_meta)) by by_evaluation.
  assert (Hinit : BaseDocument.__init__ Reading_meta false Reading_kwargs 0
                  = (inr (BaseDocument.mk [("value", VInt 5)]), 0))
    by (vm_compute; reflexivity).
  assert (Hin : ("value", Field.with_name "value" (Sample.IntField true NoDefault "value"))
                  ∈ Meta.fields Reading_meta)
    by (apply elem_of_cons; left; vm_compute; reflexivity).
  split_and!; [exact Hnd|exact Hinit|exact Hin|].
  exact (proj1 construct_resolves_by_precedence Reading_meta Reading_kwargs 0 0 _
           Hnd Hinit _ _ Hin).
Defined.

Lemma construct_ignores_unknown_keys_witness :
  ("self" ∉ dom Extra_kwargs)
  /\ truthy (default (VBool false) (Extra_kwargs !! "_empty")) = false
  /\ unknown_keys_are_ignored "User" Sample.User_meta Extra_kwargs 7
  /\ BaseDocument.from_data "User" Sample.User_meta (Mapping Extra_kwargs) 7
     = BaseDocument.from_data "User" Sample.User_meta
         (Mapping (known_only Sample.User_meta Extra_kwargs)) 7.
Proof.
  pose proof (construct_ignores_unknown_keys "User" Sample.User_meta Extra_kwargs 7)
    as (_ & Hignored & Hsame).
  assert (Hself : "self" ∉ dom Extra_kwargs) by by_evaluation.
  assert (Hflag : truthy (default (VBool false) (Extra_kwargs !! "_empty")) = false)
    by (vm_compute; reflexivity).
  split_and!; [exact Hself|exact Hflag|exact (Hignored Hself)|exact (Hsame Hself Hflag)].
Defined.

Example Extra_kwargs_construct :
  BaseDocument.from_data "User" Sample.User_meta (Mapping Extra_kwargs) 7 = (inr Ann, 8).
Proof. by vm_compute. Qed.

(** C10 as it is written fails for the key [self]: without it the input
    gives [Ann]; with it the call raises [TypeError] and [from_data]
    reports that the value cannot be converted. *)
Lemma self_key_is_not_ignored :
  ~ unknown_keys_are_ignored "User" Sample.User_meta Self_kwargs 7.
Proof. intros [Hsucc _]. vm_compute in Hsucc. exact (Hsucc I). Qed.

Example Self_kwargs_rejected :
  ~ known_key Sample.User_meta "self"
  /\ BaseDocument.from_data "User" Sample.User_meta
       (Mapping (known_only Sample.User_meta Self_kwargs)) 7 = (inr Ann, 8)
  /\ BaseDocument.from_data "User" Sample.User_meta (Mapping Self_kwargs) 7
     = (inl (ValidationErr (VError "value can't be converted to User")), 7).
Proof.
  split_and!; [|by vm_compute|by vm_compute].
  apply (bool_decide_eq_false_1 (known_key Sample.User_meta "self")). by vm_compute.
Qed.

Lemma override_keeps_position_witness :
  ancestors Derived = __mro__ Base_defined
  /\ (__name__ (this Derived) ∉ BaseDocumentMeta.ignore_bases)
  /\ NoDup (od_keys (__dict__ (this Derived)))
  /\ ("x", MField Derived_x) ∈ __dict__ (this Derived)
  /\ ("x" ∈ od_keys (BaseDocumentMeta._get_fields Base_defined).1)
  /\ od_get "x" (BaseDocumentMeta._get_fields Derived).1
     = Some (Field.with_name "x" Derived_x)
  /\ NoDup (od_keys (BaseDocumentMeta._get_fields Derived).1)
  /\ od_index "x" (BaseDocumentMeta._get_fields Derived).1
     = od_index "x" (BaseDocumentMeta._get_fields Base_defined).1.
Proof.
  assert (Hanc : ancestors Derived = __mro__ Base_defined) by reflexivity.
  assert (Hname : __name__ (this Derived) ∉ BaseDocumentMeta.ignore_bases) by by_evaluation.
  assert (Hdict : NoDup (od_keys (__dict__ (this Derived)))) by by_evaluation.
  assert (Hdecl : ("x", MField Derived_x) ∈ __dict__ (this Derived)).
  { apply elem_of_cons. right. apply elem_of_cons. left. reflexivity. }
  assert (Hbase : "x" ∈ od_keys (BaseDocumentMeta._get_fields Base_defined).1)
    by by_evaluation.
  pose proof (override_keeps_position Derived Base_defined "x" Derived_x
                Hanc Hname Hdict Hdecl Hbase)
    as [(_ & Hget & Hnd & Hidx & _) _].
  split_and!; [exact Hanc|exact Hname|exact Hdict|exact Hdecl|exact Hbase|
               exact Hget|exact Hnd|exact Hidx].
Defined.

(** The metaclass has set [_id] on [Base]; [Derived] walks it there. *)
Example Derived_schema :
  od_keys (__dict__ (this Base_defined)) = ["x"; "y"; "_id"]
  /\ od_keys (BaseDocumentMeta._get_fields Base_defined).1 = ["x"; "y"; "_id"]
  /\ od_keys (BaseDocumentMeta._get_fields Derived).1 = ["x"; "y"; "_id"; "z"]
  /\ od_index "x" (BaseDocumentMeta._get_fields Derived).1 = Some 0
  /\ od_get "x" (BaseDocumentMeta._get_fields Derived).1
     = Some (Field.with_name "x" Derived_x)
  /\ (DocumentMeta._get_fields Sample.ext Derived).1
     = inr (BaseDocumentMeta._get_fields Derived)
  /\ match (__new__ Sample.ext DocumentMeta_ Derived).1 with
     | inr (Some meta) => field_names meta = ["x"; "y"; "_id"; "z"]
     | _ => False
     end
  /\ (__new__ Sample.ext DocumentMeta_ Derived).2 = Derived.
Proof. by vm_compute. Qed.

Lemma User_declares_no_id c item :
  c ∈ __mro__ Sample.User -> ("_id", MField item) ∉ __dict__ c.
Proof.
  intros Hc Hin. unfold __mro__ in Hc. simpl in Hc.
  apply elem_of_cons in Hc as [->|Hc].
  { simpl in Hin.
    apply elem_of_cons in Hin as [[=]|Hin].
    apply elem_of_cons in Hin as [[=]|Hin].
    by apply elem_of_nil in Hin. }
  apply elem_of_cons in Hc as [->|Hc]; [by apply elem_of_nil in Hin|].
  apply elem_of_cons in Hc as [->|Hc]; [by apply elem_of_nil in Hin|].
  apply elem_of_cons in Hc as [->|Hc]; [by apply elem_of_nil in Hin|].
  by apply elem_of_nil in Hc.
Qed.

Lemma Base_declares_no_id : injected_only Sample.ext Base.
Proof.
  intros c item Hc Hin. exfalso. unfold __mro__ in Hc. simpl in Hc.
  apply elem_of_cons in Hc as [->|Hc].
  { simpl in Hin.
    apply elem_of_cons in Hin as [[=]|Hin].
    apply elem_of_cons in Hin as [[=]|Hin].
    by apply elem_of_nil in Hin. }
  apply elem_of_cons in Hc as [->|Hc]; [by apply elem_of_nil in Hin|].
  apply elem_of_cons in Hc as [->|Hc]; [by apply elem_of_nil in Hin|].
  apply elem_of_cons in Hc as [->|Hc]; [by apply elem_of_nil in Hin|].
  by apply elem_of_nil in Hc.
Qed.

Lemma Derived_declares_no_id item : ("_id", MField item) ∉ __dict__ (this Derived).
Proof.
  intros Hin. simpl in Hin.
  apply elem_of_cons in Hin as [[=]|Hin].
  apply elem_of_cons in Hin as [[=]|Hin].
  by apply elem_of_nil in Hin.
Qed.

Lemma identifier_field_rule_witness :
  DocumentMeta._get_fields Sample.ext Sample.User
  = (inr ((BaseDocumentMeta._get_fields Sample.User).1
            ++ [("_id", DocumentMeta.default_id_field Sample.ext)],
          (BaseDocumentMeta._get_fields Sample.User).2),
     setattr Sample.User "_id" (MField (DocumentMeta.default_id_field Sample.ext)))
  /\ (injected_only Sample.ext Base
      /\ (__name__ (this Base) ∉ BaseDocumentMeta.ignore_bases)
      /\ ancestors Derived = __mro__ (DocumentMeta._get_fields Sample.ext Base).2
      /\ (__name__ (this Derived) ∉ BaseDocumentMeta.ignore_bases)
      /\ DocumentMeta._get_fields Sample.ext Derived
         = (inr (BaseDocumentMeta._get_fields Derived), Derived)
      /\ od_get "_id" (BaseDocumentMeta._get_fields Derived).1
         = Some (DocumentMeta.default_id_field Sample.ext)
      /\ od_keys (BaseDocumentMeta._get_fields Derived).1 = ["x"; "y"; "_id"; "z"])
  /\ od_get "_id" (BaseDocumentMeta._get_fields Loose).1
     = Some (Field.with_name "_id" Loose_id)
  /\ Field.required (Field.with_name "_id" Loose_id) = false
  /\ (__name__ (this Loose) ∉ ["Document"; "EmbeddedDocument"])
  /\ (__new__ Sample.ext DocumentMeta_ Loose).1 = inl (id_not_required Loose)
  /\ (__new__ Sample.ext DocumentMeta_ Sample.User).1 = inr (Some Sample.User_meta)
  /\ exists id_field,
       od_get "_id" (Meta.fields Sample.User_meta) = Some id_field
       /\ Field.required id_field = true.
Proof.
  pose proof (identifier_field_rule Sample.ext Sample.User)
    as (Hinject & _ & _ & _ & Hhas & _).
  pose proof (identifier_field_rule Sample.ext Base) as (_ & Hinherit & _).
  pose proof (identifier_field_rule Sample.ext Loose) as (_ & _ & _ & Hfail & _ & _).
  assert (HBase : __name__ (this Base) ∉ BaseDocumentMeta.ignore_bases) by by_evaluation.
  assert (Hanc : ancestors Derived = __mro__ (DocumentMeta._get_fields Sample.ext Base).2)
    by reflexivity.
  assert (HDerived : __name__ (this Derived) ∉ BaseDocumentMeta.ignore_bases)
    by by_evaluation.
  destruct (Hinherit Base_declares_no_id) as (_ & _ & Hsub).
  destruct (Hsub HBase) as [_ Hsub'].
  destruct (Hsub' Derived Hanc HDerived Derived_declares_no_id)
    as (Hfields & Hget & _ & _).
  assert (Hid : od_get "_id" (BaseDocumentMeta._get_fields Loose).1
                = Some (Field.with_name "_id" Loose_id)) by (vm_compute; reflexivity).
  assert (Hreq : Field.required (Field.with_name "_id" Loose_id) = false)
    by (vm_compute; reflexivity).
  assert (Hname : __name__ (this Loose) ∉ ["Document"; "EmbeddedDocument"]) by by_evaluation.
  assert (Hnew : (__new__ Sample.ext DocumentMeta_ Sample.User).1
                 = inr (Some Sample.User_meta))
    by (vm_compute; reflexivity).
  split_and!; [exact (Hinject User_declares_no_id)|
               exact Base_declares_no_id|exact HBase|exact Hanc|exact HDerived|
               exact Hfields|exact Hget|vm_compute; reflexivity|
               exact Hid|exact Hreq|exact Hname| |exact Hnew|exact (Hhas _ Hnew)].
  exact (proj2 (Hfail _ Hid Hreq) Hname).
Defined.

Lemma unrecognized_options_rejected_witness :
  ~ dom Misconfigured_block ⊆ Meta.OPTIONS
  /\ (exists msg,
        Meta.__init__ Misconfigured_block [] ∅ = inl (ValueError msg)
        /\ forall k, k ∈ dom Misconfigured_block -> k ∉ Meta.OPTIONS -> names_key msg k)
  /\ (exists msg,
        (__new__ Sample.ext DocumentMeta_ Misconfigured).1 = inl (ValueError msg)
        /\ forall k, k ∈ dom Misconfigured_block -> k ∉ Meta.OPTIONS -> names_key msg k)
  /\ dom (BaseDocumentMeta._get_meta_options Sample.User) ⊆ Meta.OPTIONS
  /\ exists meta, (__new__ Sample.ext DocumentMeta_ Sample.User).1 = inr (Some meta).
Proof.
  pose proof unrecognized_options_rejected as [Hmeta Hclass].
  assert (Hbad : ~ dom Misconfigured_block ⊆ Meta.OPTIONS).
  { intros Hsub. specialize (Hsub "colour").
    assert (Hin : "colour" ∈ dom Misconfigured_block) by by_evaluation.
    assert (Hout : "colour" ∉ Meta.OPTIONS) by by_evaluation.
    exact (Hout (Hsub Hin)). }
  assert (Hname : forall c, __name__ (this c) = "Misconfigured" \/ __name__ (this c) = "User" ->
            __name__ (this c) ∉ ["Document"; "EmbeddedDocument"]).
  { intros c [-> | ->]; by_evaluation. }
  assert (Hfields : (_get_fields Sample.ext DocumentMeta_ Misconfigured).1
                    = inr ([("_id", DocumentMeta.default_id_field Sample.ext)], ∅))
    by (vm_compute; reflexivity).
  assert (Hgood : dom (BaseDocumentMeta._get_meta_options Sample.User) ⊆ Meta.OPTIONS).
  { change (BaseDocumentMeta._get_meta_options Sample.User) with (∅ : gmap string value).
    rewrite dom_empty_L. apply empty_subseteq. }
  assert (HUser : (_get_fields Sample.ext DocumentMeta_ Sample.User).1
                  = inr (Meta.fields Sample.User_meta, ∅))
    by (vm_compute; reflexivity).
  split_and!.
  - exact Hbad.
  - exact (proj2 (Hmeta Misconfigured_block [] ∅) Hbad).
  - assert (Hself : "self" ∉ dom (BaseDocumentMeta._get_meta_options Misconfigured))
      by by_evaluation.
    exact (proj2 (Hclass Sample.ext DocumentMeta_ Misconfigured _ _
                    (Hname Misconfigured (or_introl eq_refl)) Hfields Hself) Hbad).
  - exact Hgood.
  - assert (Hself : "self" ∉ dom (BaseDocumentMeta._get_meta_options Sample.User))
      by by_evaluation.
    exact (proj1 (Hclass Sample.ext DocumentMeta_ Sample.User _ _
                    (Hname Sample.User (or_intror eq_refl)) HUser Hself) Hgood).
Defined.

(** The keys come in the order [elements] lists them; Python fixes none. *)
Example Misconfigured_error :
  (__new__ Sample.ext DocumentMeta_ Misconfigured).1
  = inl (ValueError "Unrecognized Meta options: shape, colour.").
Proof. by vm_compute. Qed.

Lemma options_from_own_block_only_witness :
  (__new__ Sample.ext DocumentMeta_ Sample.User).1 = inr (Some Sample.User_meta)
  /\ options_of Sample.User_meta
     = [VRef "MotorQuerySet"; VStr "user"; VDict []; VNone; VNone; VNone; VNone; VNone; VNone]
  /\ (__new__ Sample.ext EmbeddedDocumentMeta_ Reading).1 = inr (Some Reading_meta)
  /\ options_of Reading_meta
     = [VNone; VNone; VDict []; VNone; VNone; VNone; VNone; VNone; VNone].
Proof.
  assert (HUser : (__new__ Sample.ext DocumentMeta_ Sample.User).1 = inr (Some Sample.User_meta))
    by (vm_compute; reflexivity).
  assert (HReading : (__new__ Sample.ext EmbeddedDocumentMeta_ Reading).1
                     = inr (Some Reading_meta))
    by (vm_compute; reflexivity).
  split_and!; [exact HUser| |exact HReading|].
  - exact (proj2 (proj2 (options_from_own_block_only Sample.ext DocumentMeta_
                           (this Sample.User) (ancestors Sample.User) []))
             Sample.User_meta HUser).
  - exact (proj2 (proj2 (options_from_own_block_only Sample.ext EmbeddedDocumentMeta_
                           (this Reading) (ancestors Reading) []))
             Reading_meta HReading).
Defined.

(** * Further properties of the code *)

(** ** Classes the walk ignores *)

(** X1.  [_get_fields] skips a class by its name alone: a class named
    [object], [BaseDocument], [Document] or [EmbeddedDocument], a user's
    class included, contributes neither fields nor synonyms: the schema and
    the synonym table gathered for it are those of its ancestors, whatever
    its own body declares. *)
Theorem ignored_class_contributes_nothing (sub base : new_class) :
  ancestors sub = __mro__ base ->
  __name__ (this sub) ∈ BaseDocumentMeta.ignore_bases ->
  BaseDocumentMeta._get_fields sub = BaseDocumentMeta._get_fields base.
Proof.
  intros Hanc Hname.
  unfold BaseDocumentMeta._get_fields. rewrite (mro_ns_gen_sub sub base Hanc).
  rewrite decide_True by done. by rewrite app_nil_r.
Qed.

Lemma ignored_class_contributes_nothing_witness :
  ancestors Shadow = __mro__ Base_defined
  /\ (__name__ (this Shadow) ∈ BaseDocumentMeta.ignore_bases)
  /\ BaseDocumentMeta._get_fields Shadow = BaseDocumentMeta._get_fields Base_defined
  /\ od_get "x" (BaseDocumentMeta._get_fields Shadow).1 = Some (Field.with_name "x" Base_x)
  /\ od_get "t" (BaseDocumentMeta._get_fields Shadow).1 = None.
Proof.
  assert (Hanc : ancestors Shadow = __mro__ Base_defined) by reflexivity.
  assert (Hname : __name__ (this Shadow) ∈ BaseDocumentMeta.ignore_bases) by by_evaluation.
  pose proof (ignored_class_contributes_nothing Shadow Base_defined Hanc Hname) as Heq.
  split_and!; [exact Hanc|exact Hname|exact Heq| |]; rewrite Heq; vm_compute; reflexivity.
Defined.

(** ** What a schema holds *)




(** ** The synonym table *)

Lemma foldl_concat {A B} (f : A -> B -> A) (nss : list (list B)) : forall st,
  foldl (fun st ns => foldl f st ns) st nss = foldl f st (concat nss).
Proof.
  induction nss as [|ns nss IH]; intros st; simpl; [done|].
  by rewrite foldl_app, IH.
Qed.

Lemma scan_synonyms_snd ns : forall fields synonyms,
  (foldl BaseDocumentMeta.scan (fields, synonyms) ns).2 = foldl scan_synonym synonyms ns.
Proof.
  induction ns as [|[n m] ns IH]; intros fields synonyms; simpl; [done|].
  destruct m; unfold scan_synonym; simpl; apply IH.
Qed.

Lemma get_fields_snd cls :
  (BaseDocumentMeta._get_fields cls).2
  = BaseDocumentMeta.resolve_synonyms (foldl scan_synonym [] (walked cls)).
Proof.
  unfold BaseDocumentMeta._get_fields, walked.
  rewrite foldl_concat, <- (scan_synonyms_snd _ [] []).
  by destruct (foldl _ _ _).
Qed.

Lemma elem_of_concat {A} (x : A) (ls : list (list A)) :
  x ∈ concat ls <-> exists l, x ∈ l /\ l ∈ ls.
Proof.
  induction ls as [|l0 ls IH]; simpl.
  - split; [intros Hin; by apply elem_of_nil in Hin|].
    intros (l & _ & Hl). by apply elem_of_nil in Hl.
  - rewrite elem_of_app, IH. split.
    + intros [Hin|(l & Hin & Hl)].
      * exists l0. split; [done|]. apply elem_of_cons. by left.
      * exists l. split; [done|]. apply elem_of_cons. by right.
    + intros (l & Hin & Hl). apply elem_of_cons in Hl as [->|Hl]; [by left|].
      right. by exists l.
Qed.

Lemma elem_of_walked cls e :
  e ∈ walked cls
  <-> exists c, c ∈ __mro__ cls /\ (__name__ c ∉ BaseDocumentMeta.ignore_bases)
               /\ e ∈ __dict__ c.
Proof.
  unfold walked. rewrite elem_of_concat. split.
  - intros (ns & He & Hns). apply walked_namespace in Hns as (c & Hc & Hname & ->).
    by exists c.
  - intros (c & Hc & Hname & He). exists (__dict__ c). split; [done|].
    apply walked_namespace. by exists c.
Qed.

Lemma walked_own cls :
  __name__ (this cls) ∉ BaseDocumentMeta.ignore_bases ->
  walked cls = inherited cls ++ __dict__ (this cls).
Proof.
  intros Hname. unfold walked, inherited, BaseDocumentMeta.mro_ns_gen, __mro__.
  rewrite reverse_cons, filter_app, fmap_app, concat_app. f_equal.
  rewrite filter_cons, filter_nil. rewrite decide_True by done.
  simpl. by rewrite app_nil_r.
Qed.

Lemma scan_synonyms_sound l id item n : forall ss,
  (id, (item, n)) ∈ foldl scan_synonym ss l ->
  (id, (item, n)) ∈ ss \/ ((n, MSynonym item) ∈ l /\ id = synonym_id item).
Proof.
  induction l as [|[k m] l IH]; intros ss Hin; simpl in *; [by left|].
  destruct (IH _ Hin) as [Hin'|[Hdecl ->]].
  - unfold scan_synonym in Hin'. simpl in Hin'. destruct m as [|i|]; try by left.
    apply od_set_elem_of in Hin' as [[= -> -> ->]|Hin']; [|by left].
    right. split; [apply elem_of_cons; by left|done].
  - right. split; [apply elem_of_cons; by right|done].
Qed.

Lemma scan_synonyms_keys_prefix l : forall ss,
  od_keys ss `prefix_of` od_keys (foldl scan_synonym ss l).
Proof.
  induction l as [|[k m] l IH]; intros ss; simpl; [done|].
  etrans; [|apply IH]. unfold scan_synonym. simpl.
  destruct m; [done|apply od_keys_set_prefix|done].
Qed.

Lemma scan_synonyms_keys l n item : forall ss,
  (n, MSynonym item) ∈ l -> synonym_id item ∈ od_keys (foldl scan_synonym ss l).
Proof.
  induction l as [|[k m] l IH]; intros ss Hin; simpl.
  - by apply elem_of_nil in Hin.
  - apply elem_of_cons in Hin as [[= <- <-]|Hin]; [|by apply IH].
    destruct (scan_synonyms_keys_prefix l (scan_synonym ss (n, MSynonym item))) as [k' ->].
    apply elem_of_app. left. unfold scan_synonym. simpl. apply od_keys_set_elem_of.
Qed.

Lemma resolve_synonyms_sound (ss : odict nat (SynonymField * string)) origin n : forall m : gmap string string,
  foldl (fun m '(_, (item, name)) => <[origin_field_name item := name]> m) m ss
    !! origin = Some n ->
  m !! origin = Some n
  \/ exists id item, (id, (item, n)) ∈ ss /\ origin_field_name item = origin.
Proof.
  induction ss as [|[id [item name]] ss IH]; intros m Hl; simpl in *; [by left|].
  destruct (IH _ Hl) as [Hm|(id' & item' & Hin & Ho)].
  - destruct (decide (origin_field_name item = origin)) as [Heq|Hne].
    + rewrite Heq, lookup_insert_eq in Hm. injection Hm as ->.
      right. exists id, item. split; [apply elem_of_cons; by left|done].
    + rewrite lookup_insert_ne in Hm by done. by left.
  - right. exists id', item'. split; [apply elem_of_cons; by right|done].
Qed.

Lemma resolve_synonyms_keep (ss : odict nat (SynonymField * string)) origin : forall m : gmap string string,
  is_Some (m !! origin) ->
  is_Some (foldl (fun m '(_, (item, name)) => <[origin_field_name item := name]> m) m ss
             !! origin).
Proof.
  induction ss as [|[id [item name]] ss IH]; intros m Hm; simpl; [done|].
  apply IH. destruct (decide (origin_field_name item = origin)) as [Heq|Hne].
  - rewrite Heq, lookup_insert_eq. by eexists.
  - by rewrite lookup_insert_ne.
Qed.

Lemma resolve_synonyms_complete (ss : odict nat (SynonymField * string)) id item n : forall m : gmap string string,
  (id, (item, n)) ∈ ss ->
  is_Some (foldl (fun m '(_, (item, name)) => <[origin_field_name item := name]> m) m ss
             !! origin_field_name item).
Proof.
  induction ss as [|[id' [item' name']] ss IH]; intros m Hin; simpl.
  - by apply elem_of_nil in Hin.
  - apply elem_of_cons in Hin as [[= <- <- <-]|Hin]; [|by apply IH].
    apply resolve_synonyms_keep. rewrite lookup_insert_eq. by eexists.
Qed.

(** X3.  The synonym table [_get_fields] returns holds declared synonyms
    only: an entry [origin -> name] comes from a walked class that binds
    [name] to a synonym of the field [origin].  And, synonym objects being
    told apart by identity, every field some walked class declares a
    synonym for has an entry. *)
Theorem synonym_table_holds_declared_synonyms (cls : new_class) :
  let table := (BaseDocumentMeta._get_fields cls).2 in
  (forall origin n, table !! origin = Some n ->
     exists item, (n, MSynonym item) ∈ walked cls /\ origin_field_name item = origin)
  /\ (synonyms_identified cls ->
      forall n item, (n, MSynonym item) ∈ walked cls ->
        is_Some (table !! origin_field_name item)).
Proof.
  intros table. unfold table. rewrite get_fields_snd. split.
  - intros origin n Hl. unfold BaseDocumentMeta.resolve_synonyms in Hl.
    apply resolve_synonyms_sound in Hl as [Hl|(id & item & Hin & Ho)].
    + by rewrite lookup_empty in Hl.
    + apply scan_synonyms_sound in Hin as [Hin|[Hin _]].
      * by apply elem_of_nil in Hin.
      * by exists item.
  - intros Hid n item Hin.
    pose proof (scan_synonyms_keys _ _ _ [] Hin) as Hk.
    apply od_get_is_Some in Hk as [[item' n'] Hg]. apply od_get_elem_of in Hg.
    pose proof Hg as Hg'.
    apply scan_synonyms_sound in Hg' as [Hg'|[Hin' Heq]].
    + by apply elem_of_nil in Hg'.
    + rewrite (Hid _ _ _ _ Hin Hin' Heq).
      unfold BaseDocumentMeta.resolve_synonyms.
      by eapply resolve_synonyms_complete.
Qed.

Lemma synonym_table_holds_declared_synonyms_witness :
  synonyms_identified Reading2
  /\ is_Some ((BaseDocumentMeta._get_fields Reading2).2 !! "value").
Proof.
  assert (Hid : synonyms_identified Reading2).
  { intros n n' i i' Hi Hi' Heq.
    assert (Hall : forall n i, (n, MSynonym i) ∈ walked Reading2 ->
              i = {| synonym_id := synonym_id i; origin_field_name := "value" |}).
    { intros n0 i0 Hin.
      change (walked Reading2)
        with (__dict__ (this Reading) ++ __dict__ (this Reading2)) in Hin.
      simpl in Hin.
      repeat (apply elem_of_cons in Hin as [Hin|Hin];
              [try done; by injection Hin as -> ->|]).
      by apply elem_of_nil in Hin. }
    rewrite (Hall _ _ Hi), (Hall _ _ Hi'). by rewrite Heq. }
  split; [exact Hid|].
  apply (proj2 (synonym_table_holds_declared_synonyms Reading2) Hid "val"
           {| synonym_id := 0; origin_field_name := "value" |}).
  change (walked Reading2) with (__dict__ (this Reading) ++ __dict__ (this Reading2)).
  simpl. apply elem_of_cons. right. apply elem_of_cons. by left.
Defined.

Lemma od_set_app {K V} `{EqDecision K} (k : K) (v : V) (d1 d2 : odict K V) :
  od_set k v (d1 ++ d2)
  = if decide (k ∈ od_keys d1) then od_set k v d1 ++ d2 else d1 ++ od_set k v d2.
Proof.
  induction d1 as [|[k' v'] d1 IH]; simpl.
  - done.
  - destruct (decide (k = k')) as [->|Hne].
    + rewrite decide_True; [done|]. apply elem_of_cons. by left.
    + rewrite IH. destruct (decide (k ∈ od_keys d1)) as [Hin|Hnin].
      * rewrite decide_True; [done|]. apply elem_of_cons. by right.
      * rewrite decide_False; [done|]. rewrite not_elem_of_cons. done.
Qed.

Lemma od_set_Forall {K V} `{EqDecision K} (P : K * V -> Prop) (k : K) (v : V)
    (d : odict K V) :
  P (k, v) -> Forall P d -> Forall P (od_set k v d).
Proof.
  intros Hkv Hd. apply Forall_forall. intros [k' v'] Hin.
  apply od_set_elem_of in Hin as [->|Hin]; [done|].
  rewrite Forall_forall in Hd. by apply Hd.
Qed.

(** Entries for other origins, scanned after a synonym whose identity
    they do not share, leave it the last entry of its origin. *)
Lemma scan_synonyms_after l id item n : forall s1 s2,
  (forall n' i', (n', MSynonym i') ∈ l ->
     synonym_id i' <> id /\ origin_field_name i' <> origin_field_name item) ->
  Forall (fun e : nat * (SynonymField * string) =>
            origin_field_name e.2.1 <> origin_field_name item) s2 ->
  exists s1' s2',
    foldl scan_synonym (s1 ++ (id, (item, n)) :: s2) l = s1' ++ (id, (item, n)) :: s2'
    /\ Forall (fun e : nat * (SynonymField * string) =>
                 origin_field_name e.2.1 <> origin_field_name item) s2'.
Proof.
  induction l as [|[k m] l IH]; intros s1 s2 Hl Hs2; simpl.
  - by exists s1, s2.
  - assert (Hl' : forall n' i', (n', MSynonym i') ∈ l ->
              synonym_id i' <> id /\ origin_field_name i' <> origin_field_name item).
    { intros n' i' Hin. apply (Hl n'). apply elem_of_cons. by right. }
    unfold scan_synonym at 2. simpl. destruct m as [|i|]; [by apply IH| |by apply IH].
    destruct (Hl k i) as [Hid Ho]; [apply elem_of_cons; by left|].
    rewrite od_set_app. destruct (decide (synonym_id i ∈ od_keys s1)).
    + by apply IH.
    + simpl. rewrite decide_False by done.
      apply (IH s1 (od_set (synonym_id i) (i, k) s2)); [done|].
      by apply od_set_Forall.
Qed.

Lemma resolve_synonyms_other (ss : odict nat (SynonymField * string)) origin : forall m : gmap string string,
  Forall (fun e : nat * (SynonymField * string) => origin_field_name e.2.1 <> origin) ss ->
  foldl (fun m '(_, (item, name)) => <[origin_field_name item := name]> m) m ss !! origin
  = m !! origin.
Proof.
  induction ss as [|[id [item name]] ss IH]; intros m Hall; simpl; [done|].
  apply Forall_cons in Hall as [Hne Hall]. simpl in Hne.
  rewrite IH by done. by rewrite lookup_insert_ne.
Qed.

(** X4.  Only one synonym of a field is registered, the last one: when a
    class declares a synonym of a field, by an object bound nowhere else
    in the walk, and no later entry of its body is a synonym of the same
    field, the table maps the field to that name, whatever synonyms of the
    field the ancestors or the earlier entries declare; those are dropped. *)
Theorem last_synonym_of_a_field_wins (cls : new_class)
    (before after : list (string * member)) (n : string) (item : SynonymField) :
  __name__ (this cls) ∉ BaseDocumentMeta.ignore_bases ->
  __dict__ (this cls) = before ++ (n, MSynonym item) :: after ->
  (forall n' i', (n', MSynonym i') ∈ inherited cls ++ before ++ after ->
     synonym_id i' <> synonym_id item) ->
  (forall n' i', (n', MSynonym i') ∈ after ->
     origin_field_name i' <> origin_field_name item) ->
  (BaseDocumentMeta._get_fields cls).2 !! origin_field_name item = Some n.
Proof.
  intros Hname Hdict Hfresh Hafter.
  rewrite get_fields_snd, walked_own by done. rewrite Hdict.
  rewrite app_assoc, foldl_app. simpl.
  set (s1 := foldl scan_synonym [] (inherited cls ++ before)).
  assert (Hk : synonym_id item ∉ od_keys s1).
  { intros Hin. apply od_get_is_Some in Hin as [[i' n'] Hg].
    apply od_get_elem_of in Hg. apply scan_synonyms_sound in Hg as [Hg|[Hin Heq]].
    - by apply elem_of_nil in Hg.
    - apply (Hfresh n' i'); [|done]. rewrite app_assoc. apply elem_of_app. by left. }
  unfold scan_synonym at 2. simpl. rewrite od_set_fresh by done.
  destruct (scan_synonyms_after after (synonym_id item) item n s1 [])
    as (s1' & s2' & -> & Hs2).
  - intros n' i' Hin. split; [|by eapply Hafter].
    apply (Hfresh n'). rewrite !elem_of_app. by right; right.
  - apply Forall_nil_2.
  - unfold BaseDocumentMeta.resolve_synonyms. rewrite foldl_app. simpl.
    rewrite resolve_synonyms_other by done. by rewrite lookup_insert_eq.
Qed.

Lemma last_synonym_of_a_field_wins_witness :
  (BaseDocumentMeta._get_fields Reading).2 !! "value" = Some "val"
  /\ (BaseDocumentMeta._get_fields Reading2).2 !! "value" = Some "v".
Proof.
  split; [reflexivity|].
  apply (last_synonym_of_a_field_wins Reading2 [] [] "v"
           {| synonym_id := 1; origin_field_name := "value" |}).
  - by_evaluation.
  - reflexivity.
  - intros n' i' Hin.
    change (inherited Reading2 ++ [] ++ []) with (__dict__ (this Reading)) in Hin.
    simpl in Hin.
    repeat (apply elem_of_cons in Hin as [Hin|Hin];
            [try done; by injection Hin as -> ->|]).
    by apply elem_of_nil in Hin.
  - intros n' i' Hin. by apply elem_of_nil in Hin.
Defined.


(** ** The report of validated construction *)

Section construct_report.
Variable meta : Meta.t.
Variable kwargs : gmap string value.

(** The generator advances only where a default is read: the loop leaves
    it alone when each field it walks is in the input or has no factory. *)
Lemma init_loop_world fs : forall w self errors,
  (forall n f, (n, f) ∈ fs -> in_input meta kwargs n = true \/ has_factory f = false) ->
  (foldl (BaseDocument.init_step meta kwargs) (w, self, errors) fs).1.1 = w.
Proof.
  induction fs as [|[n f] fs IH]; intros w self errors Hall; simpl; [done|].
  assert (Hw : (BaseDocument.value_or_default meta kwargs n f w).2 = w).
  { destruct (Hall n f) as [Hin|Hfac]; [apply elem_of_cons; by left| |].
    - rewrite in_input_lookup in Hin. apply bool_decide_eq_true in Hin as [v Hv].
      unfold BaseDocument.value_or_default. by rewrite Hv.
    - unfold BaseDocument.value_or_default, Field.default, has_factory in *.
      destruct (BaseDocument._get_field_value_from_data meta kwargs n); [done|].
      by destruct (Field._default f). }
  assert (Hall' : forall n' f', (n', f') ∈ fs ->
            in_input meta kwargs n' = true \/ has_factory f' = false).
  { intros n' f' Hin. apply Hall. apply elem_of_cons. by right. }
  destruct (BaseDocument.value_or_default meta kwargs n f w) as [[v|] w1];
    simpl in Hw; subst w1.
  - destruct (BaseDocument.__setattr__ self n f v); by apply IH.
  - destruct (Field.required f); by apply IH.
Qed.
End construct_report.

(** X5.  Validated construction stops at no field and keeps no error to
    itself: [__init__] returns an instance only if no schema field has a
    verdict against it, and otherwise raises the aggregated error, which
    is not empty, names schema fields only, in schema order, and holds for
    every schema field exactly the verdict on it: the error of its own
    validation, ['field is required'], or no entry.  A field that fails
    does not hide the failure of a later one. *)
Theorem construct_reports_every_failing_field
    (meta : Meta.t) (kwargs : gmap string value) (w : world) :
  NoDup (field_names meta) ->
  match (BaseDocument.__init__ meta false kwargs w).1 with
  | inr _ =>
      forall n f, (n, f) ∈ Meta.fields meta ->
        exists w0, verdict meta kwargs n f w0 = None
  | inl (ValidationErr (VErrors errors)) =>
      errors <> []
      /\ od_keys errors `sublist_of` field_names meta
      /\ forall n f, (n, f) ∈ Meta.fields meta ->
           exists w0, od_get n errors = verdict meta kwargs n f w0
  | inl _ => False
  end.
Proof.
  intros Hnd. unfold BaseDocument.__init__.
  destruct (init_loop_report meta kwargs (Meta.fields meta) w (BaseDocument.mk []) [] Hnd)
    as (report & Heq & Hsub & Hall).
  destruct (foldl _ _ _) as [[w' self] errors]. simpl in Heq. subst errors.
  destruct report as [|r report]; simpl.
  - intros n f Hin. destruct (Hall n f Hin) as [w0 Hw0]. by exists w0.
  - split_and!; [done|done|done].
Qed.

Lemma construct_reports_every_failing_field_witness :
  NoDup (field_names Strict_meta)
  /\ (BaseDocument.__init__ Strict_meta false Strict_kwargs 0).1
     = inl (ValidationErr (VErrors [("a", VError "value is not int");
                                    ("b", VError "field is required")]))
  /\ exists f w0,
       ("b", f) ∈ Meta.fields Strict_meta
       /\ od_get "b" [("a", VError "value is not int"); ("b", VError "field is required")]
          = verdict Strict_meta Strict_kwargs "b" f w0.
Proof.
  assert (Hnd : NoDup (field_names Strict_meta)) by by_evaluation.
  pose proof (construct_reports_every_failing_field Strict_meta Strict_kwargs 0 Hnd) as H.
  assert (Hres : (BaseDocument.__init__ Strict_meta false Strict_kwargs 0).1
                 = inl (ValidationErr (VErrors [("a", VError "value is not int");
                                                ("b", VError "field is required")])))
    by (vm_compute; reflexivity).
  rewrite Hres in H. destruct H as (_ & _ & H).
  assert (Hin : ("b", Field.with_name "b" (Sample.StrField true NoDefault "b"))
                ∈ Meta.fields Strict_meta).
  { apply od_get_elem_of. vm_compute. reflexivity. }
  destruct (H _ _ Hin) as [w0 Hw0].
  split_and!; [exact Hnd|exact Hres|].
  exists (Field.with_name "b" (Sample.StrField true NoDefault "b")), w0.
  split; [exact Hin|exact Hw0].
Defined.

(** X6.  A default factory is invoked only for a field the input leaves
    out: when every field whose default is a factory has a value in the
    input, under its name or its synonym, construction draws nothing from
    the generator, whether it succeeds or fails; nor does an empty
    construction. *)
Theorem construct_draws_only_for_absent_fields
    (meta : Meta.t) (_empty : bool) (kwargs : gmap string value) (w : world) :
  (_empty = true
   \/ forall n f, (n, f) ∈ Meta.fields meta ->
        in_input meta kwargs n = true \/ has_factory f = false) ->
  (BaseDocument.__init__ meta _empty kwargs w).2 = w.
Proof.
  intros [->|Hall]; [done|]. unfold BaseDocument.__init__. destruct _empty; [done|].
  pose proof (init_loop_world meta kwargs (Meta.fields meta) w (BaseDocument.mk []) [] Hall)
    as Hw.
  destruct (foldl _ _ _) as [[w' self] errors]. simpl in Hw. subst w'.
  by destruct errors.
Qed.

Lemma construct_draws_only_for_absent_fields_witness :
  (forall n f, (n, f) ∈ Meta.fields Sample.User_meta ->
     in_input Sample.User_meta Ann_with_id_kwargs n = true \/ has_factory f = false)
  /\ (BaseDocument.__init__ Sample.User_meta false Ann_with_id_kwargs 7).2 = 7
  /\ (BaseDocument.__init__ Sample.User_meta false Ann_kwargs 7).2 = 8.
Proof.
  assert (Hall : forall n f, (n, f) ∈ Meta.fields Sample.User_meta ->
            in_input Sample.User_meta Ann_with_id_kwargs n = true \/ has_factory f = false).
  { assert (Hb : forallb (fun e : string * Field.t =>
                            in_input Sample.User_meta Ann_with_id_kwargs e.1
                            || negb (has_factory e.2))
                         (Meta.fields Sample.User_meta) = true)
      by (vm_compute; reflexivity).
    intros n f Hin. apply list_elem_of_In in Hin.
    pose proof (proj1 (forallb_forall _ _) Hb _ Hin) as Hnf. simpl in Hnf.
    apply orb_true_iff in Hnf as [Hnf|Hnf]; [by left|right].
    by apply negb_true_iff in Hnf. }
  split_and!; [exact Hall| |vm_compute; reflexivity].
  apply (construct_draws_only_for_absent_fields Sample.User_meta false Ann_with_id_kwargs 7).
  right. exact Hall.
Defined.


(** ** Loops that assign keys again *)

Section keyed_folds.
Context {A V : Type}.
Variable step : odict string V -> A -> odict string V.
Variable h : A -> option (string * V).
Hypothesis step_spec : forall acc x,
  step acc x = match h x with Some (k, v) => od_set k v acc | None => acc end.

Lemma foldl_od_set_NoDup l : forall acc,
  NoDup (od_keys acc) -> NoDup (od_keys (foldl step acc l)).
Proof.
  induction l as [|x l IH]; intros acc Hnd; simpl; [done|].
  apply IH. rewrite step_spec. destruct (h x) as [[k v]|]; [|done].
  by apply od_set_NoDup.
Qed.

(** Of the assignments to one key the last one decides the value. *)
Lemma foldl_od_set_get l k : forall acc,
  od_get k (foldl step acc l)
  = match od_get k (reverse (omap h l)) with
    | Some v => Some v
    | None => od_get k acc
    end.
Proof.
  induction l as [|x l IH]; intros acc; csimpl; [done|].
  rewrite IH, step_spec. destruct (h x) as [[k' v']|]; csimpl; [|done].
  rewrite reverse_cons, od_get_app, od_get_set. simpl.
  destruct (od_get k (reverse (omap h l))); [done|].
  by destruct (decide (k = k')).
Qed.

(** Keys enter the dictionary in the order of the assignments. *)
Lemma foldl_od_set_keys l : forall acc,
  exists sub,
    od_keys (foldl step acc l) = od_keys acc ++ sub
    /\ sub `sublist_of` (omap h l).*1.
Proof.
  induction l as [|x l IH]; intros acc; csimpl.
  - exists []. by rewrite app_nil_r.
  - destruct (IH (step acc x)) as (sub & Hk & Hs). rewrite Hk, step_spec.
    destruct (h x) as [[k v]|]; csimpl; [|by exists sub].
    rewrite od_keys_set. destruct (decide (k ∈ od_keys acc)).
    + exists sub. split; [done|]. by apply sublist_cons.
    + exists (k :: sub). split; [by rewrite <- app_assoc|]. by apply sublist_skip.
Qed.
End keyed_folds.

Lemma to_son_step_spec (self : BaseDocument.t) :
  forall (son : odict string value) (entry : string * Field.t),
    (let '(field_name, field) := entry in
     match od_get field_name (BaseDocument._data self) with
     | Some v => od_set (Field.mongo_name field) (Field.to_son field v) son
     | None => son
     end)
    = match emit self entry with Some (k, v) => od_set k v son | None => son end.
Proof.
  intros son [n f]. unfold emit. simpl. by destruct (od_get n _).
Qed.

Lemma emit_keys_sublist (meta : Meta.t) (self : BaseDocument.t) :
  (omap (emit self) (Meta.fields meta)).*1 `sublist_of` wire_names meta.
Proof.
  apply omap_keys_sublist. intros [n f] k v. unfold emit. simpl.
  destruct (od_get n _); [|done]. by intros [= <- _].
Qed.

(** What [to_son] holds under a key: the contribution of the last set
    field with that wire name. *)
Lemma to_son_get (meta : Meta.t) (self : BaseDocument.t) k :
  od_get k (BaseDocument.to_son meta self)
  = od_get k (reverse (omap (emit self) (Meta.fields meta))).
Proof.
  unfold BaseDocument.to_son.
  rewrite (foldl_od_set_get _ (emit self) (to_son_step_spec self)).
  by destruct (od_get k (reverse _)).
Qed.

Lemma to_son_key (meta : Meta.t) (self : BaseDocument.t) k :
  k ∈ od_keys (BaseDocument.to_son meta self)
  <-> exists n f, (n, f) ∈ Meta.fields meta
                 /\ is_Some (BaseDocument.get self n) /\ Field.mongo_name f = k.
Proof.
  rewrite <- od_get_is_Some, to_son_get, od_get_is_Some. unfold od_keys.
  rewrite list_elem_of_fmap. split.
  - intros ([k' v] & -> & Hin). rewrite elem_of_reverse, list_elem_of_omap in Hin.
    destruct Hin as ([n f] & Hin & Hemit). exists n, f. unfold emit in Hemit.
    unfold BaseDocument.get. simpl in *.
    destruct (od_get n _) as [v0|]; [|done]. injection Hemit as <- <-.
    split_and!; [done|by eexists|done].
  - intros (n & f & Hin & [v Hv] & <-). exists (Field.mongo_name f, Field.to_son f v).
    split; [done|]. rewrite elem_of_reverse, list_elem_of_omap. exists (n, f).
    split; [done|]. unfold emit. simpl. unfold BaseDocument.get in Hv. by rewrite Hv.
Qed.

(** X7.  Whatever the wire names are, [to_son] builds a record without
    repeated keys, whose keys are wire names of the schema in schema order
    and are exactly the wire names of the fields the instance has a value
    for; under each key it holds the wire-converted value of the last such
    field of the schema: where fields share a wire name, the later field
    overwrites the earlier one. *)
Theorem to_son_last_set_field_wins (meta : Meta.t) (self : BaseDocument.t) :
  let son := BaseDocument.to_son meta self in
  NoDup (od_keys son)
  /\ od_keys son `sublist_of` wire_names meta
  /\ (forall k, k ∈ od_keys son
        <-> exists n f, (n, f) ∈ Meta.fields meta
                       /\ is_Some (BaseDocument.get self n) /\ Field.mongo_name f = k)
  /\ (forall k, od_get k son = od_get k (reverse (omap (emit self) (Meta.fields meta)))).
Proof.
  intros son. unfold son. split_and!.
  - unfold BaseDocument.to_son.
    apply (foldl_od_set_NoDup _ (emit self) (to_son_step_spec self)). apply NoDup_nil_2.
  - unfold BaseDocument.to_son.
    destruct (foldl_od_set_keys _ (emit self) (to_son_step_spec self)
                (Meta.fields meta) []) as (sub & -> & Hs).
    simpl. etrans; [exact Hs|]. apply emit_keys_sublist.
  - intros k. apply to_son_key.
  - intros k. apply to_son_get.
Qed.

Lemma to_son_last_set_field_wins_witness :
  (exists n f, (n, f) ∈ Meta.fields Clash_meta
               /\ is_Some (BaseDocument.get Clash_inst n) /\ Field.mongo_name f = "x")
  /\ "x" ∈ od_keys (BaseDocument.to_son Clash_meta Clash_inst)
  /\ od_get "x" (BaseDocument.to_son Clash_meta Clash_inst) = Some (VInt 2).
Proof.
  assert (Hset : exists n f, (n, f) ∈ Meta.fields Clash_meta
                   /\ is_Some (BaseDocument.get Clash_inst n) /\ Field.mongo_name f = "x").
  { exists "a", (Field.with_name "a" (Sample.IntField false NoDefault "x")). split_and!.
    - apply od_get_elem_of. vm_compute. reflexivity.
    - by eexists.
    - reflexivity. }
  destruct (to_son_last_set_field_wins Clash_meta Clash_inst) as (_ & _ & Hkey & Hget).
  split_and!; [exact Hset|by apply Hkey|].
  rewrite Hget. vm_compute. reflexivity.
Defined.

(** ** From the wire and back *)

(** Reading a dictionary back along a list of entries whose keys are
    distinct and hold the dictionary's keys in the same order gives the
    dictionary itself. *)
Lemma od_restrict_sublist_by {F V} (key : F -> string) (fs : list F) :
  forall (d : odict string V),
    NoDup (key <$> fs) ->
    od_keys d `sublist_of` (key <$> fs) ->
    omap (fun e : F => pair (key e) <$> od_get (key e) d) fs = d.
Proof.
  induction fs as [|e fs IH]; intros d Hnd Hsub.
  - apply sublist_nil_r in Hsub. by destruct d.
  - simpl in Hnd, Hsub. apply NoDup_cons in Hnd as [Hn Hnd].
    apply sublist_cons_r in Hsub as [Hsub|(l' & Hd & Hsub)]; csimpl.
    + assert (Hnone : od_get (key e) d = None).
      { apply od_get_None. intros Hin. apply Hn. by eapply elem_of_sublist. }
      rewrite Hnone. csimpl. by apply IH.
    + destruct d as [|[k v] d]; [done|]. simpl in Hd. injection Hd as -> <-.
      assert (Hg : od_get (key e) ((key e, v) :: d) = Some v)
        by (simpl; by rewrite decide_True).
      rewrite Hg. csimpl. f_equal.
      etrans; [|exact (IH d Hnd Hsub)].
      apply omap_ext_elem_of. intros e' Hin. simpl.
      rewrite decide_False; [done|]. intros Heq. apply Hn. rewrite <- Heq.
      apply list_elem_of_fmap. by exists e'.
Qed.

(** X8.  From the wire and back: when the fields have distinct wire names
    and each field's [to_son] inverts its [from_son] on the values of the
    record, serializing the instance loaded from a wire record gives the
    record's entries under the schema's wire names, in schema order; what
    the record holds under other keys is lost, and a record whose keys are
    wire names in schema order comes back as it is. *)
Theorem to_son_from_son_round_trip
    (meta : Meta.t) (data : odict string value) (w : world) :
  NoDup (field_names meta) ->
  NoDup (wire_names meta) ->
  (forall n f wire, (n, f) ∈ Meta.fields meta ->
     od_get (Field.mongo_name f) data = Some wire ->
     Field.to_son f (Field.from_son f wire) = wire) ->
  exists inst,
    BaseDocument.from_son meta data w = (inr inst, w)
    /\ BaseDocument.to_son meta inst = omap (wire_entry data) (Meta.fields meta)
    /\ (forall k, k ∉ wire_names meta ->
          od_get k (BaseDocument.to_son meta inst) = None)
    /\ (od_keys data `sublist_of` wire_names meta ->
        BaseDocument.to_son meta inst = data).
Proof.
  intros Hnd Hwire Hinv.
  exists (BaseDocument._set_son meta (BaseDocument.mk []) data).
  assert (Hson : BaseDocument.to_son meta
                   (BaseDocument._set_son meta (BaseDocument.mk []) data)
                 = omap (wire_entry data) (Meta.fields meta)).
  { rewrite to_son_emits by done. apply omap_ext_elem_of. intros [n f] Hin.
    pose proof (set_son_lookup meta (BaseDocument.mk []) data n f Hnd Hin) as Hl.
    unfold BaseDocument.get in Hl. unfold emit, wire_entry.
    cbn [fst snd]. rewrite Hl.
    destruct (od_get (Field.mongo_name f) data) as [wire|] eqn:Hw; simpl; [|done].
    by rewrite (Hinv n f wire Hin Hw). }
  split_and!.
  - done.
  - exact Hson.
  - intros k Hk. apply od_get_None. intros Hin. apply Hk.
    eapply elem_of_sublist; [exact Hin|].
    rewrite to_son_emits by done. apply emit_keys_sublist.
  - intros Hsub. rewrite Hson. unfold wire_entry.
    by apply (od_restrict_sublist_by (fun e : string * Field.t => Field.mongo_name e.2)).
Qed.

Lemma to_son_from_son_round_trip_witness :
  (exists inst,
     BaseDocument.from_son Sample.User_meta Ann_record 0 = (inr inst, 0)
     /\ BaseDocument.to_son Sample.User_meta inst
        = [("name", VStr "Ann"); ("_id", VObjectId 7)])
  /\ od_keys Ann_wire `sublist_of` wire_names Sample.User_meta
  /\ (exists inst,
        BaseDocument.from_son Sample.User_meta Ann_wire 0 = (inr inst, 0)
        /\ BaseDocument.to_son Sample.User_meta inst = Ann_wire).
Proof.
  assert (Hnd : NoDup (field_names Sample.User_meta)) by by_evaluation.
  assert (Hwire : NoDup (wire_names Sample.User_meta)) by by_evaluation.
  assert (Hinv : forall data n f wire, (n, f) ∈ Meta.fields Sample.User_meta ->
            od_get (Field.mongo_name f) data = Some wire ->
            Field.to_son f (Field.from_son f wire) = wire).
  { assert (Hall : Forall (fun e : string * Field.t =>
                             forall wire, Field.to_son e.2 (Field.from_son e.2 wire) = wire)
                          (Meta.fields Sample.User_meta)).
    { vm_compute. repeat (constructor; [intros wire; reflexivity|]). constructor. }
    intros data n f wire Hin _. rewrite Forall_forall in Hall.
    exact (Hall (n, f) Hin wire). }
  assert (Hsub : od_keys Ann_wire `sublist_of` wire_names Sample.User_meta).
  { change (["name"; "_id"] `sublist_of` ["name"; "age"; "_id"]).
    apply sublist_skip, sublist_cons, sublist_skip, sublist_nil. }
  split_and!; [|exact Hsub|].
  - destruct (to_son_from_son_round_trip Sample.User_meta Ann_record 0 Hnd Hwire
                (Hinv Ann_record)) as (inst & Hload & Hson & _).
    exists inst. split; [exact Hload|]. rewrite Hson. vm_compute. reflexivity.
  - destruct (to_son_from_son_round_trip Sample.User_meta Ann_wire 0 Hnd Hwire
                (Hinv Ann_wire)) as (inst & Hload & _ & _ & Hback).
    exists inst. split; [exact Hload|exact (Hback Hsub)].
Defined.


(** ** What [from_data] raises *)

(** X9.  [from_data] lets no [TypeError] out: data the class cannot be
    called with (no mapping, or a mapping with the key [self]) gives the
    validation error [value can't be converted to <class>], without a
    field being looked at and without a draw from the generator; and,
    the fields failing with validation errors only, every outcome is an
    instance, that error (for such data and no other) or an aggregated
    error that is not empty. *)
Theorem from_data_raises_validation_errors_only
    (cls__name__ : string) (meta : Meta.t) (data : user_data) (w : world) :
  (unbindable data ->
   BaseDocument.from_data cls__name__ meta data w = (inl (cannot_convert cls__name__), w))
  /\ match (BaseDocument.from_data cls__name__ meta data w).1 with
     | inr _ => ~ unbindable data
     | inl (ValidationErr (VError _)) => unbindable data
     | inl (ValidationErr (VErrors errors)) => ~ unbindable data /\ errors <> []
     | inl _ => False
     end.
Proof.
  unfold BaseDocument.from_data, BaseDocument.call, unbindable. split.
  - destruct data as [kw|v]; [|done]. intros Hself. by rewrite decide_True.
  - destruct data as [kw|v]; [|done].
    destruct (decide ("self" ∈ dom kw)) as [Hself|Hself]; [done|].
    unfold BaseDocument.__init__. destruct (truthy _); [done|].
    destruct (foldl _ _ _) as [[w' self] errors]. by destruct errors.
Qed.

Lemma from_data_raises_validation_errors_only_witness :
  unbindable (Mapping Self_kwargs)
  /\ BaseDocument.from_data "User" Sample.User_meta (Mapping Self_kwargs) 0
     = (inl (cannot_convert "User"), 0).
Proof.
  assert (Hself : unbindable (Mapping Self_kwargs)) by by_evaluation.
  split; [exact Hself|].
  exact (proj1 (from_data_raises_validation_errors_only
                  "User" Sample.User_meta (Mapping Self_kwargs) 0) Hself).
Defined.

Lemma to_son_empty (meta : Meta.t) : BaseDocument.to_son meta (BaseDocument.mk []) = [].
Proof.
  unfold BaseDocument.to_son. generalize (Meta.fields meta).
  induction l as [|[n f] fs IH]; simpl; done.
Qed.

(** X10.  The constructor's own flag can come in with the data: a mapping
    without the key [self] whose entry [_empty] is true makes [from_data]
    return the empty instance, no field being validated, no required field
    being asked for and no default being read, whatever the schema and the
    other entries are; and [create] then inserts the empty record. *)
Theorem empty_flag_in_data_skips_validation
    (cls__name__ : string) (meta : Meta.t) (kw : gmap string value) (w : world) :
  "self" ∉ dom kw ->
  truthy (default (VBool false) (kw !! "_empty")) = true ->
  BaseDocument.from_data cls__name__ meta (Mapping kw) w = (inr (BaseDocument.mk []), w)
  /\ Document.create cls__name__ meta kw w
     = (inr (insert_one [], BaseDocument.mk []), w).
Proof.
  intros Hself Hflag.
  assert (Hdata : BaseDocument.from_data cls__name__ meta (Mapping kw) w
                  = (inr (BaseDocument.mk []), w)).
  { unfold BaseDocument.from_data, BaseDocument.call.
    rewrite decide_False by done. by rewrite Hflag. }
  split; [done|]. unfold Document.create. rewrite Hdata.
  unfold Document.save. by rewrite to_son_empty.
Qed.

Lemma empty_flag_in_data_skips_validation_witness :
  ("self" ∉ dom Empty_flag_kwargs)
  /\ truthy (default (VBool false) (Empty_flag_kwargs !! "_empty")) = true
  /\ BaseDocument.from_data "User" Sample.User_meta (Mapping Empty_flag_kwargs) 0
     = (inr (BaseDocument.mk []), 0)
  /\ (BaseDocument.from_data "User" Sample.User_meta (Mapping ∅) 0).1
     = inl (ValidationErr (VErrors [("name", VError "field is required")])).
Proof.
  assert (Hself : "self" ∉ dom Empty_flag_kwargs) by by_evaluation.
  assert (Hflag : truthy (default (VBool false) (Empty_flag_kwargs !! "_empty")) = true)
    by reflexivity.
  split_and!; [exact Hself|exact Hflag| |vm_compute; reflexivity].
  exact (proj1 (empty_flag_in_data_skips_validation
                  "User" Sample.User_meta Empty_flag_kwargs 0 Hself Hflag)).
Defined.

(** ** Saving *)

(** X11.  [save] with [do_insert] inserts the wire record of the instance,
    whatever it holds.  Without it, [save] looks the record up under
    [_id]: it raises [KeyError] exactly when the instance has no value for
    any field whose wire name is [_id]; otherwise it replaces, with upsert,
    the document selected by the record's own [_id] entry alone.  Either
    way the record sent is the one [to_son] gives and the instance is
    returned as it is. *)
Theorem save_selects_by_identifier (meta : Meta.t) (self : BaseDocument.t) :
  Document.save meta self true = inr (insert_one (BaseDocument.to_son meta self), self)
  /\ (Document.save meta self false = inl (KeyError "_id")
      <-> ~ sets_wire_name meta self "_id")
  /\ (sets_wire_name meta self "_id" ->
      exists id,
        od_get "_id" (BaseDocument.to_son meta self) = Some id
        /\ Document.save meta self false
           = inr (replace_one [("_id", id)] (BaseDocument.to_son meta self) true, self)).
Proof.
  pose proof (to_son_key meta self "_id") as Hkey.
  rewrite <- od_get_is_Some in Hkey. fold (sets_wire_name meta self "_id") in Hkey.
  unfold Document.save. split_and!.
  - done.
  - destruct (od_get "_id" (BaseDocument.to_son meta self)) as [id|].
    + split; [done|]. intros Hno. exfalso. apply Hno. apply Hkey. by eexists.
    + split; [|done]. intros _ Hset. apply Hkey in Hset. by destruct Hset.
  - intros Hset. apply Hkey in Hset as [id Hid]. exists id. by rewrite Hid.
Qed.

Lemma save_selects_by_identifier_witness :
  sets_wire_name Sample.User_meta Ann "_id"
  /\ Document.save Sample.User_meta Ann false
     = inr (replace_one [("_id", VObjectId 7)]
              [("name", VStr "Ann"); ("age", VInt 0); ("_id", VObjectId 7)] true, Ann)
  /\ Document.save Sample.User_meta Anonymous false = inl (KeyError "_id").
Proof.
  assert (Hset : sets_wire_name Sample.User_meta Ann "_id").
  { exists "_id", (DocumentMeta.default_id_field Sample.ext). split_and!.
    - apply od_get_elem_of. vm_compute. reflexivity.
    - by eexists.
    - reflexivity. }
  destruct (proj2 (proj2 (save_selects_by_identifier Sample.User_meta Ann)) Hset)
    as (id & Hid & Hsave).
  split_and!; [exact Hset| |vm_compute; reflexivity].
  rewrite Hsave. vm_compute in Hid. injection Hid as <-. vm_compute. reflexivity.
Defined.

Section saving_validated.
Variable meta : Meta.t.
Variable kwargs : gmap string value.

(** A construction that succeeds has given every required field a
    value. *)
Lemma init_required_set w inst w' n f :
  NoDup (field_names meta) ->
  BaseDocument.__init__ meta false kwargs w = (inr inst, w') ->
  (n, f) ∈ Meta.fields meta ->
  Field.required f = true ->
  is_Some (BaseDocument.get inst n).
Proof.
  intros Hnd Hinit Hin Hreq. unfold BaseDocument.__init__ in Hinit.
  pose proof (init_loop_report meta kwargs (Meta.fields meta) w (BaseDocument.mk []) [] Hnd)
    as (report & Heq & _ & Hall).
  pose proof (init_loop_stores meta kwargs (Meta.fields meta) n f w
                (BaseDocument.mk []) [] Hnd Hin) as Hst.
  simpl in Hst.
  destruct (foldl _ _ _) as [[w1 self] errors]. simpl in Heq, Hst.
  destruct errors; [|done]. injection Hinit as <- <-.
  destruct report; [|done].
  destruct (Hall n f Hin) as [w0 Hw0]. simpl in Hw0.
  destruct (Hst eq_refl) as [w2 Hw2].
  destruct (BaseDocument.value_or_default meta kwargs n f w2).1 as [v|] eqn:Hv2.
  - destruct Hw2 as (v' & _ & Hget). by eexists.
  - exfalso. apply value_or_default_None in Hv2.
    apply (value_or_default_None meta kwargs n f w0) in Hv2.
    unfold verdict in Hw0. rewrite Hv2, Hreq in Hw0. done.
Qed.
End saving_validated.

(** A top-level document class that has been defined has a required
    [_id] in its schema. *)
Lemma defined_document_has_required_id ext cls meta :
  (__new__ ext DocumentMeta_ cls).1 = inr (Some meta) ->
  exists id_field,
    od_get "_id" (Meta.fields meta) = Some id_field /\ Field.required id_field = true.
Proof.
  unfold __new__.
  destruct (decide (__name__ (this cls) ∈ ["Document"; "EmbeddedDocument"])); [done|].
  simpl. destruct (DocumentMeta._get_fields ext cls) as [[e|[fs ss]] cls'] eqn:Hfields; [done|].
  unfold Meta.call, Meta.__init__. destruct (decide ("self" ∈ _)); [done|].
  destruct (Meta._validate_options _); [done|].
  simpl. intros [= <-]. simpl.
  eapply DocumentMeta_fields_have_required_id. by rewrite Hfields.
Qed.

(** X12.  An instance built by validated construction of a top-level
    document class whose [_id] field goes by the wire name [_id] can
    always be saved: its wire record has an [_id] entry, so [save] raises
    no [KeyError] and replaces, with upsert, the document selected by that
    entry, which, the wire names being distinct, is the wire form of the
    instance's own [_id]. *)
Theorem validated_document_can_be_saved
    (ext : externals) (cls : new_class) (meta : Meta.t) (id_field : Field.t)
    (kwargs : gmap string value) (w w' : world) (inst : BaseDocument.t) :
  (__new__ ext DocumentMeta_ cls).1 = inr (Some meta) ->
  od_get "_id" (Meta.fields meta) = Some id_field ->
  Field.mongo_name id_field = "_id" ->
  BaseDocument.__init__ meta false kwargs w = (inr inst, w') ->
  exists id,
    od_get "_id" (BaseDocument.to_son meta inst) = Some id
    /\ Document.save meta inst false
       = inr (replace_one [("_id", id)] (BaseDocument.to_son meta inst) true, inst)
    /\ (NoDup (wire_names meta) ->
        exists v, BaseDocument.get inst "_id" = Some v /\ id = Field.to_son id_field v).
Proof.
  intros Hnew Hid Hwire Hinit.
  pose proof (defined_class_fields_NoDup _ _ _ _ Hnew) as Hnd.
  destruct (defined_document_has_required_id _ _ _ Hnew) as (id_field' & Hid' & Hreq).
  rewrite Hid in Hid'. injection Hid' as <-.
  pose proof (od_get_elem_of _ _ _ Hid) as Hin.
  pose proof (init_required_set meta kwargs w inst w' "_id" id_field Hnd Hinit Hin Hreq)
    as Hset.
  assert (Hkey : is_Some (od_get "_id" (BaseDocument.to_son meta inst))).
  { apply od_get_is_Some. apply to_son_key. by exists "_id", id_field. }
  destruct Hkey as [id Hkey]. exists id. split_and!.
  - done.
  - unfold Document.save. by rewrite Hkey.
  - intros Hwires. destruct Hset as [v Hv]. exists v. split; [done|].
    pose proof (to_son_lookup meta inst "_id" id_field Hwires Hin) as Hl.
    rewrite Hwire, Hkey, Hv in Hl. by injection Hl.
Qed.

Lemma validated_document_can_be_saved_witness :
  exists inst id,
    BaseDocument.__init__ Sample.User_meta false Ann_kwargs 7 = (inr inst, 8)
    /\ od_get "_id" (BaseDocument.to_son Sample.User_meta inst) = Some id
    /\ Document.save Sample.User_meta inst false
       = inr (replace_one [("_id", id)] (BaseDocument.to_son Sample.User_meta inst) true,
              inst)
    /\ NoDup (wire_names Sample.User_meta)
    /\ exists v, BaseDocument.get inst "_id" = Some v
                 /\ id = Field.to_son (DocumentMeta.default_id_field Sample.ext) v.
Proof.
  assert (Hnew : (__new__ Sample.ext DocumentMeta_ Sample.User).1 = inr (Some Sample.User_meta))
    by (vm_compute; reflexivity).
  assert (Hid : od_get "_id" (Meta.fields Sample.User_meta)
                = Some (DocumentMeta.default_id_field Sample.ext))
    by (vm_compute; reflexivity).
  assert (Hwire : Field.mongo_name (DocumentMeta.default_id_field Sample.ext) = "_id")
    by reflexivity.
  assert (Hinit : BaseDocument.__init__ Sample.User_meta false Ann_kwargs 7 = (inr Ann, 8))
    by (vm_compute; reflexivity).
  assert (Hwires : NoDup (wire_names Sample.User_meta)) by by_evaluation.
  destruct (validated_document_can_be_saved Sample.ext Sample.User Sample.User_meta
              (DocumentMeta.default_id_field Sample.ext) Ann_kwargs 7 8 Ann
              Hnew Hid Hwire Hinit) as (id & Hkey & Hsave & Hown).
  exists Ann, id.
  split_and!; [exact Hinit|exact Hkey|exact Hsave|exact Hwires|exact (Hown Hwires)].
Defined.

(** X13.  [create] validates before it writes: for keyword arguments
    without the keys [self] and [_empty], it either raises the validation
    error of the construction, no request being made, or inserts the wire
    record of the instance it returns, which is the instance validated
    construction gives; for a top-level document class whose [_id] goes by
    the wire name [_id] the inserted record has an [_id] entry. *)
Theorem create_validates_then_inserts
    (ext : externals) (cls : new_class) (meta : Meta.t) (id_field : Field.t)
    (kwargs : gmap string value) (w : world) :
  "self" ∉ dom kwargs ->
  "_empty" ∉ dom kwargs ->
  match BaseDocument.__init__ meta false kwargs w with
  | (inr inst, w') =>
      Document.create (__name__ (this cls)) meta kwargs w
      = (inr (insert_one (BaseDocument.to_son meta inst), inst), w')
      /\ ((__new__ ext DocumentMeta_ cls).1 = inr (Some meta) ->
          od_get "_id" (Meta.fields meta) = Some id_field ->
          Field.mongo_name id_field = "_id" ->
          is_Some (od_get "_id" (BaseDocument.to_son meta inst)))
  | (inl e, w') =>
      Document.create (__name__ (this cls)) meta kwargs w = (inl (Raised e), w')
      /\ exists errors, e = ValidationErr (VErrors errors) /\ errors <> []
  end.
Proof.
  intros Hself Hempty.
  assert (Hcall : BaseDocument.call meta (Mapping kwargs) w
                  = BaseDocument.__init__ meta false kwargs w).
  { unfold BaseDocument.call. rewrite decide_False by done.
    apply not_elem_of_dom in Hempty. rewrite Hempty. simpl.
    by rewrite delete_id. }
  unfold Document.create, BaseDocument.from_data. rewrite Hcall.
  destruct (BaseDocument.__init__ meta false kwargs w) as [[e|inst] w'] eqn:Hinit.
  - assert (He : exists errors, e = ValidationErr (VErrors errors) /\ errors <> []).
    { unfold BaseDocument.__init__ in Hinit.
      destruct (foldl _ _ _) as [[w1 self] errors]. destruct errors as [|e0 errors]; [done|].
      injection Hinit as <- _. by exists (e0 :: errors). }
    destruct He as (errors & -> & Hne). split; [done|]. by exists errors.
  - split; [done|]. intros Hnew Hid Hwire.
    pose proof (defined_class_fields_NoDup _ _ _ _ Hnew) as Hnd.
    destruct (defined_document_has_required_id _ _ _ Hnew) as (id_field' & Hid' & Hreq).
    rewrite Hid in Hid'. injection Hid' as <-.
    pose proof (od_get_elem_of _ _ _ Hid) as Hin.
    pose proof (init_required_set meta kwargs w inst w' "_id" id_field Hnd Hinit Hin Hreq)
      as Hset.
    apply od_get_is_Some. apply to_son_key. by exists "_id", id_field.
Qed.

Lemma create_validates_then_inserts_witness :
  ("self" ∉ dom Ann_kwargs)
  /\ ("_empty" ∉ dom Ann_kwargs)
  /\ Document.create "User" Sample.User_meta Ann_kwargs 7
     = (inr (insert_one (BaseDocument.to_son Sample.User_meta Ann), Ann), 8)
  /\ is_Some (od_get "_id" (BaseDocument.to_son Sample.User_meta Ann)).
Proof.
  assert (Hself : "self" ∉ dom Ann_kwargs) by by_evaluation.
  assert (Hempty : "_empty" ∉ dom Ann_kwargs) by by_evaluation.
  pose proof (create_validates_then_inserts Sample.ext Sample.User Sample.User_meta
                (DocumentMeta.default_id_field Sample.ext) Ann_kwargs 7 Hself Hempty) as H.
  assert (Hinit : BaseDocument.__init__ Sample.User_meta false Ann_kwargs 7 = (inr Ann, 8))
    by (vm_compute; reflexivity).
  rewrite Hinit in H. destruct H as [Hcreate Hkey].
  split_and!; [exact Hself|exact Hempty|exact Hcreate|].
  apply Hkey; [vm_compute; reflexivity|vm_compute; reflexivity|reflexivity].
Defined.
